(** * resource_aws_lb: a shallow embedding of aws/resource_aws_lb.go

    The file models the load balancer resource of the provider: the pure
    helpers (ARN parsing, flattening of availability zones, the attribute
    list built by Update, the CustomizeDiff function) as Rocq functions,
    and the four lifecycle operations as programs over the calls they make
    to the remote API, so that statements about which calls are issued, in
    which order and with which result can be proved for every behaviour of
    the remote side. *)

From Stdlib Require Import ZArith String Ascii List Bool DecimalString DecimalPos.
From stdpp Require Import base decidable option list gmap strings sorting.

Local Open Scope string_scope.
Local Open Scope Z_scope.

(* ===================================================================== *)
(** * Go values *)
(* ===================================================================== *)

(** Go's [error] values.  [AwsError] is what a call of the AWS SDK returns,
    [Errorf] is [fmt.Errorf] (the format string as written in the source, its
    string arguments, and the error it embeds if any), [TimeoutError] is the
    plugin SDK's [*resource.TimeoutError]. *)
#[warnings="-register-all"]
Inductive error : Type :=
| AwsError (code message : string)
| Errorf (format : string) (args : list string) (cause : option error)
| TimeoutError (lastError : option error).

(** A Go result pair [(T, error)]. *)
Inductive result (A : Type) : Type :=
| Ok (a : A)
| Err (e : error).
Arguments Ok {A} a.
Arguments Err {A} e.

Module aws.
(** [aws.StringValue]: the pointed-to string, or the empty string for nil. *)
Definition StringValue (p : option string) : string :=
  match p with Some s => s | None => "" end.
End aws.

Module strconv.
(** [strconv.FormatBool], also what [fmt.Sprintf("%t", b)] prints. *)
Definition FormatBool (b : bool) : string := if b then "true" else "false".

(** [fmt.Sprintf("%d", n)] for a Go [int]. *)
Definition FormatInt (n : Z) : string := NilZero.string_of_int (Z.to_int n).

Definition digit (c : ascii) : option Z :=
  let n := Z.of_nat (nat_of_ascii c) in
  if (48 <=? n) && (n <=? 57) then Some (n - 48) else None.

Fixpoint digits (acc : Z) (s : string) : option Z :=
  match s with
  | EmptyString => Some acc
  | String c s' =>
      match digit c with
      | Some d => digits (10 * acc + d) s'
      | None => None
      end
  end.

(** [strconv.Atoi]: an optional sign, then at least one decimal digit, the
    value within the range of a 64-bit [int]. *)
Definition Atoi (s : string) : result Z :=
  let bad := Err (Errorf "strconv.Atoi: parsing %q" [s] None) in
  let '(neg, body) :=
    match s with
    | String "-" s' => (true, s')
    | String "+" s' => (false, s')
    | _ => (false, s)
    end in
  match body with
  | EmptyString => bad
  | _ =>
      match digits 0 body with
      | Some n =>
          let v := if neg then - n else n in
          if (- 2 ^ 63 <=? v) && (v <=? 2 ^ 63 - 1) then Ok v else bad
      | None => bad
      end
  end.
End strconv.

(* ===================================================================== *)
(** * The regular expressions of the file *)
(* ===================================================================== *)

(** Go's [regexp] package on the fragment the two patterns of the file use.
    Matching is leftmost-first: the match a backtracking search finds first,
    trying start positions from the left, with greedy repetition.  Strings
    are sequences of bytes; the two character classes of the patterns
    exclude one ASCII byte each, so matching by byte and by rune agree. *)
Module regexp.

Inductive Regexp : Type :=
| Lit (text : string)              (* literal text *)
| Star (class : ascii -> bool)     (* c*, greedy *)
| Plus (class : ascii -> bool)     (* c+, greedy *)
| Group (r : Regexp)               (* ( r ) *)
| Cat (r1 r2 : Regexp)             (* r1 r2 *)
| EndText.                         (* $ without the m flag *)

(** [.] without the s flag: any character but newline. *)
Definition dot (c : ascii) : bool := negb (Ascii.eqb c "010"%char).
(** [[^/]] *)
Definition notSlash (c : ascii) : bool := negb (Ascii.eqb c "/"%char).

Fixpoint stripPrefix (p s : string) : option string :=
  match p, s with
  | EmptyString, _ => Some s
  | String a p', String b s' => if Ascii.eqb a b then stripPrefix p' s' else None
  | String _ _, EmptyString => None
  end.

(** The text of [s] in front of its suffix [rest]. *)
Definition consumed (s rest : string) : string :=
  substring 0 (String.length s - String.length rest) s.

(** Greedy repetition of a class: take one more character first, and give
    the rest to the continuation only when that fails. *)
Fixpoint many {R : Type} (class : ascii -> bool) (s : string)
    (k : string -> option R) : option R :=
  match s with
  | String c s' =>
      if class c then
        match many class s' k with
        | Some x => Some x
        | None => k s
        end
      else k s
  | EmptyString => k s
  end.

(** The backtracking matcher: [exec r s caps k] matches [r] at the front of
    [s] and calls [k] on what is left and on the groups captured so far. *)
Fixpoint exec {R : Type} (r : Regexp) (s : string) (caps : list string)
    (k : string -> list string -> option R) : option R :=
  match r with
  | Lit text =>
      match stripPrefix text s with
      | Some rest => k rest caps
      | None => None
      end
  | Star class => many class s (fun rest => k rest caps)
  | Plus class =>
      match s with
      | String c s' => if class c then many class s' (fun rest => k rest caps) else None
      | EmptyString => None
      end
  | Group r1 => exec r1 s caps (fun rest caps' => k rest (caps' ++ [consumed s rest])%list)
  | Cat r1 r2 => exec r1 s caps (fun rest caps' => exec r2 rest caps' k)
  | EndText =>
      match s with
      | EmptyString => k s caps
      | String _ _ => None
      end
  end.

(** A match at the front of [s]: the submatches (the whole match first, as
    Go returns them) and the text after the match. *)
Definition matchAt (r : Regexp) (s : string) : option (list string * string) :=
  exec r s [] (fun rest caps => Some (consumed s rest :: caps, rest)).

(** The leftmost match: the first start position at which there is one. *)
Fixpoint search (r : Regexp) (s : string) : option (list string * string) :=
  match matchAt r s with
  | Some m => Some m
  | None =>
      match s with
      | String _ s' => search r s'
      | EmptyString => None
      end
  end.

(** [re.FindStringSubmatch(s)]: the submatches of the leftmost match, nil
    (the empty slice) when there is none. *)
Definition FindStringSubmatch (r : Regexp) (s : string) : list string :=
  match search r s with
  | Some (m, _) => m
  | None => []
  end.

(** [re.FindAllStringSubmatch(s, -1)]: the successive matches, each search
    starting where the previous match ended.  A match that is empty is
    stepped over by one character; no pattern of this file has one. *)
Fixpoint allMatches (fuel : nat) (r : Regexp) (s : string) : list (list string) :=
  match fuel with
  | O => []
  | S fuel' =>
      match search r s with
      | None => []
      | Some (m, rest) =>
          if String.eqb rest s then
            match s with
            | String _ s' => m :: allMatches fuel' r s'
            | EmptyString => [m]
            end
          else m :: allMatches fuel' r rest
      end
  end.

Definition FindAllStringSubmatch (r : Regexp) (s : string) : list (list string) :=
  allMatches (S (String.length s)) r s.

End regexp.

(* ===================================================================== *)
(** * ARN helpers *)
(* ===================================================================== *)

(** The pattern of [getLbNameFromArn], "([^/]+/[^/]+/[^/]+)$". *)
Definition lbNameRegexp : regexp.Regexp :=
  regexp.Cat
    (regexp.Group
       (regexp.Cat (regexp.Plus regexp.notSlash)
          (regexp.Cat (regexp.Lit "/")
             (regexp.Cat (regexp.Plus regexp.notSlash)
                (regexp.Cat (regexp.Lit "/") (regexp.Plus regexp.notSlash))))))
    regexp.EndText.

Definition getLbNameFromArn (arn : string) : result string :=
  let matches := regexp.FindStringSubmatch lbNameRegexp arn in
  match matches with
  | [_; name] => Ok name
  | _ => Err (Errorf "Unexpected ARN format: %q" [arn] None)
  end.

(** The pattern of [lbSuffixFromARN]: the text arn: then any characters,
    then :loadbalancer/ and a group that captures the rest of the line. *)
Definition lbSuffixRegexp : regexp.Regexp :=
  regexp.Cat (regexp.Lit "arn:")
    (regexp.Cat (regexp.Star regexp.dot)
       (regexp.Cat (regexp.Lit ":loadbalancer/")
          (regexp.Group (regexp.Star regexp.dot)))).

Definition lbSuffixFromARN (arn : option string) : string :=
  match arn with
  | None => ""
  | Some a =>
      match regexp.FindAllStringSubmatch lbSuffixRegexp a with
      | [[_; suffix]] => suffix
      | _ => ""
      end
  end.

(* ===================================================================== *)
(** * The shapes of the remote API (package elbv2 of the AWS SDK) *)
(* ===================================================================== *)

Module elbv2.

Definition LoadBalancerTypeEnumApplication : string := "application".
Definition LoadBalancerTypeEnumNetwork : string := "network".
Definition LoadBalancerTypeEnumGateway : string := "gateway".

(** A [*string] field is [None] when nil. *)
Record LoadBalancerAddress : Type := {
  AllocationId : option string;
  IPv6Address : option string;
  IpAddress : option string;
  PrivateIPv4Address : option string
}.

Record AvailabilityZone : Type := {
  LoadBalancerAddresses : list LoadBalancerAddress;
  OutpostId : option string;
  SubnetId : option string;
  ZoneName : option string
}.

Record LoadBalancer : Type := {
  AvailabilityZones : list AvailabilityZone;
  CanonicalHostedZoneId : option string;
  CustomerOwnedIpv4Pool : option string;
  DNSName : option string;
  IpAddressType : option string;
  LoadBalancerArn : option string;
  LoadBalancerName : option string;
  Scheme : option string;
  SecurityGroups : list (option string);
  Type_ : option string;
  VpcId : option string
}.

Record LoadBalancerAttribute : Type := {
  Key : option string;
  Value : option string
}.

(** An entry of [CreateLoadBalancerInput.SubnetMappings]. *)
Record SubnetMapping : Type := {
  sm_AllocationId : option string;
  sm_IPv6Address : option string;
  sm_PrivateIPv4Address : option string;
  sm_SubnetId : option string
}.

(** [CreateLoadBalancerInput]; a slice that was not assigned is nil, the
    empty list. *)
Record CreateLoadBalancerInput : Type := {
  in_CustomerOwnedIpv4Pool : option string;
  in_IpAddressType : option string;
  in_Name : option string;
  in_Scheme : option string;
  in_SecurityGroups : list string;
  in_SubnetMappings : list SubnetMapping;
  in_Subnets : list string;
  in_Tags : list (string * string);
  in_Type : option string
}.

End elbv2.

#[global] Instance LoadBalancerAttribute_eq_dec : EqDecision elbv2.LoadBalancerAttribute.
Proof. solve_decision. Defined.

(** A network interface as [ec2.DescribeNetworkInterfaces] lists it; only
    its identity matters here. *)
Record NetworkInterface : Type := { NetworkInterfaceId : string }.

(** The filters of a [DescribeNetworkInterfaces] request: name and values. *)
Definition Filter : Type := (string * list string)%type.

(* ===================================================================== *)
(** * The resource's schema and [schema.ResourceData] *)
(* ===================================================================== *)

(** An element of the [subnet_mapping] set: every key of the nested schema
    is present, a string that was not given is the empty string. *)
Record SubnetMappingConfig : Type := {
  subnet_id : string;
  ipv6_address : string;
  outpost_id : string;
  allocation_id : string;
  private_ipv4_address : string
}.

(** The [Set] function of the [subnet_mapping] schema writes the subnet,
    and the allocation and the private IPv4 address when they are not
    empty, each followed by a dash, into a buffer, and hashes the buffer.
    This is the buffer. *)
Definition subnetMappingHashInput (m : SubnetMappingConfig) : string :=
  (subnet_id m ++ "-")
  ++ (if String.eqb (allocation_id m) "" then "" else allocation_id m ++ "-")
  ++ (if String.eqb (private_ipv4_address m) "" then ""
      else private_ipv4_address m ++ "-").

(** An [access_logs] block. *)
Record AccessLogs : Type := {
  bucket : string;
  prefix : string;
  enabled : bool
}.

(** The attributes of the [Schema] map, with the Go type each is read at;
    the [subnet_mapping] set is kept as the list that the method [List] of
    the set gives: its elements, in the order of their keys. *)
Record LbConfig : Type := {
  arn : string;
  arn_suffix : string;
  name : string;
  name_prefix : string;
  internal : bool;
  load_balancer_type : string;
  security_groups : gset string;
  subnets : gset string;
  subnet_mapping : list SubnetMappingConfig;
  (** a list of at most one block; an element may be nil *)
  access_logs : list (option AccessLogs);
  enable_deletion_protection : bool;
  idle_timeout : Z;
  drop_invalid_header_fields : bool;
  enable_cross_zone_load_balancing : bool;
  enable_http2 : bool;
  ip_address_type : string;
  customer_owned_ipv4_pool : string;
  vpc_id : string;
  zone_id : string;
  dns_name : string;
  tags : gmap string string
}.

#[global] Instance SubnetMappingConfig_eq_dec : EqDecision SubnetMappingConfig.
Proof. solve_decision. Defined.
#[global] Instance AccessLogs_eq_dec : EqDecision AccessLogs.
Proof. solve_decision. Defined.
#[global] Instance LbConfig_eq_dec : EqDecision LbConfig.
Proof. solve_decision. Defined.

(** The [Timeouts] of the resource, as durations. *)
Record ResourceTimeout : Type := {
  TimeoutCreate : Z;
  TimeoutUpdate : Z;
  TimeoutDelete : Z
}.

(** [schema.ResourceData] as the operations see it: the identity, the state
    before the operation ([old]), the values [d.Get] reads ([new]: the
    planned values, overwritten by [d.Set]), and whether the resource was
    created by the running apply. *)
Record ResourceData : Type := {
  Id : string;
  old : LbConfig;
  new : LbConfig;
  IsNewResource : bool;
  Timeout : ResourceTimeout
}.

(** [d.HasChange(key)]: the old and the new value of [key] differ. *)
Definition HasChange {A : Type} `{EqDecision A} (key : LbConfig -> A) (d : ResourceData) : bool :=
  bool_decide (key (old d) ≠ key (new d)).

(** [d.Get(key)] *)
Definition Get {A : Type} (key : LbConfig -> A) (d : ResourceData) : A := key (new d).

(** [d.GetOk(key)]: the value, when it is not the zero value of its type. *)
Definition GetOk_string (key : LbConfig -> string) (d : ResourceData) : option string :=
  let v := Get key d in if String.eqb v "" then None else Some v.
Definition GetOk_bool (key : LbConfig -> bool) (d : ResourceData) : option bool :=
  let v := Get key d in if v then Some v else None.
Definition GetOk_set (key : LbConfig -> gset string) (d : ResourceData) : option (gset string) :=
  let v := Get key d in if decide (v = ∅) then None else Some v.
Definition GetOk_list {A : Type} (key : LbConfig -> list A) (d : ResourceData) : option (list A) :=
  let v := Get key d in match v with [] => None | _ => Some v end.

(** [d.SetId] and the [d.Set] calls of the file, one per key. *)
Definition SetId (id : string) (d : ResourceData) : ResourceData :=
  {| Id := id; old := old d; new := new d; IsNewResource := IsNewResource d; Timeout := Timeout d |}.

Definition withNew (f : LbConfig -> LbConfig) (d : ResourceData) : ResourceData :=
  {| Id := Id d; old := old d; new := f (new d); IsNewResource := IsNewResource d; Timeout := Timeout d |}.

(** [d.Set(key, v)], one definition per key the file writes: the value
    [d.Get(key)] reads from then on. *)
Definition Set_arn (v : string) : ResourceData -> ResourceData :=
  withNew (fun c =>
    {| arn := v; arn_suffix := arn_suffix c; name := name c;
       name_prefix := name_prefix c; internal := internal c;
       load_balancer_type := load_balancer_type c;
       security_groups := security_groups c; subnets := subnets c;
       subnet_mapping := subnet_mapping c; access_logs := access_logs c;
       enable_deletion_protection := enable_deletion_protection c;
       idle_timeout := idle_timeout c;
       drop_invalid_header_fields := drop_invalid_header_fields c;
       enable_cross_zone_load_balancing := enable_cross_zone_load_balancing c;
       enable_http2 := enable_http2 c; ip_address_type := ip_address_type c;
       customer_owned_ipv4_pool := customer_owned_ipv4_pool c; vpc_id := vpc_id c;
       zone_id := zone_id c; dns_name := dns_name c; tags := tags c |}).
Definition Set_arn_suffix (v : string) : ResourceData -> ResourceData :=
  withNew (fun c =>
    {| arn := arn c; arn_suffix := v; name := name c; name_prefix := name_prefix c;
       internal := internal c; load_balancer_type := load_balancer_type c;
       security_groups := security_groups c; subnets := subnets c;
       subnet_mapping := subnet_mapping c; access_logs := access_logs c;
       enable_deletion_protection := enable_deletion_protection c;
       idle_timeout := idle_timeout c;
       drop_invalid_header_fields := drop_invalid_header_fields c;
       enable_cross_zone_load_balancing := enable_cross_zone_load_balancing c;
       enable_http2 := enable_http2 c; ip_address_type := ip_address_type c;
       customer_owned_ipv4_pool := customer_owned_ipv4_pool c; vpc_id := vpc_id c;
       zone_id := zone_id c; dns_name := dns_name c; tags := tags c |}).
Definition Set_name (v : string) : ResourceData -> ResourceData :=
  withNew (fun c =>
    {| arn := arn c; arn_suffix := arn_suffix c; name := v;
       name_prefix := name_prefix c; internal := internal c;
       load_balancer_type := load_balancer_type c;
       security_groups := security_groups c; subnets := subnets c;
       subnet_mapping := subnet_mapping c; access_logs := access_logs c;
       enable_deletion_protection := enable_deletion_protection c;
       idle_timeout := idle_timeout c;
       drop_invalid_header_fields := drop_invalid_header_fields c;
       enable_cross_zone_load_balancing := enable_cross_zone_load_balancing c;
       enable_http2 := enable_http2 c; ip_address_type := ip_address_type c;
       customer_owned_ipv4_pool := customer_owned_ipv4_pool c; vpc_id := vpc_id c;
       zone_id := zone_id c; dns_name := dns_name c; tags := tags c |}).
Definition Set_internal (v : bool) : ResourceData -> ResourceData :=
  withNew (fun c =>
    {| arn := arn c; arn_suffix := arn_suffix c; name := name c;
       name_prefix := name_prefix c; internal := v;
       load_balancer_type := load_balancer_type c;
       security_groups := security_groups c; subnets := subnets c;
       subnet_mapping := subnet_mapping c; access_logs := access_logs c;
       enable_deletion_protection := enable_deletion_protection c;
       idle_timeout := idle_timeout c;
       drop_invalid_header_fields := drop_invalid_header_fields c;
       enable_cross_zone_load_balancing := enable_cross_zone_load_balancing c;
       enable_http2 := enable_http2 c; ip_address_type := ip_address_type c;
       customer_owned_ipv4_pool := customer_owned_ipv4_pool c; vpc_id := vpc_id c;
       zone_id := zone_id c; dns_name := dns_name c; tags := tags c |}).
Definition Set_load_balancer_type (v : string) : ResourceData -> ResourceData :=
  withNew (fun c =>
    {| arn := arn c; arn_suffix := arn_suffix c; name := name c;
       name_prefix := name_prefix c; internal := internal c; load_balancer_type := v;
       security_groups := security_groups c; subnets := subnets c;
       subnet_mapping := subnet_mapping c; access_logs := access_logs c;
       enable_deletion_protection := enable_deletion_protection c;
       idle_timeout := idle_timeout c;
       drop_invalid_header_fields := drop_invalid_header_fields c;
       enable_cross_zone_load_balancing := enable_cross_zone_load_balancing c;
       enable_http2 := enable_http2 c; ip_address_type := ip_address_type c;
       customer_owned_ipv4_pool := customer_owned_ipv4_pool c; vpc_id := vpc_id c;
       zone_id := zone_id c; dns_name := dns_name c; tags := tags c |}).
Definition Set_security_groups (v : gset string) : ResourceData -> ResourceData :=
  withNew (fun c =>
    {| arn := arn c; arn_suffix := arn_suffix c; name := name c;
       name_prefix := name_prefix c; internal := internal c;
       load_balancer_type := load_balancer_type c; security_groups := v;
       subnets := subnets c; subnet_mapping := subnet_mapping c;
       access_logs := access_logs c;
       enable_deletion_protection := enable_deletion_protection c;
       idle_timeout := idle_timeout c;
       drop_invalid_header_fields := drop_invalid_header_fields c;
       enable_cross_zone_load_balancing := enable_cross_zone_load_balancing c;
       enable_http2 := enable_http2 c; ip_address_type := ip_address_type c;
       customer_owned_ipv4_pool := customer_owned_ipv4_pool c; vpc_id := vpc_id c;
       zone_id := zone_id c; dns_name := dns_name c; tags := tags c |}).
Definition Set_subnets (v : gset string) : ResourceData -> ResourceData :=
  withNew (fun c =>
    {| arn := arn c; arn_suffix := arn_suffix c; name := name c;
       name_prefix := name_prefix c; internal := internal c;
       load_balancer_type := load_balancer_type c;
       security_groups := security_groups c; subnets := v;
       subnet_mapping := subnet_mapping c; access_logs := access_logs c;
       enable_deletion_protection := enable_deletion_protection c;
       idle_timeout := idle_timeout c;
       drop_invalid_header_fields := drop_invalid_header_fields c;
       enable_cross_zone_load_balancing := enable_cross_zone_load_balancing c;
       enable_http2 := enable_http2 c; ip_address_type := ip_address_type c;
       customer_owned_ipv4_pool := customer_owned_ipv4_pool c; vpc_id := vpc_id c;
       zone_id := zone_id c; dns_name := dns_name c; tags := tags c |}).
Definition Set_subnet_mapping (v : list SubnetMappingConfig) : ResourceData -> ResourceData :=
  withNew (fun c =>
    {| arn := arn c; arn_suffix := arn_suffix c; name := name c;
       name_prefix := name_prefix c; internal := internal c;
       load_balancer_type := load_balancer_type c;
       security_groups := security_groups c; subnets := subnets c; subnet_mapping := v;
       access_logs := access_logs c;
       enable_deletion_protection := enable_deletion_protection c;
       idle_timeout := idle_timeout c;
       drop_invalid_header_fields := drop_invalid_header_fields c;
       enable_cross_zone_load_balancing := enable_cross_zone_load_balancing c;
       enable_http2 := enable_http2 c; ip_address_type := ip_address_type c;
       customer_owned_ipv4_pool := customer_owned_ipv4_pool c; vpc_id := vpc_id c;
       zone_id := zone_id c; dns_name := dns_name c; tags := tags c |}).
Definition Set_access_logs (v : list (option AccessLogs)) : ResourceData -> ResourceData :=
  withNew (fun c =>
    {| arn := arn c; arn_suffix := arn_suffix c; name := name c;
       name_prefix := name_prefix c; internal := internal c;
       load_balancer_type := load_balancer_type c;
       security_groups := security_groups c; subnets := subnets c;
       subnet_mapping := subnet_mapping c; access_logs := v;
       enable_deletion_protection := enable_deletion_protection c;
       idle_timeout := idle_timeout c;
       drop_invalid_header_fields := drop_invalid_header_fields c;
       enable_cross_zone_load_balancing := enable_cross_zone_load_balancing c;
       enable_http2 := enable_http2 c; ip_address_type := ip_address_type c;
       customer_owned_ipv4_pool := customer_owned_ipv4_pool c; vpc_id := vpc_id c;
       zone_id := zone_id c; dns_name := dns_name c; tags := tags c |}).
Definition Set_enable_deletion_protection (v : bool) : ResourceData -> ResourceData :=
  withNew (fun c =>
    {| arn := arn c; arn_suffix := arn_suffix c; name := name c;
       name_prefix := name_prefix c; internal := internal c;
       load_balancer_type := load_balancer_type c;
       security_groups := security_groups c; subnets := subnets c;
       subnet_mapping := subnet_mapping c; access_logs := access_logs c;
       enable_deletion_protection := v; idle_timeout := idle_timeout c;
       drop_invalid_header_fields := drop_invalid_header_fields c;
       enable_cross_zone_load_balancing := enable_cross_zone_load_balancing c;
       enable_http2 := enable_http2 c; ip_address_type := ip_address_type c;
       customer_owned_ipv4_pool := customer_owned_ipv4_pool c; vpc_id := vpc_id c;
       zone_id := zone_id c; dns_name := dns_name c; tags := tags c |}).
Definition Set_idle_timeout (v : Z) : ResourceData -> ResourceData :=
  withNew (fun c =>
    {| arn := arn c; arn_suffix := arn_suffix c; name := name c;
       name_prefix := name_prefix c; internal := internal c;
       load_balancer_type := load_balancer_type c;
       security_groups := security_groups c; subnets := subnets c;
       subnet_mapping := subnet_mapping c; access_logs := access_logs c;
       enable_deletion_protection := enable_deletion_protection c; idle_timeout := v;
       drop_invalid_header_fields := drop_invalid_header_fields c;
       enable_cross_zone_load_balancing := enable_cross_zone_load_balancing c;
       enable_http2 := enable_http2 c; ip_address_type := ip_address_type c;
       customer_owned_ipv4_pool := customer_owned_ipv4_pool c; vpc_id := vpc_id c;
       zone_id := zone_id c; dns_name := dns_name c; tags := tags c |}).
Definition Set_drop_invalid_header_fields (v : bool) : ResourceData -> ResourceData :=
  withNew (fun c =>
    {| arn := arn c; arn_suffix := arn_suffix c; name := name c;
       name_prefix := name_prefix c; internal := internal c;
       load_balancer_type := load_balancer_type c;
       security_groups := security_groups c; subnets := subnets c;
       subnet_mapping := subnet_mapping c; access_logs := access_logs c;
       enable_deletion_protection := enable_deletion_protection c;
       idle_timeout := idle_timeout c; drop_invalid_header_fields := v;
       enable_cross_zone_load_balancing := enable_cross_zone_load_balancing c;
       enable_http2 := enable_http2 c; ip_address_type := ip_address_type c;
       customer_owned_ipv4_pool := customer_owned_ipv4_pool c; vpc_id := vpc_id c;
       zone_id := zone_id c; dns_name := dns_name c; tags := tags c |}).
Definition Set_enable_cross_zone_load_balancing (v : bool) : ResourceData -> ResourceData :=
  withNew (fun c =>
    {| arn := arn c; arn_suffix := arn_suffix c; name := name c;
       name_prefix := name_prefix c; internal := internal c;
       load_balancer_type := load_balancer_type c;
       security_groups := security_groups c; subnets := subnets c;
       subnet_mapping := subnet_mapping c; access_logs := access_logs c;
       enable_deletion_protection := enable_deletion_protection c;
       idle_timeout := idle_timeout c;
       drop_invalid_header_fields := drop_invalid_header_fields c;
       enable_cross_zone_load_balancing := v; enable_http2 := enable_http2 c;
       ip_address_type := ip_address_type c;
       customer_owned_ipv4_pool := customer_owned_ipv4_pool c; vpc_id := vpc_id c;
       zone_id := zone_id c; dns_name := dns_name c; tags := tags c |}).
Definition Set_enable_http2 (v : bool) : ResourceData -> ResourceData :=
  withNew (fun c =>
    {| arn := arn c; arn_suffix := arn_suffix c; name := name c;
       name_prefix := name_prefix c; internal := internal c;
       load_balancer_type := load_balancer_type c;
       security_groups := security_groups c; subnets := subnets c;
       subnet_mapping := subnet_mapping c; access_logs := access_logs c;
       enable_deletion_protection := enable_deletion_protection c;
       idle_timeout := idle_timeout c;
       drop_invalid_header_fields := drop_invalid_header_fields c;
       enable_cross_zone_load_balancing := enable_cross_zone_load_balancing c;
       enable_http2 := v; ip_address_type := ip_address_type c;
       customer_owned_ipv4_pool := customer_owned_ipv4_pool c; vpc_id := vpc_id c;
       zone_id := zone_id c; dns_name := dns_name c; tags := tags c |}).
Definition Set_ip_address_type (v : string) : ResourceData -> ResourceData :=
  withNew (fun c =>
    {| arn := arn c; arn_suffix := arn_suffix c; name := name c;
       name_prefix := name_prefix c; internal := internal c;
       load_balancer_type := load_balancer_type c;
       security_groups := security_groups c; subnets := subnets c;
       subnet_mapping := subnet_mapping c; access_logs := access_logs c;
       enable_deletion_protection := enable_deletion_protection c;
       idle_timeout := idle_timeout c;
       drop_invalid_header_fields := drop_invalid_header_fields c;
       enable_cross_zone_load_balancing := enable_cross_zone_load_balancing c;
       enable_http2 := enable_http2 c; ip_address_type := v;
       customer_owned_ipv4_pool := customer_owned_ipv4_pool c; vpc_id := vpc_id c;
       zone_id := zone_id c; dns_name := dns_name c; tags := tags c |}).
Definition Set_customer_owned_ipv4_pool (v : string) : ResourceData -> ResourceData :=
  withNew (fun c =>
    {| arn := arn c; arn_suffix := arn_suffix c; name := name c;
       name_prefix := name_prefix c; internal := internal c;
       load_balancer_type := load_balancer_type c;
       security_groups := security_groups c; subnets := subnets c;
       subnet_mapping := subnet_mapping c; access_logs := access_logs c;
       enable_deletion_protection := enable_deletion_protection c;
       idle_timeout := idle_timeout c;
       drop_invalid_header_fields := drop_invalid_header_fields c;
       enable_cross_zone_load_balancing := enable_cross_zone_load_balancing c;
       enable_http2 := enable_http2 c; ip_address_type := ip_address_type c;
       customer_owned_ipv4_pool := v; vpc_id := vpc_id c; zone_id := zone_id c;
       dns_name := dns_name c; tags := tags c |}).
Definition Set_vpc_id (v : string) : ResourceData -> ResourceData :=
  withNew (fun c =>
    {| arn := arn c; arn_suffix := arn_suffix c; name := name c;
       name_prefix := name_prefix c; internal := internal c;
       load_balancer_type := load_balancer_type c;
       security_groups := security_groups c; subnets := subnets c;
       subnet_mapping := subnet_mapping c; access_logs := access_logs c;
       enable_deletion_protection := enable_deletion_protection c;
       idle_timeout := idle_timeout c;
       drop_invalid_header_fields := drop_invalid_header_fields c;
       enable_cross_zone_load_balancing := enable_cross_zone_load_balancing c;
       enable_http2 := enable_http2 c; ip_address_type := ip_address_type c;
       customer_owned_ipv4_pool := customer_owned_ipv4_pool c; vpc_id := v;
       zone_id := zone_id c; dns_name := dns_name c; tags := tags c |}).
Definition Set_zone_id (v : string) : ResourceData -> ResourceData :=
  withNew (fun c =>
    {| arn := arn c; arn_suffix := arn_suffix c; name := name c;
       name_prefix := name_prefix c; internal := internal c;
       load_balancer_type := load_balancer_type c;
       security_groups := security_groups c; subnets := subnets c;
       subnet_mapping := subnet_mapping c; access_logs := access_logs c;
       enable_deletion_protection := enable_deletion_protection c;
       idle_timeout := idle_timeout c;
       drop_invalid_header_fields := drop_invalid_header_fields c;
       enable_cross_zone_load_balancing := enable_cross_zone_load_balancing c;
       enable_http2 := enable_http2 c; ip_address_type := ip_address_type c;
       customer_owned_ipv4_pool := customer_owned_ipv4_pool c; vpc_id := vpc_id c;
       zone_id := v; dns_name := dns_name c; tags := tags c |}).
Definition Set_dns_name (v : string) : ResourceData -> ResourceData :=
  withNew (fun c =>
    {| arn := arn c; arn_suffix := arn_suffix c; name := name c;
       name_prefix := name_prefix c; internal := internal c;
       load_balancer_type := load_balancer_type c;
       security_groups := security_groups c; subnets := subnets c;
       subnet_mapping := subnet_mapping c; access_logs := access_logs c;
       enable_deletion_protection := enable_deletion_protection c;
       idle_timeout := idle_timeout c;
       drop_invalid_header_fields := drop_invalid_header_fields c;
       enable_cross_zone_load_balancing := enable_cross_zone_load_balancing c;
       enable_http2 := enable_http2 c; ip_address_type := ip_address_type c;
       customer_owned_ipv4_pool := customer_owned_ipv4_pool c; vpc_id := vpc_id c;
       zone_id := zone_id c; dns_name := v; tags := tags c |}).
Definition Set_tags (v : gmap string string) : ResourceData -> ResourceData :=
  withNew (fun c =>
    {| arn := arn c; arn_suffix := arn_suffix c; name := name c;
       name_prefix := name_prefix c; internal := internal c;
       load_balancer_type := load_balancer_type c;
       security_groups := security_groups c; subnets := subnets c;
       subnet_mapping := subnet_mapping c; access_logs := access_logs c;
       enable_deletion_protection := enable_deletion_protection c;
       idle_timeout := idle_timeout c;
       drop_invalid_header_fields := drop_invalid_header_fields c;
       enable_cross_zone_load_balancing := enable_cross_zone_load_balancing c;
       enable_http2 := enable_http2 c; ip_address_type := ip_address_type c;
       customer_owned_ipv4_pool := customer_owned_ipv4_pool c; vpc_id := vpc_id c;
       zone_id := zone_id c; dns_name := dns_name c; tags := v |}).

(* ===================================================================== *)
(** * [schema.Set] of the plugin SDK *)
(* ===================================================================== *)

(** A [schema.Set] files every element under a key, the decimal text of the
    absolute value of the code that the hash function [F] of the schema
    gives it; an element whose key is taken is not added.  [List] gives
    the elements in the order of their keys, compared as texts. *)
Module schema.
Section SetOf.
Context {A : Type} (F : A -> Z).

(** the method [hash] of the set *)
Definition hash (item : A) : string := strconv.FormatInt (Z.abs (F item)).

(** the method [Add] *)
Definition Add (item : A) (m : gmap string A) : gmap string A :=
  match m !! hash item with
  | Some _ => m
  | None => <[hash item := item]> m
  end.

(** The set that [d.Set] builds from a list: the items added in order. *)
Definition NewSet (items : list A) : gmap string A :=
  foldl (fun m item => Add item m) ∅ items.

(** the method [List] *)
Definition List (m : gmap string A) : list A :=
  map snd (merge_sort (fun p q : string * A => String.leb (fst p) (fst q)) (map_to_list m)).

End SetOf.
End schema.

Arguments schema.NewSet : simpl never.
Arguments schema.List : simpl never.

(* ===================================================================== *)
(** * Flattening the remote record *)
(* ===================================================================== *)

(** [flattenSubnetsFromAvailabilityZones]: the subnet id of every zone. *)
Fixpoint flattenSubnetsFromAvailabilityZones
    (availabilityZones : list elbv2.AvailabilityZone) : list string :=
  match availabilityZones with
  | [] => []
  | az :: rest =>
      aws.StringValue (elbv2.SubnetId az) :: flattenSubnetsFromAvailabilityZones rest
  end.

(** The inner loop of [flattenSubnetMappingsFromAvailabilityZones]: every
    address record assigns the three address keys of [m]. *)
Fixpoint flattenLoadBalancerAddresses (addresses : list elbv2.LoadBalancerAddress)
    (m : gmap string string) : gmap string string :=
  match addresses with
  | [] => m
  | loadBalancerAddress :: rest =>
      let m := <["allocation_id" := aws.StringValue (elbv2.AllocationId loadBalancerAddress)]> m in
      let m := <["private_ipv4_address" := aws.StringValue (elbv2.PrivateIPv4Address loadBalancerAddress)]> m in
      let m := <["ipv6_address" := aws.StringValue (elbv2.IPv6Address loadBalancerAddress)]> m in
      flattenLoadBalancerAddresses rest m
  end.

(** [flattenSubnetMappingsFromAvailabilityZones]: one map per zone (all the
    values it stores are strings). *)
Fixpoint flattenSubnetMappingsFromAvailabilityZones
    (availabilityZones : list elbv2.AvailabilityZone) : list (gmap string string) :=
  match availabilityZones with
  | [] => []
  | availabilityZone :: rest =>
      let m : gmap string string := ∅ in
      let m := <["subnet_id" := aws.StringValue (elbv2.SubnetId availabilityZone)]> m in
      let m := <["outpost_id" := aws.StringValue (elbv2.OutpostId availabilityZone)]> m in
      let m := flattenLoadBalancerAddresses (elbv2.LoadBalancerAddresses availabilityZone) m in
      m :: flattenSubnetMappingsFromAvailabilityZones rest
  end.

(** What [d.Set("subnet_mapping", l)] stores for one map of [l]: the
    plugin SDK writes every key of the nested schema, and a key the map
    lacks reads back as the zero value of its type, the empty string. *)
Definition subnetMappingOfMap (m : gmap string string) : SubnetMappingConfig :=
  {| subnet_id := default "" (m !! "subnet_id");
     ipv6_address := default "" (m !! "ipv6_address");
     outpost_id := default "" (m !! "outpost_id");
     allocation_id := default "" (m !! "allocation_id");
     private_ipv4_address := default "" (m !! "private_ipv4_address") |}.

(** The loop of [flattenAwsLbResource] over the attributes the remote side
    describes: a switch on the key, keys it does not know are skipped; the
    loop stops at an idle timeout that is not a number. *)
Fixpoint flattenAttributes (attributes : list elbv2.LoadBalancerAttribute)
    (accessLogMap : AccessLogs) (d : ResourceData)
    : ResourceData * result AccessLogs :=
  match attributes with
  | [] => (d, Ok accessLogMap)
  | attr :: rest =>
      let key := aws.StringValue (elbv2.Key attr) in
      let value := aws.StringValue (elbv2.Value attr) in
      if String.eqb key "access_logs.s3.enabled" then
        flattenAttributes rest
          {| bucket := bucket accessLogMap; prefix := prefix accessLogMap;
             enabled := String.eqb value "true" |} d
      else if String.eqb key "access_logs.s3.bucket" then
        flattenAttributes rest
          {| bucket := value; prefix := prefix accessLogMap;
             enabled := enabled accessLogMap |} d
      else if String.eqb key "access_logs.s3.prefix" then
        flattenAttributes rest
          {| bucket := bucket accessLogMap; prefix := value;
             enabled := enabled accessLogMap |} d
      else if String.eqb key "idle_timeout.timeout_seconds" then
        match strconv.Atoi value with
        | Err err => (d, Err (Errorf "Error parsing ALB timeout: %s" [] (Some err)))
        | Ok timeout => flattenAttributes rest accessLogMap (Set_idle_timeout timeout d)
        end
      else if String.eqb key "routing.http.drop_invalid_header_fields.enabled" then
        flattenAttributes rest accessLogMap
          (Set_drop_invalid_header_fields (String.eqb value "true") d)
      else if String.eqb key "deletion_protection.enabled" then
        flattenAttributes rest accessLogMap
          (Set_enable_deletion_protection (String.eqb value "true") d)
      else if String.eqb key "routing.http2.enabled" then
        flattenAttributes rest accessLogMap (Set_enable_http2 (String.eqb value "true") d)
      else if String.eqb key "load_balancing.cross_zone.enabled" then
        flattenAttributes rest accessLogMap
          (Set_enable_cross_zone_load_balancing (String.eqb value "true") d)
      else flattenAttributes rest accessLogMap d
  end.

(* ===================================================================== *)
(** * The attribute list Update sends *)
(* ===================================================================== *)

Definition attribute (key value : string) : elbv2.LoadBalancerAttribute :=
  {| elbv2.Key := Some key; elbv2.Value := Some value |}.

(** The [access_logs] block of [resourceAwsLbUpdate]. *)
Definition accessLogsAttributes (d : ResourceData) : list elbv2.LoadBalancerAttribute :=
  if HasChange access_logs d then
    match Get access_logs d with
    | [Some log] =>
        attribute "access_logs.s3.enabled" (strconv.FormatBool (enabled log))
        :: (if enabled log then
              [attribute "access_logs.s3.bucket" (bucket log);
               attribute "access_logs.s3.prefix" (prefix log)]
            else [])
    | _ => [attribute "access_logs.s3.enabled" "false"]
    end
  else [].

(** The [switch] on the load balancer type. *)
Definition typeAttributes (d : ResourceData) : list elbv2.LoadBalancerAttribute :=
  let lbType := Get load_balancer_type d in
  if String.eqb lbType elbv2.LoadBalancerTypeEnumApplication then
    (if HasChange idle_timeout d || IsNewResource d
     then [attribute "idle_timeout.timeout_seconds" (strconv.FormatInt (Get idle_timeout d))]
     else [])
    ++ (if HasChange enable_http2 d || IsNewResource d
        then [attribute "routing.http2.enabled" (strconv.FormatBool (Get enable_http2 d))]
        else [])
    ++ (if HasChange drop_invalid_header_fields d || IsNewResource d
        then [attribute "routing.http.drop_invalid_header_fields.enabled"
                (strconv.FormatBool (Get drop_invalid_header_fields d))]
        else [])
  else if String.eqb lbType elbv2.LoadBalancerTypeEnumGateway
          || String.eqb lbType elbv2.LoadBalancerTypeEnumNetwork then
    (if HasChange enable_cross_zone_load_balancing d || IsNewResource d
     then [attribute "load_balancing.cross_zone.enabled"
             (strconv.FormatBool (Get enable_cross_zone_load_balancing d))]
     else [])
  else [].

Definition deletionProtectionAttributes (d : ResourceData) : list elbv2.LoadBalancerAttribute :=
  if HasChange enable_deletion_protection d || IsNewResource d
  then [attribute "deletion_protection.enabled"
          (strconv.FormatBool (Get enable_deletion_protection d))]
  else [].

(** The slice [attributes] of [resourceAwsLbUpdate] when it reaches the
    test [len(attributes) != 0]. *)
Definition updateAttributes (d : ResourceData) : list elbv2.LoadBalancerAttribute :=
  (accessLogsAttributes d ++ typeAttributes d ++ deletionProtectionAttributes d)%list.

(* ===================================================================== *)
(** * [schema.ResourceDiff] and the CustomizeDiff function *)
(* ===================================================================== *)

(** The plan entry [customizeDiffNLBSubnets] works on: the identity (empty
    for a resource that does not exist yet), the planned type, the old and
    the new value of [subnets] as [diff.GetChange] returns them (nil is
    [None]), and the keys marked as forcing a new resource. *)
Record ResourceDiff : Type := {
  diff_Id : string;
  diff_load_balancer_type : string;
  diff_subnets_old : option (gset string);
  diff_subnets_new : option (gset string);
  forcedNewKeys : list string
}.

(** [diff.SetNew("subnets", n)].  The plugin SDK refuses keys that are not
    [Computed]; [subnets] is. *)
Definition SetNew_subnets (n : gset string) (diff : ResourceDiff) : result ResourceDiff :=
  Ok {| diff_Id := diff_Id diff;
        diff_load_balancer_type := diff_load_balancer_type diff;
        diff_subnets_old := diff_subnets_old diff;
        diff_subnets_new := Some n;
        forcedNewKeys := forcedNewKeys diff |}.

(** [diff.ForceNew("subnets")].  The plugin SDK refuses a key without a
    change, and otherwise records the key. *)
Definition ForceNew_subnets (diff : ResourceDiff) : result ResourceDiff :=
  if decide (default ∅ (diff_subnets_old diff) = default ∅ (diff_subnets_new diff))
  then Err (Errorf "ForceNew: No changes for %s" ["subnets"] None)
  else Ok {| diff_Id := diff_Id diff;
             diff_load_balancer_type := diff_load_balancer_type diff;
             diff_subnets_old := diff_subnets_old diff;
             diff_subnets_new := diff_subnets_new diff;
             forcedNewKeys := "subnets" :: forcedNewKeys diff |}.

(** Whether the plan replaces the resource because of [key]. *)
Definition RequiresNew (key : string) (diff : ResourceDiff) : bool :=
  bool_decide (key ∈ forcedNewKeys diff).

Definition customizeDiffNLBSubnets (diff : ResourceDiff) : ResourceDiff * option error :=
  if negb (String.eqb (diff_load_balancer_type diff) elbv2.LoadBalancerTypeEnumNetwork)
  then (diff, None)
  else if String.eqb (diff_Id diff) ""
  then (diff, None)
  else
    let os := default ∅ (diff_subnets_old diff) in
    let ns := default ∅ (diff_subnets_new diff) in
    let remove := elements (os ∖ ns) in
    let add := elements (ns ∖ os) in
    if (0 <? length remove)%nat || (0 <? length add)%nat then
      match SetNew_subnets ns diff with
      | Err err => (diff, Some err)
      | Ok diff =>
          match ForceNew_subnets diff with
          | Err err => (diff, Some err)
          | Ok diff => (diff, None)
          end
      end
    else (diff, None).

(* ===================================================================== *)
(** * Calls to the outside, and programs over them *)
(* ===================================================================== *)

(** What an operation asks of the outside: the calls to the load balancer
    and network interface APIs, the helpers of the provider that wrap them
    (tag listing and update, the wait for the active state, detaching and
    deleting network interfaces), the generated unique name, and the lines
    logged at WARN level.  The index is the type of the answer. *)
Inductive apiE : Type -> Type :=
| PrefixedUniqueId (prefix : string) : apiE string
| CreateLoadBalancer (input : elbv2.CreateLoadBalancerInput)
    : apiE (result (list elbv2.LoadBalancer))
| LoadBalancerActive (arn : string) (timeout : Z) : apiE (option error)
| DescribeLoadBalancers (arns : list string) : apiE (result (list elbv2.LoadBalancer))
| Elbv2ListTags (arn : string) : apiE (result (gmap string string))
| DescribeLoadBalancerAttributes (arn : string)
    : apiE (result (list elbv2.LoadBalancerAttribute))
| Elbv2UpdateTags (arn : string) (o n : gmap string string) : apiE (option error)
| ModifyLoadBalancerAttributes (arn : string)
    (attributes : list elbv2.LoadBalancerAttribute) : apiE (option error)
| SetSecurityGroups (arn : string) (securityGroups : list string) : apiE (option error)
| SetSubnets (arn : string) (subnets : list string) : apiE (option error)
| SetIpAddressType (arn : string) (ipAddressType : string) : apiE (option error)
| DeleteLoadBalancer (arn : string) : apiE (option error)
| DescribeNetworkInterfaces (filters : list Filter)
    : apiE (result (list NetworkInterface))
| detachNetworkInterfaces (nis : list NetworkInterface) : apiE (option error)
| deleteNetworkInterfaces (nis : list NetworkInterface) : apiE (option error)
| logWarn (format : string) (args : list string) (err : option error) : apiE unit.

(** A program: it returns, or makes a call and goes on with the answer. *)
Inductive prog (R : Type) : Type :=
| Ret (r : R)
| Vis {X : Type} (e : apiE X) (k : X -> prog R).
Arguments Ret {R} r.
Arguments Vis {R X} e k.

Fixpoint bind {A B : Type} (m : prog A) (f : A -> prog B) : prog B :=
  match m with
  | Ret a => f a
  | Vis e k => Vis e (fun x => bind (k x) f)
  end.

Definition call {X : Type} (e : apiE X) : prog X := Vis e Ret.

Notation "x <- m ;; k" := (bind m (fun x => k))
  (at level 100, m at next level, right associativity, only parsing).
(** [if c { err := m }]: the error of a step that is skipped is nil. *)
Definition when (c : bool) (m : prog (option error)) : prog (option error) :=
  if c then m else Ret None.

(** One call as it happened: the request and the answer. *)
Inductive called : Type :=
| Called {X : Type} (e : apiE X) (x : X).

(** The outside: a state and, for every call, the answer and the next
    state.  Nothing is assumed of it. *)
Record Env : Type := {
  World : Type;
  respond : forall X : Type, apiE X -> World -> X * World
}.

(** Running a program against the outside: the result, the calls made in
    order, and the state the outside is left in. *)
Fixpoint run {R : Type} (env : Env) (m : prog R) (w : World env)
    : R * list called * World env :=
  match m with
  | Ret r => (r, [], w)
  | Vis e k =>
      let '(x, w1) := respond env _ e w in
      let '(r, calls, w2) := run env (k x) w1 in
      (r, Called e x :: calls, w2)
  end.

(** The calls that change the remote side. *)
Definition isMutation (c : called) : bool :=
  match c with
  | Called e _ =>
      match e with
      | CreateLoadBalancer _ | Elbv2UpdateTags _ _ _ | ModifyLoadBalancerAttributes _ _
      | SetSecurityGroups _ _ | SetSubnets _ _ | SetIpAddressType _ _
      | DeleteLoadBalancer _ | detachNetworkInterfaces _ | deleteNetworkInterfaces _ => true
      | _ => false
      end
  end.

Definition isSetSubnets (c : called) : bool :=
  match c with
  | Called (SetSubnets _ _) _ => true
  | _ => false
  end.

(* ===================================================================== *)
(** * The lifecycle operations *)
(* ===================================================================== *)

(** [resource.RetryError]: the two ways the function given to
    [resource.Retry] reports an error. *)
Inductive RetryError : Type :=
| RetryableError (err : error)
| NonRetryableError (err : error).

(** [expandStringSet]: the members of a set as a slice. *)
Definition expandStringSet (s : gset string) : list string := elements s.

(** One entry of [elbOpts.SubnetMappings] in [resourceAwsLbCreate]. *)
Definition expandSubnetMapping (subnetMap : SubnetMappingConfig) : elbv2.SubnetMapping :=
  let nonEmpty (s : string) := if String.eqb s "" then None else Some s in
  {| elbv2.sm_SubnetId := Some (subnet_id subnetMap);
     elbv2.sm_AllocationId := nonEmpty (allocation_id subnetMap);
     elbv2.sm_PrivateIPv4Address := nonEmpty (private_ipv4_address subnetMap);
     elbv2.sm_IPv6Address := nonEmpty (ipv6_address subnetMap) |}.

(** The request [elbOpts] that [resourceAwsLbCreate] builds. *)
Definition createLoadBalancerInput (name : string) (tags : gmap string string)
    (d : ResourceData) : elbv2.CreateLoadBalancerInput :=
  {| elbv2.in_Name := Some name;
     elbv2.in_Type := Some (Get load_balancer_type d);
     elbv2.in_Tags := map_to_list tags;
     elbv2.in_Scheme :=
       match GetOk_bool internal d with
       | Some _ => Some "internal"
       | None => None
       end;
     elbv2.in_SecurityGroups :=
       match GetOk_set security_groups d with
       | Some v => expandStringSet v
       | None => []
       end;
     elbv2.in_Subnets :=
       match GetOk_set subnets d with
       | Some v => expandStringSet v
       | None => []
       end;
     elbv2.in_SubnetMappings :=
       match GetOk_list subnet_mapping d with
       | Some rawMappings => map expandSubnetMapping rawMappings
       | None => []
       end;
     elbv2.in_IpAddressType := GetOk_string ip_address_type d;
     elbv2.in_CustomerOwnedIpv4Pool := GetOk_string customer_owned_ipv4_pool d |}.

Section Provider.

(** Helpers of the provider and of the plugin SDK that the file uses and
    does not define.  Nothing is assumed of them. *)

(** [isLoadBalancerNotFound(err)] *)
Variable isLoadBalancerNotFound : error -> bool.
(** [isResourceTimeoutError(err)] *)
Variable isResourceTimeoutError : error -> bool.
(** [keyvaluetags]: [IgnoreAws()], and [IgnoreConfig] of the client's
    configuration. *)
Variable IgnoreAws : gmap string string -> gmap string string.
Variable IgnoreConfig : gmap string string -> gmap string string.
(** [resource.Retry(5*time.Minute, f)]: how many calls of [f] fit before
    the deadline, and the error returned at the deadline, given the last
    retryable error. *)
Variable polls : nat.
Variable retryDeadline : option error -> error.
(** [hashcode.String(s)], the hash of a text. *)
Variable hashcode_String : string -> Z.

(** The [Set] function of the [subnet_mapping] schema. *)
Definition subnetMappingHash (m : SubnetMappingConfig) : Z :=
  hashcode_String (subnetMappingHashInput m).

(** The part of [flattenAwsLbResource] up to the tag listing: the [d.Set]
    calls that copy the fields of the remote record ([flattenStringList]
    is the list of the pointed-to strings).  A [d.Set] of a value of the
    schema's type does not fail, so the two error returns of this part are
    not reached.  [subnet_mapping] is a set: [d.Set] adds the records of
    the list one by one to a set with the [Set] function of its schema, so
    a record whose key is that of an earlier record is dropped. *)
Definition flattenLoadBalancer (lb : elbv2.LoadBalancer) (d : ResourceData) : ResourceData :=
  let d := Set_arn (aws.StringValue (elbv2.LoadBalancerArn lb)) d in
  let d := Set_arn_suffix (lbSuffixFromARN (elbv2.LoadBalancerArn lb)) d in
  let d := Set_name (aws.StringValue (elbv2.LoadBalancerName lb)) d in
  let d := Set_internal
             (match elbv2.Scheme lb with
              | Some s => String.eqb s "internal"
              | None => false
              end) d in
  let d := Set_security_groups
             (list_to_set (map aws.StringValue (elbv2.SecurityGroups lb))) d in
  let d := Set_vpc_id (aws.StringValue (elbv2.VpcId lb)) d in
  let d := Set_zone_id (aws.StringValue (elbv2.CanonicalHostedZoneId lb)) d in
  let d := Set_dns_name (aws.StringValue (elbv2.DNSName lb)) d in
  let d := Set_ip_address_type (aws.StringValue (elbv2.IpAddressType lb)) d in
  let d := Set_load_balancer_type (aws.StringValue (elbv2.Type_ lb)) d in
  let d := Set_customer_owned_ipv4_pool (aws.StringValue (elbv2.CustomerOwnedIpv4Pool lb)) d in
  let d := Set_subnets
             (list_to_set (flattenSubnetsFromAvailabilityZones (elbv2.AvailabilityZones lb))) d in
  let d := Set_subnet_mapping
             (schema.List
                (schema.NewSet subnetMappingHash
                   (map subnetMappingOfMap
                      (flattenSubnetMappingsFromAvailabilityZones
                         (elbv2.AvailabilityZones lb))))) d in
  d.

(** [resource.Retry]: call [f] again while it reports a retryable error
    and the deadline has not passed. *)
Fixpoint Retry (n : nat) (f : prog (option RetryError)) (last : option error)
    : prog (option error) :=
  match n with
  | O => Ret (Some (retryDeadline last))
  | S n' =>
      r <- f;;
      match r with
      | None => Ret None
      | Some (NonRetryableError err) => Ret (Some err)
      | Some (RetryableError err) => Retry n' f (Some err)
      end
  end.

Definition flattenAwsLbResource (d : ResourceData) (lb : elbv2.LoadBalancer)
    : prog (ResourceData * option error) :=
  let d := flattenLoadBalancer lb d in
  tags <- call (Elbv2ListTags (Id d));;
  match tags with
  | Err err => Ret (d, Some (Errorf "error listing tags for (%s): %s" [Id d] (Some err)))
  | Ok tags =>
      let d := Set_tags (IgnoreConfig (IgnoreAws tags)) d in
      attributesResp <- call (DescribeLoadBalancerAttributes (Id d));;
      match attributesResp with
      | Err err => Ret (d, Some (Errorf "Error retrieving LB Attributes: %s" [] (Some err)))
      | Ok attributes =>
          let accessLogMap := {| bucket := ""; prefix := ""; enabled := false |} in
          match flattenAttributes attributes accessLogMap d with
          | (d, Err err) => Ret (d, Some err)
          | (d, Ok accessLogMap) => Ret (Set_access_logs [Some accessLogMap] d, None)
          end
      end
  end.

Definition resourceAwsLbRead (d : ResourceData) : prog (ResourceData * option error) :=
  describeResp <- call (DescribeLoadBalancers [Id d]);;
  match describeResp with
  | Err err =>
      if isLoadBalancerNotFound err then
        _ <- call (logWarn "[WARN] ALB %s not found in AWS, removing from state" [Id d] None);;
        Ret (SetId "" d, None)
      else Ret (d, Some (Errorf "Error retrieving ALB: %s" [] (Some err)))
  | Ok [lb] => flattenAwsLbResource d lb
  | Ok _ => Ret (d, Some (Errorf "Unable to find ALB: %#v" [] None))
  end.

Definition resourceAwsLbUpdate (d : ResourceData) : prog (ResourceData * option error) :=
  err <- when (HasChange tags d)
           (call (Elbv2UpdateTags (Id d) (tags (old d)) (Get tags d)));;
  match err with
  | Some err => Ret (d, Some (Errorf "error updating ALB (%s) tags: %s" [Id d] (Some err)))
  | None =>
  let attributes := updateAttributes d in
  err <- when (negb (length attributes =? 0)%nat)
           (call (ModifyLoadBalancerAttributes (Id d) attributes));;
  match err with
  | Some err => Ret (d, Some (Errorf "Failure configuring LB attributes: %s" [] (Some err)))
  | None =>
  err <- when (HasChange security_groups d)
           (call (SetSecurityGroups (Id d) (expandStringSet (Get security_groups d))));;
  match err with
  | Some err => Ret (d, Some (Errorf "Failure Setting LB Security Groups: %s" [] (Some err)))
  | None =>
  err <- when (HasChange subnets d && negb (IsNewResource d))
           (call (SetSubnets (Id d) (expandStringSet (Get subnets d))));;
  match err with
  | Some err => Ret (d, Some (Errorf "Failure Setting LB Subnets: %s" [] (Some err)))
  | None =>
  err <- when (HasChange ip_address_type d)
           (call (SetIpAddressType (Id d) (Get ip_address_type d)));;
  match err with
  | Some err => Ret (d, Some (Errorf "Failure Setting LB IP Address Type: %s" [] (Some err)))
  | None =>
  err <- call (LoadBalancerActive (Id d) (TimeoutUpdate (Timeout d)));;
  match err with
  | Some err =>
      Ret (d, Some (Errorf "error waiting for Load Balancer (%s) to be active: %w"
                      [Get name d] (Some err)))
  | None => resourceAwsLbRead d
  end end end end end end.

Definition resourceAwsLbCreate (d : ResourceData) : prog (ResourceData * option error) :=
  let tags := IgnoreAws (Get tags d) in
  name' <- match GetOk_string name d with
          | Some v => Ret v
          | None =>
              match GetOk_string name_prefix d with
              | Some v => call (PrefixedUniqueId v)
              | None => call (PrefixedUniqueId "tf-lb-")
              end
          end;;
  let d := Set_name name' d in
  let elbOpts := createLoadBalancerInput name' tags d in
  resp <- call (CreateLoadBalancer elbOpts);;
  match resp with
  | Err err =>
      Ret (d, Some (Errorf "error creating %s Load Balancer: %w"
                      [Get load_balancer_type d] (Some err)))
  | Ok [lb] =>
      let d := SetId (aws.StringValue (elbv2.LoadBalancerArn lb)) d in
      err <- call (LoadBalancerActive (aws.StringValue (elbv2.LoadBalancerArn lb))
                     (TimeoutCreate (Timeout d)));;
      match err with
      | Some err =>
          Ret (d, Some (Errorf "error waiting for Load Balancer (%s) to be active: %w"
                          [Get name d] (Some err)))
      | None => resourceAwsLbUpdate d
      end
  | Ok _ =>
      Ret (d, Some (Errorf "no load balancers returned following creation of %s"
                      [Get name d] None))
  end.

Definition cleanupLBNetworkInterfaces (lbArn : string) : prog (option error) :=
  match getLbNameFromArn lbArn with
  | Err err => Ret (Some err)
  | Ok name =>
      out <- call (DescribeNetworkInterfaces
                     [("attachment.instance-owner-id", ["amazon-elb"]);
                      ("description", ["ELB " ++ name])]);;
      match out with
      | Err err => Ret (Some err)
      | Ok networkInterfaces =>
          if (length networkInterfaces =? 0)%nat then Ret None
          else
            err <- call (detachNetworkInterfaces networkInterfaces);;
            match err with
            | Some err => Ret (Some err)
            | None => call (deleteNetworkInterfaces networkInterfaces)
            end
      end
  end.

Definition waitForNLBNetworkInterfacesToDetach (lbArn : string) : prog (option error) :=
  match getLbNameFromArn lbArn with
  | Err err => Ret (Some err)
  | Ok name =>
      let input :=
        [("attachment.instance-owner-id", ["amazon-aws"]);
         ("attachment.attachment-id", ["ela-attach-*"]);
         ("description", ["ELB " ++ name])] in
      err <- Retry polls
               (out <- call (DescribeNetworkInterfaces input);;
                match out with
                | Err err => Ret (Some (NonRetryableError err))
                | Ok networkInterfaces =>
                    let niCount := length networkInterfaces in
                    if (0 <? niCount)%nat then
                      Ret (Some (RetryableError
                                   (Errorf "Waiting for %d ENIs of %q to clean up"
                                      [strconv.FormatInt (Z.of_nat niCount); lbArn] None)))
                    else Ret None
                end)
               None;;
      let afterDeadline (k : option error -> prog (option error)) :=
        match err with
        | Some e =>
            if isResourceTimeoutError e then
              out <- call (DescribeNetworkInterfaces input);;
              match out with
              | Err err =>
                  Ret (Some (Errorf "Error describing network inferfaces: %s" [] (Some err)))
              | Ok networkInterfaces =>
                  let niCount := length networkInterfaces in
                  if (0 <? niCount)%nat then
                    Ret (Some (Errorf "Error waiting for %d ENIs of %q to clean up"
                                 [strconv.FormatInt (Z.of_nat niCount); lbArn] None))
                  else k None
              end
            else k err
        | None => k err
        end in
      afterDeadline (fun err =>
        match err with
        | Some err =>
            Ret (Some (Errorf "Error describing network inferfaces: %s" [] (Some err)))
        | None => Ret None
        end)
  end.

Definition resourceAwsLbDelete (d : ResourceData) : prog (option error) :=
  err <- call (DeleteLoadBalancer (Id d));;
  match err with
  | Some err => Ret (Some (Errorf "Error deleting LB: %s" [] (Some err)))
  | None =>
      err <- cleanupLBNetworkInterfaces (Id d);;
      _ <- match err with
           | Some err =>
               call (logWarn "[WARN] Failed to cleanup ENIs for ALB %q: %#v" [Id d] (Some err))
           | None => Ret tt
           end;;
      err <- waitForNLBNetworkInterfacesToDetach (Id d);;
      _ <- match err with
           | Some err =>
               call (logWarn "[WARN] Failed to wait for ENIs to disappear for NLB %q: %#v"
                       [Id d] (Some err))
           | None => Ret tt
           end;;
      Ret None
  end.

(* =================================================================== *)
(** * Vocabulary of the statements *)
(* =================================================================== *)

(** The calls an operation makes against [env] from the state [w], and
    what it returns. *)
Definition callsOf {R : Type} (env : Env) (m : prog R) (w : World env) : list called :=
  snd (fst (run env m w)).
Definition resultOf {R : Type} (env : Env) (m : prog R) (w : World env) : R :=
  fst (fst (run env m w)).

(** The answer of a call is an error. *)
Definition failed (c : called) : bool :=
  match c with
  | Called e x =>
      match e in apiE X return X -> bool with
      | PrefixedUniqueId _ => fun _ => false
      | CreateLoadBalancer _ => fun x => match x with Err _ => true | Ok _ => false end
      | LoadBalancerActive _ _ => fun x => bool_decide (x ≠ None)
      | DescribeLoadBalancers _ => fun x => match x with Err _ => true | Ok _ => false end
      | Elbv2ListTags _ => fun x => match x with Err _ => true | Ok _ => false end
      | DescribeLoadBalancerAttributes _ =>
          fun x => match x with Err _ => true | Ok _ => false end
      | Elbv2UpdateTags _ _ _ => fun x => match x with Some _ => true | None => false end
      | ModifyLoadBalancerAttributes _ _ =>
          fun x => match x with Some _ => true | None => false end
      | SetSecurityGroups _ _ => fun x => match x with Some _ => true | None => false end
      | SetSubnets _ _ => fun x => match x with Some _ => true | None => false end
      | SetIpAddressType _ _ => fun x => match x with Some _ => true | None => false end
      | DeleteLoadBalancer _ => fun x => match x with Some _ => true | None => false end
      | DescribeNetworkInterfaces _ =>
          fun x => match x with Err _ => true | Ok _ => false end
      | detachNetworkInterfaces _ => fun x => match x with Some _ => true | None => false end
      | deleteNetworkInterfaces _ => fun x => match x with Some _ => true | None => false end
      | logWarn _ _ _ => fun _ => false
      end x
  end.

(** The five mutating calls of Update, told apart. *)
Definition isUpdateTags (c : called) : bool :=
  match c with Called (Elbv2UpdateTags _ _ _) _ => true | _ => false end.
Definition isModifyAttributes (c : called) : bool :=
  match c with Called (ModifyLoadBalancerAttributes _ _) _ => true | _ => false end.
Definition isSetSecurityGroups (c : called) : bool :=
  match c with Called (SetSecurityGroups _ _) _ => true | _ => false end.
Definition isSetIpAddressType (c : called) : bool :=
  match c with Called (SetIpAddressType _ _) _ => true | _ => false end.

(** The request of a call, for the calls whose request a statement reads. *)
Definition setSubnetsRequest (c : called) : option (string * list string) :=
  match c with Called (SetSubnets arn subnets) _ => Some (arn, subnets) | _ => None end.
Definition modifyAttributesRequest (c : called)
    : option (string * list elbv2.LoadBalancerAttribute) :=
  match c with
  | Called (ModifyLoadBalancerAttributes arn attributes) _ => Some (arn, attributes)
  | _ => None
  end.
Definition createRequest (c : called) : option elbv2.CreateLoadBalancerInput :=
  match c with Called (CreateLoadBalancer input) _ => Some input | _ => None end.

(** Steps run in order, each a call that answers an error or nil; the
    first error ends the sequence with that error as wrapped by the
    step, and [k] runs after the last step. *)
Fixpoint inSequence {R : Type} (steps : list (apiE (option error) * (error -> error)))
    (fail : error -> R) (k : prog R) : prog R :=
  match steps with
  | [] => k
  | (e, wrap) :: rest =>
      Vis e (fun r =>
               match r with
               | Some err => Ret (fail (wrap err))
               | None => inSequence rest fail k
               end)
  end.

(** The mutating steps of [resourceAwsLbUpdate] that apply to [d], in the
    order of the source, each with the error it returns on failure. *)
Definition updateSteps (d : ResourceData) : list (apiE (option error) * (error -> error)) :=
  ((if HasChange tags d
    then [(Elbv2UpdateTags (Id d) (tags (old d)) (Get tags d),
           fun err => Errorf "error updating ALB (%s) tags: %s" [Id d] (Some err))]
    else [])
   ++ (if negb (length (updateAttributes d) =? 0)%nat
       then [(ModifyLoadBalancerAttributes (Id d) (updateAttributes d),
              fun err => Errorf "Failure configuring LB attributes: %s" [] (Some err))]
       else [])
   ++ (if HasChange security_groups d
       then [(SetSecurityGroups (Id d) (expandStringSet (Get security_groups d)),
              fun err => Errorf "Failure Setting LB Security Groups: %s" [] (Some err))]
       else [])
   ++ (if HasChange subnets d && negb (IsNewResource d)
       then [(SetSubnets (Id d) (expandStringSet (Get subnets d)),
              fun err => Errorf "Failure Setting LB Subnets: %s" [] (Some err))]
       else [])
   ++ (if HasChange ip_address_type d
       then [(SetIpAddressType (Id d) (Get ip_address_type d),
              fun err => Errorf "Failure Setting LB IP Address Type: %s" [] (Some err))]
       else []))%list.

(** The end of [resourceAwsLbUpdate]: the wait for the active state, then
    the read. *)
Definition waitActiveThenRead (d : ResourceData) : prog (ResourceData * option error) :=
  err <- call (LoadBalancerActive (Id d) (TimeoutUpdate (Timeout d)));;
  match err with
  | Some err =>
      Ret (d, Some (Errorf "error waiting for Load Balancer (%s) to be active: %w"
                      [Get name d] (Some err)))
  | None => resourceAwsLbRead d
  end.

(** The calls of steps that all answered nil. *)
Definition okCalls (steps : list (apiE (option error) * (error -> error))) : list called :=
  map (fun s => Called (fst s) (None : option error)) steps.

(** The value the attribute list gives to [key]: that of the first entry
    with this key, if there is one. *)
Fixpoint attributeValue (key : string) (attributes : list elbv2.LoadBalancerAttribute)
    : option string :=
  match attributes with
  | [] => None
  | a :: rest =>
      if String.eqb (aws.StringValue (elbv2.Key a)) key
      then Some (aws.StringValue (elbv2.Value a))
      else attributeValue key rest
  end.

(** The entries that configure access logs. *)
Definition isAccessLogsAttribute (a : elbv2.LoadBalancerAttribute) : bool :=
  String.prefix "access_logs." (aws.StringValue (elbv2.Key a)).

(** The access log block is absent, or its [enabled] flag is false. *)
Definition accessLogsDisabled (d : ResourceData) : Prop :=
  match Get access_logs d with
  | [Some log] => enabled log = false
  | _ => True
  end.

(** The line Delete logs for the error of a cleanup phase, if any. *)
Definition warned (format : string) (d : ResourceData) (err : option error) : list called :=
  match err with
  | Some err => [Called (logWarn format [Id d] (Some err)) tt]
  | None => []
  end.

(** What the flattened map [m] holds for the zone [az]: the subnet and the
    outpost, and the address keys only when the zone has an address
    record (the last one is the one kept). *)
Definition zoneFlattened (az : elbv2.AvailabilityZone) (m : gmap string string) : Prop :=
  m !! "subnet_id" = Some (aws.StringValue (elbv2.SubnetId az)) ∧
  m !! "outpost_id" = Some (aws.StringValue (elbv2.OutpostId az)) ∧
  match last (elbv2.LoadBalancerAddresses az) with
  | Some a =>
      m !! "allocation_id" = Some (aws.StringValue (elbv2.AllocationId a)) ∧
      m !! "private_ipv4_address" = Some (aws.StringValue (elbv2.PrivateIPv4Address a)) ∧
      m !! "ipv6_address" = Some (aws.StringValue (elbv2.IPv6Address a))
  | None =>
      m !! "allocation_id" = None ∧
      m !! "private_ipv4_address" = None ∧
      m !! "ipv6_address" = None
  end.

(** What the resource data holds for the zone [az] after the read. *)
Definition zoneStored (az : elbv2.AvailabilityZone) (r : SubnetMappingConfig) : Prop :=
  subnet_id r = aws.StringValue (elbv2.SubnetId az) ∧
  outpost_id r = aws.StringValue (elbv2.OutpostId az) ∧
  match last (elbv2.LoadBalancerAddresses az) with
  | Some a =>
      allocation_id r = aws.StringValue (elbv2.AllocationId a) ∧
      private_ipv4_address r = aws.StringValue (elbv2.PrivateIPv4Address a) ∧
      ipv6_address r = aws.StringValue (elbv2.IPv6Address a)
  | None =>
      allocation_id r = "" ∧ private_ipv4_address r = "" ∧ ipv6_address r = ""
  end.

(** ** Texts *)

(** Every character of [s] is in the class. *)
Fixpoint allChars (class : ascii -> bool) (s : string) : bool :=
  match s with
  | EmptyString => true
  | String c s' => class c && allChars class s'
  end.

(** [sub] occurs in [s]. *)
Fixpoint contains (sub s : string) : bool :=
  match regexp.stripPrefix sub s with
  | Some _ => true
  | None =>
      match s with
      | String _ s' => contains sub s'
      | EmptyString => false
      end
  end.

(** A segment of a path: not empty, and without a slash. *)
Definition segment (s : string) : Prop :=
  s ≠ "" ∧ allChars regexp.notSlash s = true.

(** [name] is three segments joined by slashes. *)
Definition threeSegments (name : string) : Prop :=
  ∃ a b c, name = a ++ "/" ++ b ++ "/" ++ c ∧ segment a ∧ segment b ∧ segment c.

(** [arn] ends in three segments joined by slashes. *)
Definition endsInThreeSegments (arn : string) : Prop :=
  ∃ pre name, arn = pre ++ name ∧ threeSegments name.

(** The language of a pattern: [r] matches the text [pre] when [rest]
    follows it, and the groups captured go from [caps] to [caps']. *)
Fixpoint matchesAt (r : regexp.Regexp) (pre rest : string) (caps caps' : list string) : Prop :=
  match r with
  | regexp.Lit text => pre = text ∧ caps' = caps
  | regexp.Star class => allChars class pre = true ∧ caps' = caps
  | regexp.Plus class => allChars class pre = true ∧ pre ≠ "" ∧ caps' = caps
  | regexp.Group r1 => ∃ mid, matchesAt r1 pre rest caps mid ∧ caps' = (mid ++ [pre])%list
  | regexp.Cat r1 r2 =>
      ∃ p1 p2 mid, pre = p1 ++ p2 ∧
        matchesAt r1 p1 (p2 ++ rest) caps mid ∧ matchesAt r2 p2 rest mid caps'
  | regexp.EndText => pre = "" ∧ rest = "" ∧ caps' = caps
  end.

(** ** Sample data for the examples *)

Definition sampleConfig : LbConfig :=
  {| arn := ""; arn_suffix := ""; name := "lb"; name_prefix := "";
     internal := false; load_balancer_type := "application";
     security_groups := ∅; subnets := ∅; subnet_mapping := [];
     access_logs := []; enable_deletion_protection := false;
     idle_timeout := 60; drop_invalid_header_fields := false;
     enable_cross_zone_load_balancing := false; enable_http2 := true;
     ip_address_type := "ipv4"; customer_owned_ipv4_pool := "";
     vpc_id := ""; zone_id := ""; dns_name := ""; tags := ∅ |}.

(** An existing application load balancer whose configuration did not
    change. *)
Definition sampleData : ResourceData :=
  {| Id := "arn:aws:elasticloadbalancing:r:a:loadbalancer/app/lb/1";
     old := sampleConfig; new := sampleConfig; IsNewResource := false;
     Timeout := {| TimeoutCreate := 600; TimeoutUpdate := 600; TimeoutDelete := 600 |} |}.

(** An application load balancer that was just created: no old state, one
    subnet planned. *)
Definition sampleNewData : ResourceData :=
  {| Id := "arn:aws:elasticloadbalancing:r:a:loadbalancer/app/lb/1";
     old := {| arn := ""; arn_suffix := ""; name := ""; name_prefix := "";
               internal := false; load_balancer_type := "";
               security_groups := ∅; subnets := ∅; subnet_mapping := [];
               access_logs := []; enable_deletion_protection := false;
               idle_timeout := 0; drop_invalid_header_fields := false;
               enable_cross_zone_load_balancing := false; enable_http2 := false;
               ip_address_type := ""; customer_owned_ipv4_pool := "";
               vpc_id := ""; zone_id := ""; dns_name := ""; tags := ∅ |};
     new := {| arn := ""; arn_suffix := ""; name := "lb"; name_prefix := "";
               internal := false; load_balancer_type := "application";
               security_groups := ∅; subnets := {["subnet-1"]}; subnet_mapping := [];
               access_logs := []; enable_deletion_protection := false;
               idle_timeout := 60; drop_invalid_header_fields := false;
               enable_cross_zone_load_balancing := false; enable_http2 := true;
               ip_address_type := "ipv4"; customer_owned_ipv4_pool := "";
               vpc_id := ""; zone_id := ""; dns_name := ""; tags := ∅ |};
     IsNewResource := true;
     Timeout := {| TimeoutCreate := 600; TimeoutUpdate := 600; TimeoutDelete := 600 |} |}.

(** The same plan for a load balancer that exists already. *)
Definition sampleChangedData : ResourceData :=
  {| Id := Id sampleNewData; old := old sampleNewData; new := new sampleNewData;
     IsNewResource := false; Timeout := Timeout sampleNewData |}.

(** A plan that enables access logs. *)
Definition sampleLoggingData : ResourceData :=
  Set_access_logs [Some {| bucket := "b"; prefix := "p"; enabled := true |}] sampleData.

Definition sampleLoadBalancer : elbv2.LoadBalancer :=
  {| elbv2.AvailabilityZones :=
       [{| elbv2.LoadBalancerAddresses := []; elbv2.OutpostId := None;
           elbv2.SubnetId := Some "subnet-1"; elbv2.ZoneName := Some "a" |}];
     elbv2.CanonicalHostedZoneId := None; elbv2.CustomerOwnedIpv4Pool := None;
     elbv2.DNSName := None; elbv2.IpAddressType := Some "ipv4";
     elbv2.LoadBalancerArn := Some "arn:aws:elasticloadbalancing:r:a:loadbalancer/app/lb/1";
     elbv2.LoadBalancerName := Some "lb"; elbv2.Scheme := None;
     elbv2.SecurityGroups := []; elbv2.Type_ := Some "application";
     elbv2.VpcId := None |}.

(** A remote side on which every call succeeds; [interfaces] is what the
    listing of network interfaces finds, and [detach] the answer to
    detaching them. *)
Definition sampleEnv (interfaces : list NetworkInterface) (detach : option error) : Env :=
  {| World := unit;
     respond := fun X (e : apiE X) (w : unit) =>
       match e in apiE X return X * unit with
       | PrefixedUniqueId p => (p ++ "20260101000000000000000001", tt)
       | CreateLoadBalancer _ => (Ok [sampleLoadBalancer], tt)
       | LoadBalancerActive _ _ => (None, tt)
       | DescribeLoadBalancers _ => (Ok [sampleLoadBalancer], tt)
       | Elbv2ListTags _ => (Ok ∅, tt)
       | DescribeLoadBalancerAttributes _ =>
           (Ok [attribute "idle_timeout.timeout_seconds" "60"], tt)
       | Elbv2UpdateTags _ _ _ => (None, tt)
       | ModifyLoadBalancerAttributes _ _ => (None, tt)
       | SetSecurityGroups _ _ => (None, tt)
       | SetSubnets _ _ => (None, tt)
       | SetIpAddressType _ _ => (None, tt)
       | DeleteLoadBalancer _ => (None, tt)
       | DescribeNetworkInterfaces _ => (Ok interfaces, tt)
       | detachNetworkInterfaces _ => (detach, tt)
       | deleteNetworkInterfaces _ => (None, tt)
       | logWarn _ _ _ => (tt, tt)
       end |}.

(** A hash of texts for the examples (the provider's is a CRC-32). *)
Fixpoint sampleHashFrom (acc : Z) (s : string) : Z :=
  match s with
  | EmptyString => acc
  | String c s' => sampleHashFrom ((31 * acc + Z.of_nat (nat_of_ascii c)) mod 2 ^ 31) s'
  end.
Definition sampleHash (s : string) : Z := sampleHashFrom 0 s.

(** [isResourceTimeoutError] as the provider defines it: a timeout error
    without a last error. *)
Definition sampleIsTimeout (e : error) : bool :=
  match e with
  | TimeoutError None => true
  | _ => false
  end.

(** ** Vocabulary of the further statements *)

(** The keys the attribute loop of [flattenAwsLbResource] knows. *)
Definition knownAttributeKeys : list string :=
  ["access_logs.s3.enabled"; "access_logs.s3.bucket"; "access_logs.s3.prefix";
   "idle_timeout.timeout_seconds"; "routing.http.drop_invalid_header_fields.enabled";
   "deletion_protection.enabled"; "routing.http2.enabled";
   "load_balancing.cross_zone.enabled"].

Definition knownAttributeKey (key : string) : bool :=
  existsb (String.eqb key) knownAttributeKeys.

(** The range of a Go [int] on a 64-bit platform. *)
Definition inInt64 (z : Z) : Prop := - 2 ^ 63 <= z <= 2 ^ 63 - 1.

(** A remote side like [sampleEnv] on which the calls chosen by [fails]
    answer an error. *)
Definition failingEnv (fails : forall X : Type, apiE X -> bool)
    (interfaces : list NetworkInterface) : Env :=
  {| World := unit;
     respond := fun X (e : apiE X) (w : unit) =>
       if fails X e then
         match e in apiE X return X * unit with
         | PrefixedUniqueId p => (p ++ "20260101000000000000000001", tt)
         | CreateLoadBalancer _ => (Err (AwsError "InternalFailure" ""), tt)
         | LoadBalancerActive _ _ => (Some (TimeoutError None), tt)
         | DescribeLoadBalancers _ => (Err (AwsError "LoadBalancerNotFound" ""), tt)
         | Elbv2ListTags _ => (Err (AwsError "InternalFailure" ""), tt)
         | DescribeLoadBalancerAttributes _ => (Err (AwsError "InternalFailure" ""), tt)
         | Elbv2UpdateTags _ _ _ => (Some (AwsError "InternalFailure" ""), tt)
         | ModifyLoadBalancerAttributes _ _ => (Some (AwsError "InternalFailure" ""), tt)
         | SetSecurityGroups _ _ => (Some (AwsError "InternalFailure" ""), tt)
         | SetSubnets _ _ => (Some (AwsError "InternalFailure" ""), tt)
         | SetIpAddressType _ _ => (Some (AwsError "InternalFailure" ""), tt)
         | DeleteLoadBalancer _ => (Some (AwsError "InternalFailure" ""), tt)
         | DescribeNetworkInterfaces _ => (Err (AwsError "InternalFailure" ""), tt)
         | detachNetworkInterfaces _ => (Some (AwsError "OperationNotPermitted" ""), tt)
         | deleteNetworkInterfaces _ => (Some (AwsError "InternalFailure" ""), tt)
         | logWarn _ _ _ => (tt, tt)
         end
       else respond (sampleEnv interfaces None) X e w |}.

(** The calls that fail in the examples. *)
Definition describeFails (X : Type) (e : apiE X) : bool :=
  match e with DescribeLoadBalancers _ => true | _ => false end.
Definition modifyFails (X : Type) (e : apiE X) : bool :=
  match e with ModifyLoadBalancerAttributes _ _ => true | _ => false end.
Definition createFails (X : Type) (e : apiE X) : bool :=
  match e with CreateLoadBalancer _ => true | _ => false end.
Definition detachFails (X : Type) (e : apiE X) : bool :=
  match e with detachNetworkInterfaces _ => true | _ => false end.

(** [isLoadBalancerNotFound] as the provider defines it: the error code of
    the API. *)
Definition sampleIsNotFound (e : error) : bool :=
  match e with
  | AwsError code _ => String.eqb code "LoadBalancerNotFound"
  | _ => false
  end.

(** The place of a call among the mutating steps of Update: tags,
    attributes, security groups, subnets, IP address type. *)
Definition stepRank (c : called) : option nat :=
  match c with
  | Called (Elbv2UpdateTags _ _ _) _ => Some 1%nat
  | Called (ModifyLoadBalancerAttributes _ _) _ => Some 2%nat
  | Called (SetSecurityGroups _ _) _ => Some 3%nat
  | Called (SetSubnets _ _) _ => Some 4%nat
  | Called (SetIpAddressType _ _) _ => Some 5%nat
  | _ => None
  end.

(** The answer of a creation request. *)
Definition createAnswer (c : called) : option (result (list elbv2.LoadBalancer)) :=
  match c with Called (CreateLoadBalancer _) r => Some r | _ => None end.

(** A call that generates a unique name. *)
Definition isPrefixedUniqueId (c : called) : bool :=
  match c with Called (PrefixedUniqueId _) _ => true | _ => false end.

(** The calls of the read: the three descriptions and the WARN line. *)
Definition isReadCall (c : called) : bool :=
  match c with
  | Called (DescribeLoadBalancers _) _ | Called (Elbv2ListTags _) _
  | Called (DescribeLoadBalancerAttributes _) _ | Called (logWarn _ _ _) _ => true
  | _ => false
  end.

(** The filters of a listing of network interfaces. *)
Definition describeFilters (c : called) : option (list Filter) :=
  match c with Called (DescribeNetworkInterfaces filters) _ => Some filters | _ => None end.

(** A listing of network interfaces that found none. *)
Definition isEmptyListing (c : called) : bool :=
  match c with
  | Called e x =>
      match e in apiE X return X -> bool with
      | DescribeNetworkInterfaces _ => fun x => match x with Ok [] => true | _ => false end
      | _ => fun _ => false
      end x
  end.

(** How many times the character [c] occurs in [s]. *)
Fixpoint countChar (c : ascii) (s : string) : nat :=
  match s with
  | EmptyString => 0%nat
  | String a s' => ((if Ascii.eqb a c then 1 else 0) + countChar c s')%nat
  end.

(** ** The diff suppression of the schema *)

(** [schema.SchemaDiffSuppressFunc]: the key, the old and the new value as
    strings, and the resource data. *)
Definition SchemaDiffSuppressFunc : Type := string -> string -> string -> ResourceData -> bool.

(** [suppressIfLBType(t)]: the function it returns looks at the type of the
    load balancer only. *)
Definition suppressIfLBType (t : string) : SchemaDiffSuppressFunc :=
  fun k old new d => String.eqb (Get load_balancer_type d) t.

(** [d.Get("access_logs.0.enabled")]: the flag of the first block, false
    when there is none. *)
Definition Get_access_logs_0_enabled (d : ResourceData) : bool :=
  match Get access_logs d with
  | Some log :: _ => enabled log
  | _ => false
  end.

(** The [DiffSuppressFunc] fields of the schema that the file defines, by
    the path of the attribute; [None] for an attribute without one.  (The
    one of the [access_logs] block itself is a function of the provider that
    the file only names.) *)
Definition DiffSuppressFunc (key : string) : option SchemaDiffSuppressFunc :=
  if String.eqb key "access_logs.0.bucket" then
    Some (fun k old new d => negb (Get_access_logs_0_enabled d))
  else if String.eqb key "access_logs.0.prefix" then
    Some (fun k old new d => negb (Get_access_logs_0_enabled d))
  else if String.eqb key "idle_timeout" then
    Some (suppressIfLBType elbv2.LoadBalancerTypeEnumNetwork)
  else if String.eqb key "drop_invalid_header_fields" then
    Some (suppressIfLBType "network")
  else if String.eqb key "enable_cross_zone_load_balancing" then
    Some (suppressIfLBType elbv2.LoadBalancerTypeEnumApplication)
  else if String.eqb key "enable_http2" then
    Some (suppressIfLBType elbv2.LoadBalancerTypeEnumNetwork)
  else None.

(** The key of the remote attribute under which [resourceAwsLbUpdate] sends
    an attribute of the schema. *)
Definition attributeKeyOf (key : string) : option string :=
  if String.eqb key "access_logs.0.enabled" then Some "access_logs.s3.enabled"
  else if String.eqb key "access_logs.0.bucket" then Some "access_logs.s3.bucket"
  else if String.eqb key "access_logs.0.prefix" then Some "access_logs.s3.prefix"
  else if String.eqb key "idle_timeout" then Some "idle_timeout.timeout_seconds"
  else if String.eqb key "enable_http2" then Some "routing.http2.enabled"
  else if String.eqb key "drop_invalid_header_fields" then
    Some "routing.http.drop_invalid_header_fields.enabled"
  else if String.eqb key "enable_cross_zone_load_balancing" then
    Some "load_balancing.cross_zone.enabled"
  else if String.eqb key "enable_deletion_protection" then Some "deletion_protection.enabled"
  else None.

(** A network load balancer that was just created. *)
Definition sampleNetworkData : ResourceData :=
  Set_load_balancer_type elbv2.LoadBalancerTypeEnumNetwork sampleNewData.

(* =================================================================== *)
(** * Properties *)
(* =================================================================== *)

(** ** Running programs *)

Lemma run_bind {A B : Type} (env : Env) (m : prog A) (f : A -> prog B) (w : World env) :
  run env (bind m f) w =
  let '(a, c1, w1) := run env m w in
  let '(b, c2, w2) := run env (f a) w1 in
  (b, (c1 ++ c2)%list, w2).
Proof.
  revert w. induction m as [a | X e k IH]; intros w; simpl.
  - destruct (run env (f a) w) as [[b c2] w2]. reflexivity.
  - destruct (respond env X e w) as [x w1]. rewrite IH.
    destruct (run env (k x) w1) as [[a c1] w1'].
    destruct (run env (f a) w1') as [[b c2] w2]. reflexivity.
Qed.

(** ** The CustomizeDiff function *)

Lemma elements_nonempty (X : gset string) :
  (0 <? length (elements X))%nat = true <-> X ≠ ∅.
Proof.
  rewrite Nat.ltb_lt. split.
  - intros H ->. rewrite elements_empty in H. simpl in H. lia.
  - intros H. destruct (elements X) as [| x l] eqn:E.
    + apply elements_empty_inv in E. apply leibniz_equiv in E. contradiction.
    + simpl. lia.
Qed.

Lemma differences_empty (os ns : gset string) :
  os ∖ ns = ∅ ∧ ns ∖ os = ∅ <-> os = ns.
Proof.
  split.
  - intros [H1 H2]. apply set_eq. intros x.
    assert (Ha : x ∉ os ∖ ns) by (rewrite H1; apply not_elem_of_empty).
    assert (Hb : x ∉ ns ∖ os) by (rewrite H2; apply not_elem_of_empty).
    rewrite elem_of_difference in Ha, Hb.
    clear - Ha Hb. destruct (decide (x ∈ os)), (decide (x ∈ ns)); tauto.
  - intros ->. by rewrite difference_diag_L.
Qed.

Lemma subnets_differ (os ns : gset string) :
  (0 <? length (elements (os ∖ ns)))%nat || (0 <? length (elements (ns ∖ os)))%nat = true
  <-> os ≠ ns.
Proof.
  rewrite orb_true_iff, !elements_nonempty.
  split.
  - intros H E. apply differences_empty in E. destruct E, H; contradiction.
  - intros H. destruct (decide (os ∖ ns = ∅)) as [E1 |]; [| by left].
    destruct (decide (ns ∖ os = ∅)) as [E2 |]; [| by right].
    exfalso. apply H, differences_empty. by split.
Qed.

(** C1 (as amended).  [customizeDiffNLBSubnets] never fails, and, on a plan
    that does not already force a new resource for [subnets], it marks
    [subnets] as forcing a new resource exactly when the type is
    "network", the resource exists (its id is not empty) and the old and
    the new subnet sets differ.  For every other type, "gateway" and
    "application" included, and for a resource that does not exist yet,
    nothing is forced. *)
Theorem customizeDiffNLBSubnets_forces_new (diff : ResourceDiff) :
  "subnets" ∉ forcedNewKeys diff ->
  snd (customizeDiffNLBSubnets diff) = None ∧
  (RequiresNew "subnets" (fst (customizeDiffNLBSubnets diff)) = true <->
   diff_load_balancer_type diff = "network" ∧
   diff_Id diff ≠ "" ∧
   default ∅ (diff_subnets_old diff) ≠ default ∅ (diff_subnets_new diff)).
Proof.
  intros Hfresh. unfold customizeDiffNLBSubnets, RequiresNew.
  destruct (String.eqb (diff_load_balancer_type diff) elbv2.LoadBalancerTypeEnumNetwork)
    eqn:Etype; simpl.
  2: { apply String.eqb_neq in Etype. split; [reflexivity |].
       rewrite bool_decide_eq_true. split; [contradiction | intros [? _]; contradiction]. }
  apply String.eqb_eq in Etype.
  destruct (String.eqb (diff_Id diff) "") eqn:Eid; simpl.
  { apply String.eqb_eq in Eid. split; [reflexivity |].
    rewrite bool_decide_eq_true. split; [contradiction | intros (_ & ? & _); contradiction]. }
  apply String.eqb_neq in Eid.
  set (os := default ∅ (diff_subnets_old diff)).
  set (ns := default ∅ (diff_subnets_new diff)).
  destruct ((0 <? length (elements (os ∖ ns)))%nat || (0 <? length (elements (ns ∖ os)))%nat)
    eqn:Ediff.
  - apply subnets_differ in Ediff.
    unfold SetNew_subnets, ForceNew_subnets; simpl. fold os.
    destruct (decide (os = ns)) as [E | _]; [contradiction |]. simpl.
    split; [reflexivity |].
    split; [intros _; by repeat split | reflexivity].
  - assert (Hsame : ¬ os ≠ ns).
    { intros Hne. apply subnets_differ in Hne. congruence. }
    simpl. split; [reflexivity |]. rewrite bool_decide_eq_true.
    split; [contradiction | intros (_ & _ & ?); contradiction].
Qed.

(** C1, the claim as stated fails for the gateway type: an existing gateway
    load balancer whose subnets change is not marked for replacement. *)
Lemma customizeDiffNLBSubnets_gateway_not_forced :
  let diff := {| diff_Id := "arn:aws:elasticloadbalancing:r:a:loadbalancer/gwy/lb/1";
                 diff_load_balancer_type := elbv2.LoadBalancerTypeEnumGateway;
                 diff_subnets_old := Some {["subnet-a"]};
                 diff_subnets_new := Some {["subnet-b"]};
                 forcedNewKeys := [] |} in
  diff_load_balancer_type diff = "gateway" ∧
  diff_Id diff ≠ "" ∧
  default ∅ (diff_subnets_old diff) ≠ default ∅ (diff_subnets_new diff) ∧
  RequiresNew "subnets" (fst (customizeDiffNLBSubnets diff)) = false.
Proof.
  simpl. split; [reflexivity |]. split; [discriminate |]. split.
  - intros E. assert (H : "subnet-a" ∈ ({["subnet-b"]} : gset string)).
    { rewrite <- E. by apply elem_of_singleton. }
    apply elem_of_singleton in H. discriminate.
  - vm_compute. reflexivity.
Qed.


(** ** The shape of Update *)

Lemma resourceAwsLbUpdate_inSequence (d : ResourceData) :
  resourceAwsLbUpdate d =
  inSequence (updateSteps d) (fun err => (d, Some err)) (waitActiveThenRead d).
Proof.
  unfold resourceAwsLbUpdate, updateSteps, waitActiveThenRead, when.
  destruct (HasChange tags d), (negb (length (updateAttributes d) =? 0)%nat),
    (HasChange security_groups d), (HasChange subnets d && negb (IsNewResource d)),
    (HasChange ip_address_type d); reflexivity.
Qed.


Lemma callsOf_bind {A B : Type} (env : Env) (m : prog A) (f : A -> prog B) (w : World env) :
  callsOf env (bind m f) w =
  (callsOf env m w ++ callsOf env (f (resultOf env m w)) (snd (run env m w)))%list.
Proof.
  unfold callsOf, resultOf. rewrite run_bind.
  destruct (run env m w) as [[a c1] w1]. simpl.
  destruct (run env (f a) w1) as [[b c2] w2]. reflexivity.
Qed.

Lemma resultOf_bind {A B : Type} (env : Env) (m : prog A) (f : A -> prog B) (w : World env) :
  resultOf env (bind m f) w = resultOf env (f (resultOf env m w)) (snd (run env m w)).
Proof.
  unfold resultOf. rewrite run_bind.
  destruct (run env m w) as [[a c1] w1]. simpl.
  destruct (run env (f a) w1) as [[b c2] w2]. reflexivity.
Qed.

Arguments flattenAwsLbResource : simpl never.
Arguments resourceAwsLbRead : simpl never.
Arguments resourceAwsLbUpdate : simpl never.
Arguments cleanupLBNetworkInterfaces : simpl never.
Arguments waitForNLBNetworkInterfacesToDetach : simpl never.

(** One step of a run: name the answer of the next call. *)
Ltac answer :=
  match goal with
  | |- context [respond ?env ?X ?e ?w] =>
      let x := fresh "x" in
      let w' := fresh "w" in
      let E := fresh "E" in
      destruct (respond env X e w) as [x w'] eqn:E; cbn
  end.

(** Read makes no mutating call, and starts by describing the load
    balancer. *)
Lemma flattenAwsLbResource_calls (env : Env) (w : World env) (d : ResourceData)
    (lb : elbv2.LoadBalancer) :
  Forall (fun c => isMutation c = false) (callsOf env (flattenAwsLbResource d lb) w).
Proof.
  unfold callsOf, flattenAwsLbResource. cbn. answer.
  destruct x as [tags0 | err]; cbn; [| repeat constructor].
  answer. destruct x as [attributes | err]; cbn; [| repeat constructor].
  destruct (flattenAttributes _ _ _) as [d' [alm | err]]; cbn; repeat constructor.
Qed.

Lemma resourceAwsLbRead_calls (env : Env) (w : World env) (d : ResourceData) :
  ∃ r rest,
    callsOf env (resourceAwsLbRead d) w = Called (DescribeLoadBalancers [Id d]) r :: rest ∧
    Forall (fun c => isMutation c = false) rest.
Proof.
  unfold callsOf, resourceAwsLbRead. cbn. answer.
  destruct x as [lbs | err]; cbn.
  - destruct lbs as [| lb [| lb2 lbs]]; cbn; try (eexists _, _; split; [reflexivity | constructor]).
    pose proof (flattenAwsLbResource_calls env w0 d lb) as H. unfold callsOf in H.
    destruct (run env (flattenAwsLbResource d lb) w0) as [[r cs] w1]. cbn in *.
    eexists _, _; split; [reflexivity | exact H].
  - destruct (isLoadBalancerNotFound err); cbn.
    + answer. eexists _, _; split; [reflexivity | repeat constructor].
    + eexists _, _; split; [reflexivity | constructor].
Qed.


(** A sequence of steps either stops at the first step that fails, or
    runs all of them and goes on. *)
Lemma inSequence_runs {R : Type} (env : Env)
    (steps : list (apiE (option error) * (error -> error)))
    (fail : error -> R) (k : prog R) (w : World env) :
  (∃ done e wrap err rest,
      steps = (done ++ (e, wrap) :: rest)%list ∧
      callsOf env (inSequence steps fail k) w = (okCalls done ++ [Called e (Some err)])%list ∧
      resultOf env (inSequence steps fail k) w = fail (wrap err))
  ∨ (∃ w1,
      callsOf env (inSequence steps fail k) w = (okCalls steps ++ callsOf env k w1)%list ∧
      resultOf env (inSequence steps fail k) w = resultOf env k w1).
Proof.
  revert w. induction steps as [| [e wrap] steps IH]; intros w.
  - right. exists w. split; reflexivity.
  - unfold callsOf, resultOf in *. cbn. answer.
    destruct x as [err |]; cbn.
    + left. exists [], e, wrap, err, steps. repeat split.
    + destruct (IH w0) as [(done & e' & wrap' & err & rest & -> & Hc & Hr) | (w1 & Hc & Hr)].
      * left. exists ((e, wrap) :: done), e', wrap', err, rest.
        destruct (run env (inSequence _ fail k) w0) as [[r cs] w2]. cbn in *.
        subst. repeat split.
      * right. exists w1.
        destruct (run env (inSequence steps fail k) w0) as [[r cs] w2]. cbn in *.
        subst. split; reflexivity.
Qed.

Lemma waitActiveThenRead_calls (env : Env) (w : World env) (d : ResourceData) :
  ∃ r rest,
    callsOf env (waitActiveThenRead d) w =
      Called (LoadBalancerActive (Id d) (TimeoutUpdate (Timeout d))) r :: rest ∧
    Forall (fun c => isMutation c = false) rest ∧
    match r with
    | Some err => rest = [] ∧ snd (resultOf env (waitActiveThenRead d) w) ≠ None
    | None =>
        ∃ w1, rest = callsOf env (resourceAwsLbRead d) w1 ∧
              resultOf env (waitActiveThenRead d) w = resultOf env (resourceAwsLbRead d) w1
    end.
Proof.
  unfold callsOf, resultOf, waitActiveThenRead. cbn. answer.
  destruct x as [err |]; cbn.
  - eexists _, _. split; [reflexivity |]. split; [constructor |]. split; [reflexivity | discriminate].
  - destruct (resourceAwsLbRead_calls env w0 d) as (r & rest & Hc & Hm).
    unfold callsOf in Hc.
    destruct (run env (resourceAwsLbRead d) w0) as [[res cs] w2] eqn:Erun. cbn in *.
    eexists _, _. split; [reflexivity |]. split.
    + rewrite Hc. constructor; [reflexivity | exact Hm].
    + exists w0. rewrite Erun. split; reflexivity.
Qed.

(** The calls of Update: the steps that apply, until one fails; after the
    last step the wait and the read. *)
Lemma resourceAwsLbUpdate_runs (env : Env) (w : World env) (d : ResourceData) :
  (∃ done e wrap err rest,
      updateSteps d = (done ++ (e, wrap) :: rest)%list ∧
      callsOf env (resourceAwsLbUpdate d) w = (okCalls done ++ [Called e (Some err)])%list ∧
      resultOf env (resourceAwsLbUpdate d) w = (d, Some (wrap err)))
  ∨ (∃ w1,
      callsOf env (resourceAwsLbUpdate d) w =
        (okCalls (updateSteps d) ++ callsOf env (waitActiveThenRead d) w1)%list ∧
      resultOf env (resourceAwsLbUpdate d) w = resultOf env (waitActiveThenRead d) w1).
Proof. rewrite resourceAwsLbUpdate_inSequence. apply inSequence_runs. Qed.


(** ** The attribute list *)

Lemma HasChange_same {A : Type} `{EqDecision A} (key : LbConfig -> A) (d : ResourceData) :
  old d = new d -> HasChange key d = false.
Proof.
  intros E. unfold HasChange. rewrite E. apply bool_decide_eq_false_2. intros H. by apply H.
Qed.

Lemma attributeValue_app (key : string) (l1 l2 : list elbv2.LoadBalancerAttribute) :
  attributeValue key (l1 ++ l2) =
  match attributeValue key l1 with
  | Some v => Some v
  | None => attributeValue key l2
  end.
Proof.
  induction l1 as [| a l1 IH]; cbn; [reflexivity |].
  destruct (String.eqb _ key); [reflexivity | exact IH].
Qed.

Lemma filter_accessLogs_typeAttributes (d : ResourceData) :
  List.filter isAccessLogsAttribute (typeAttributes d) = [].
Proof.
  unfold typeAttributes.
  destruct (String.eqb _ elbv2.LoadBalancerTypeEnumApplication).
  - destruct (HasChange idle_timeout d || IsNewResource d),
      (HasChange enable_http2 d || IsNewResource d),
      (HasChange drop_invalid_header_fields d || IsNewResource d); reflexivity.
  - destruct (_ || _); [| reflexivity].
    destruct (HasChange enable_cross_zone_load_balancing d || IsNewResource d); reflexivity.
Qed.

Lemma filter_accessLogs_deletionProtection (d : ResourceData) :
  List.filter isAccessLogsAttribute (deletionProtectionAttributes d) = [].
Proof.
  unfold deletionProtectionAttributes. destruct (_ || _); reflexivity.
Qed.

Lemma filter_accessLogs_accessLogs (d : ResourceData) :
  List.filter isAccessLogsAttribute (accessLogsAttributes d) = accessLogsAttributes d.
Proof.
  unfold accessLogsAttributes. destruct (HasChange access_logs d); [| reflexivity].
  destruct (Get access_logs d) as [| [log |] [| b l]]; try reflexivity.
  destruct (enabled log); reflexivity.
Qed.

Lemma filter_accessLogs_updateAttributes (d : ResourceData) :
  List.filter isAccessLogsAttribute (updateAttributes d) = accessLogsAttributes d.
Proof.
  unfold updateAttributes.
  rewrite !List.filter_app, filter_accessLogs_accessLogs,
    filter_accessLogs_typeAttributes, filter_accessLogs_deletionProtection.
  by rewrite !app_nil_r.
Qed.

(** C5 (as amended).  The access log entries of the attribute list Update
    sends: none when the [access_logs] block did not change; when it
    changed and the block is absent or its [enabled] flag is false, just
    the entry that disables access logs, and neither bucket nor prefix;
    when it changed and the block enables access logs with bucket [b] and
    prefix [p], the three entries enabled=true, bucket=b, prefix=p. *)
Theorem accessLogs_instructions (d : ResourceData) :
  let emitted := List.filter isAccessLogsAttribute (updateAttributes d) in
  (HasChange access_logs d = false -> emitted = []) ∧
  (HasChange access_logs d = true -> accessLogsDisabled d ->
     emitted = [attribute "access_logs.s3.enabled" "false"]) ∧
  (∀ b p : string,
     HasChange access_logs d = true ->
     Get access_logs d = [Some {| bucket := b; prefix := p; enabled := true |}] ->
     emitted = [attribute "access_logs.s3.enabled" "true";
                attribute "access_logs.s3.bucket" b;
                attribute "access_logs.s3.prefix" p]).
Proof.
  cbv zeta. rewrite filter_accessLogs_updateAttributes.
  unfold accessLogsAttributes, accessLogsDisabled.
  split; [| split].
  - intros ->. reflexivity.
  - intros -> Hoff.
    destruct (Get access_logs d) as [| [log |] [| b l]]; try reflexivity.
    rewrite Hoff. reflexivity.
  - intros b p -> ->. reflexivity.
Qed.

(** C5, the claim as stated fails when the block did not change: for an
    existing resource without an access log block, in the old and in the
    new configuration alike, no access log entry is sent at all, rather
    than the entry that disables access logs. *)
Lemma accessLogs_unchanged_emits_nothing :
  accessLogsDisabled sampleData ∧
  List.filter isAccessLogsAttribute (updateAttributes sampleData) = [] ∧
  List.filter isAccessLogsAttribute (updateAttributes sampleData)
    ≠ [attribute "access_logs.s3.enabled" "false"].
Proof.
  rewrite filter_accessLogs_updateAttributes.
  unfold accessLogsAttributes, accessLogsDisabled.
  rewrite (HasChange_same access_logs sampleData eq_refl).
  split; [exact I |]. split; [reflexivity | discriminate].
Qed.


(** Every call of Update is one of the steps that apply, or does not
    change the remote side. *)
Lemma resourceAwsLbUpdate_calls (env : Env) (w : World env) (d : ResourceData) (c : called) :
  In c (callsOf env (resourceAwsLbUpdate d) w) ->
  (∃ s r, In s (updateSteps d) ∧ c = Called (fst s) r) ∨ isMutation c = false.
Proof.
  intros Hin.
  assert (Hok : ∀ steps, In c (okCalls steps) -> ∃ s r, In s steps ∧ c = Called (fst s) r).
  { intros steps H. unfold okCalls in H. apply in_map_iff in H as (s & <- & Hs). eauto. }
  destruct (resourceAwsLbUpdate_runs env w d)
    as [(done & e & wrap & err & rest & Hsteps & Hc & _) | (w1 & Hc & _)];
    rewrite Hc in Hin; apply in_app_or in Hin as [Hin | Hin].
  - left. destruct (Hok _ Hin) as (s & r & Hs & ->). exists s, r. split; [| reflexivity].
    rewrite Hsteps. apply in_or_app. by left.
  - left. destruct Hin as [<- | []]. exists (e, wrap), (Some err). split; [| reflexivity].
    rewrite Hsteps. apply in_or_app. right. by left.
  - left. exact (Hok _ Hin).
  - right. destruct (waitActiveThenRead_calls env w1 d) as (r & rest & Hw & Hm & _).
    rewrite Hw in Hin. destruct Hin as [<- | Hin]; [reflexivity |].
    rewrite Forall_forall in Hm. by apply Hm, list_elem_of_In.
Qed.

(** The steps of Update, one by one. *)
Lemma updateSteps_cases (d : ResourceData) (s : apiE (option error) * (error -> error)) :
  In s (updateSteps d) ->
  (HasChange tags d = true ∧
     fst s = Elbv2UpdateTags (Id d) (tags (old d)) (Get tags d))
  ∨ (updateAttributes d ≠ [] ∧
     fst s = ModifyLoadBalancerAttributes (Id d) (updateAttributes d))
  ∨ (HasChange security_groups d = true ∧
     fst s = SetSecurityGroups (Id d) (expandStringSet (Get security_groups d)))
  ∨ (HasChange subnets d = true ∧ IsNewResource d = false ∧
     fst s = SetSubnets (Id d) (expandStringSet (Get subnets d)))
  ∨ (HasChange ip_address_type d = true ∧
     fst s = SetIpAddressType (Id d) (Get ip_address_type d)).
Proof.
  unfold updateSteps. rewrite !in_app_iff.
  intros [H | [H | [H | [H | H]]]].
  - destruct (HasChange tags d); cbn in H; [destruct H as [<- | []] | contradiction].
    left. by split.
  - destruct (updateAttributes d) eqn:E; cbn in H; [contradiction | destruct H as [<- | []]].
    right; left. by split.
  - destruct (HasChange security_groups d); cbn in H; [destruct H as [<- | []] | contradiction].
    right; right; left. by split.
  - destruct (HasChange subnets d), (IsNewResource d); cbn in H; try contradiction.
    destruct H as [<- | []].
    right; right; right; left. by repeat split.
  - destruct (HasChange ip_address_type d); cbn in H; [destruct H as [<- | []] | contradiction].
    right; right; right; right. by split.
Qed.

Lemma not_mutation_modifyAttributesRequest (c : called) :
  isMutation c = false -> modifyAttributesRequest c = None.
Proof. destruct c as [X e x]. destruct e; cbn; congruence. Qed.

Lemma attributeValue_none (key : string) (l : list elbv2.LoadBalancerAttribute) :
  Forall (fun a => String.eqb (aws.StringValue (elbv2.Key a)) key = false) l ->
  attributeValue key l = None.
Proof.
  induction 1 as [| a l Ha _ IH]; cbn [attributeValue]; [reflexivity |].
  rewrite Ha. exact IH.
Qed.

Lemma accessLogsAttributes_keys (d : ResourceData) :
  Forall (fun a => isAccessLogsAttribute a = true) (accessLogsAttributes d).
Proof.
  unfold accessLogsAttributes. destruct (HasChange access_logs d); [| constructor].
  destruct (Get access_logs d) as [| [log |] [| b l]]; try (repeat constructor).
  destruct (enabled log); repeat constructor.
Qed.



(** ** Update *)


Lemma updateAttributes_same (d : ResourceData) :
  old d = new d -> IsNewResource d = false -> updateAttributes d = [].
Proof.
  intros E Hnew.
  unfold updateAttributes, accessLogsAttributes, typeAttributes, deletionProtectionAttributes.
  rewrite !(HasChange_same _ d E), Hnew. cbn.
  destruct (String.eqb _ _); [reflexivity |]. destruct (_ || _); reflexivity.
Qed.

Lemma updateSteps_same (d : ResourceData) :
  old d = new d -> IsNewResource d = false -> updateSteps d = [].
Proof.
  intros E Hnew. unfold updateSteps.
  rewrite !(HasChange_same _ d E), (updateAttributes_same d E Hnew). reflexivity.
Qed.

Lemma updateSteps_mutations (d : ResourceData) (r : option error) :
  Forall (fun s => isMutation (Called (fst s) r) = true) (updateSteps d).
Proof.
  apply Forall_forall. intros s Hs. apply list_elem_of_In in Hs.
  apply updateSteps_cases in Hs as [[_ E] | [[_ E] | [[_ E] | [(_ & _ & E) | [_ E]]]]];
    rewrite E; reflexivity.
Qed.

(** C8.  Update of a resource that is not new, with the old and the new
    configuration equal, makes no call that changes the remote side: no
    tag update, no attribute modification, no security group, subnet or
    IP address type call.  Its calls are the wait for the active state
    and those of the read. *)
Theorem resourceAwsLbUpdate_idempotent (env : Env) (w : World env) (d : ResourceData) :
  IsNewResource d = false ->
  old d = new d ->
  Forall (fun c => isMutation c = false) (callsOf env (resourceAwsLbUpdate d) w) ∧
  callsOf env (resourceAwsLbUpdate d) w = callsOf env (waitActiveThenRead d) w.
Proof.
  intros Hnew Hsame.
  assert (Hcalls : callsOf env (resourceAwsLbUpdate d) w = callsOf env (waitActiveThenRead d) w).
  { rewrite resourceAwsLbUpdate_inSequence, (updateSteps_same d Hsame Hnew). reflexivity. }
  split; [| exact Hcalls].
  rewrite Hcalls.
  destruct (waitActiveThenRead_calls env w d) as (r & rest & -> & Hm & _).
  constructor; [reflexivity | exact Hm].
Qed.

(** C10.  An Update that returns without error has, after its mutating
    calls, waited for the load balancer to be active and then run Read,
    whose result it returns; Read starts by describing the load balancer.
    An Update with nothing to change (old and new configuration equal,
    resource not new) makes the wait its first call, and all its other
    calls are those of the Read that follows a wait that succeeded. *)
Theorem resourceAwsLbUpdate_waits_and_reads (env : Env) (w : World env) (d : ResourceData) :
  (snd (resultOf env (resourceAwsLbUpdate d) w) = None ->
   ∃ pre w1 r rest,
     callsOf env (resourceAwsLbUpdate d) w =
       (pre ++ Called (LoadBalancerActive (Id d) (TimeoutUpdate (Timeout d))) None
            :: callsOf env (resourceAwsLbRead d) w1)%list ∧
     Forall (fun c => isMutation c = true) pre ∧
     callsOf env (resourceAwsLbRead d) w1 = Called (DescribeLoadBalancers [Id d]) r :: rest ∧
     resultOf env (resourceAwsLbUpdate d) w = resultOf env (resourceAwsLbRead d) w1) ∧
  (IsNewResource d = false -> old d = new d ->
   ∃ r rest,
     callsOf env (resourceAwsLbUpdate d) w =
       Called (LoadBalancerActive (Id d) (TimeoutUpdate (Timeout d))) r :: rest ∧
     (r = None -> ∃ w1, rest = callsOf env (resourceAwsLbRead d) w1)).
Proof.
  split.
  - intros Hok.
    destruct (resourceAwsLbUpdate_runs env w d)
      as [(done & e & wrap & err & rest & _ & _ & Hr) | (w1 & Hc & Hr)].
    { rewrite Hr in Hok. discriminate. }
    destruct (waitActiveThenRead_calls env w1 d) as (r & rest & Hw & _ & Hrest).
    destruct r as [err |].
    { destruct Hrest as [_ Hne]. rewrite Hr in Hok. contradiction. }
    destruct Hrest as (w2 & -> & Hres).
    destruct (resourceAwsLbRead_calls env w2 d) as (r & rest & Hread & _).
    exists (okCalls (updateSteps d)), w2, r, rest.
    split; [by rewrite Hc, Hw |]. split; [| split; [exact Hread | by rewrite Hr]].
    unfold okCalls. apply Forall_map. apply updateSteps_mutations.
  - intros Hnew Hsame.
    rewrite resourceAwsLbUpdate_inSequence, (updateSteps_same d Hsame Hnew). cbn [inSequence].
    destruct (waitActiveThenRead_calls env w d) as (r & rest & -> & _ & Hrest).
    exists r, rest. split; [reflexivity |].
    intros ->. destruct Hrest as (w1 & -> & _). eauto.
Qed.


(** A step of a sequence is called, unless a step before it failed. *)
Lemma inSequence_reaches {R : Type} (env : Env)
    (pre post : list (apiE (option error) * (error -> error)))
    (s : apiE (option error) * (error -> error))
    (fail : error -> R) (k : prog R) (w : World env) :
  (∃ r, In (Called (fst s) r) (callsOf env (inSequence (pre ++ s :: post) fail k) w))
  ∨ (∃ s' err, In s' pre ∧
       In (Called (fst s') (Some err)) (callsOf env (inSequence (pre ++ s :: post) fail k) w)).
Proof.
  revert w. induction pre as [| [e wrap] pre IH]; intros w.
  - left. destruct s as [e wrap]. unfold callsOf. cbn. answer.
    destruct (run env _ w0) as [[r cs] w1]. cbn. exists x. by left.
  - unfold callsOf in *. cbn. answer. destruct x as [err |]; cbn.
    + right. exists (e, wrap), err. split; by left.
    + destruct (IH w0) as [[r Hin] | (s' & err & Hs' & Hin)];
        destruct (run env (inSequence _ fail k) w0) as [[res cs] w1]; cbn in *.
      * left. exists r. by right.
      * right. exists s', err. split; by right.
Qed.

Lemma existsb_not_mutation (cls : called -> bool) (calls : list called) :
  (∀ c, cls c = true -> isMutation c = true) ->
  Forall (fun c => isMutation c = false) calls ->
  existsb cls calls = false.
Proof.
  intros Hcls. induction 1 as [| c calls Hc _ IH]; cbn; [reflexivity |].
  rewrite IH, orb_false_r. destruct (cls c) eqn:E; [| reflexivity].
  apply Hcls in E. congruence.
Qed.

Lemma isSetSubnets_mutation (c : called) : isSetSubnets c = true -> isMutation c = true.
Proof. destruct c as [X e x]. destruct e; cbn; congruence. Qed.
Lemma isUpdateTags_mutation (c : called) : isUpdateTags c = true -> isMutation c = true.
Proof. destruct c as [X e x]. destruct e; cbn; congruence. Qed.
Lemma isModifyAttributes_mutation (c : called) :
  isModifyAttributes c = true -> isMutation c = true.
Proof. destruct c as [X e x]. destruct e; cbn; congruence. Qed.
Lemma isSetSecurityGroups_mutation (c : called) :
  isSetSecurityGroups c = true -> isMutation c = true.
Proof. destruct c as [X e x]. destruct e; cbn; congruence. Qed.
Lemma isSetIpAddressType_mutation (c : called) :
  isSetIpAddressType c = true -> isMutation c = true.
Proof. destruct c as [X e x]. destruct e; cbn; congruence. Qed.

(** On a new resource no step of Update is a SetSubnets call. *)
Lemma resourceAwsLbUpdate_new_no_SetSubnets (env : Env) (w : World env) (d : ResourceData) :
  IsNewResource d = true ->
  Forall (fun c => isSetSubnets c = false) (callsOf env (resourceAwsLbUpdate d) w).
Proof.
  intros Hnew. apply Forall_forall. intros c Hin. apply list_elem_of_In in Hin.
  destruct (resourceAwsLbUpdate_calls env w d c Hin) as [(s & r & Hs & ->) | Hm].
  - apply updateSteps_cases in Hs as [[_ E] | [[_ E] | [[_ E] | [(_ & Hn & E) | [_ E]]]]];
      try (cbn; rewrite E; reflexivity).
    congruence.
  - destruct (isSetSubnets c) eqn:E; [| reflexivity].
    apply isSetSubnets_mutation in E. congruence.
Qed.

(** When no mutating call fails, each step of Update is called exactly
    when its own condition holds. *)
Lemma resourceAwsLbUpdate_steps_called (env : Env) (w : World env) (d : ResourceData) :
  let calls := callsOf env (resourceAwsLbUpdate d) w in
  Forall (fun c => isMutation c = true -> failed c = false) calls ->
  existsb isUpdateTags calls = HasChange tags d ∧
  existsb isModifyAttributes calls = negb (length (updateAttributes d) =? 0)%nat ∧
  existsb isSetSecurityGroups calls = HasChange security_groups d ∧
  existsb isSetSubnets calls = HasChange subnets d && negb (IsNewResource d) ∧
  existsb isSetIpAddressType calls = HasChange ip_address_type d.
Proof.
  cbv zeta. intros Hnofail.
  destruct (resourceAwsLbUpdate_runs env w d)
    as [(done & e & wrap & err & rest & Hsteps & Hc & _) | (w1 & Hc & _)].
  { exfalso. rewrite Hc in Hnofail. apply Forall_app in Hnofail as [_ Hlast].
    apply Forall_cons in Hlast as [Hlast _].
    pose proof (updateSteps_mutations d (Some err)) as Hmut.
    rewrite Hsteps in Hmut. apply Forall_app in Hmut as [_ Hmut].
    apply Forall_cons in Hmut as [Hmut _]. cbn in Hmut.
    specialize (Hlast Hmut).
    assert (He : In (e, wrap) (updateSteps d)).
    { rewrite Hsteps. apply in_or_app. right. by left. }
    apply updateSteps_cases in He as [[_ E] | [[_ E] | [[_ E] | [(_ & _ & E) | [_ E]]]]];
      cbn in E; subst e; discriminate. }
  rewrite Hc.
  destruct (waitActiveThenRead_calls env w1 d) as (r & rest & Hw & Hm & _).
  assert (Htail : Forall (fun c => isMutation c = false) (callsOf env (waitActiveThenRead d) w1)).
  { rewrite Hw. constructor; [reflexivity | exact Hm]. }
  rewrite !existsb_app.
  rewrite (existsb_not_mutation isUpdateTags _ isUpdateTags_mutation Htail),
    (existsb_not_mutation isModifyAttributes _ isModifyAttributes_mutation Htail),
    (existsb_not_mutation isSetSecurityGroups _ isSetSecurityGroups_mutation Htail),
    (existsb_not_mutation isSetSubnets _ isSetSubnets_mutation Htail),
    (existsb_not_mutation isSetIpAddressType _ isSetIpAddressType_mutation Htail),
    !orb_false_r.
  unfold updateSteps.
  destruct (HasChange tags d), (negb (length (updateAttributes d) =? 0)%nat),
    (HasChange security_groups d), (HasChange subnets d && negb (IsNewResource d)),
    (HasChange ip_address_type d); repeat split.
Qed.


(** C6.  The entries of the attribute list Update sends, key by key: the
    idle timeout, HTTP/2 and drop-invalid-header-fields entries are there
    exactly for the application type when their field changed or the
    resource is new, the cross-zone entry exactly for the network and
    gateway types under the same rule, the deletion protection entry
    under that rule for every type; each carries the current value of
    its field.  So a new application load balancer with the default idle
    timeout of 60 still sends idle_timeout.timeout_seconds = 60, and a
    key is never sent for a type it does not apply to.  Every
    ModifyLoadBalancerAttributes call of Update carries this list.  And
    Update does send it: when the list is not empty Update calls
    ModifyLoadBalancerAttributes with it, so every entry of the list
    reaches the remote side, unless the tag update, the one step before
    it, failed and ended the Update; when the list is empty Update makes
    no such call. *)
Theorem updateAttributes_emission (d : ResourceData) :
  let attributes := updateAttributes d in
  let lbType := Get load_balancer_type d in
  let application := String.eqb lbType "application" in
  let networkOrGateway := String.eqb lbType "network" || String.eqb lbType "gateway" in
  attributeValue "idle_timeout.timeout_seconds" attributes =
    (if application && (HasChange idle_timeout d || IsNewResource d)
     then Some (strconv.FormatInt (Get idle_timeout d)) else None) ∧
  attributeValue "routing.http2.enabled" attributes =
    (if application && (HasChange enable_http2 d || IsNewResource d)
     then Some (strconv.FormatBool (Get enable_http2 d)) else None) ∧
  attributeValue "routing.http.drop_invalid_header_fields.enabled" attributes =
    (if application && (HasChange drop_invalid_header_fields d || IsNewResource d)
     then Some (strconv.FormatBool (Get drop_invalid_header_fields d)) else None) ∧
  attributeValue "load_balancing.cross_zone.enabled" attributes =
    (if networkOrGateway && (HasChange enable_cross_zone_load_balancing d || IsNewResource d)
     then Some (strconv.FormatBool (Get enable_cross_zone_load_balancing d)) else None) ∧
  attributeValue "deletion_protection.enabled" attributes =
    (if HasChange enable_deletion_protection d || IsNewResource d
     then Some (strconv.FormatBool (Get enable_deletion_protection d)) else None) ∧
  (IsNewResource d = true -> lbType = "application" -> Get idle_timeout d = 60 ->
   In (attribute "idle_timeout.timeout_seconds" "60") attributes) ∧
  (∀ (env : Env) (w : World env) (c : called) arn sent,
     In c (callsOf env (resourceAwsLbUpdate d) w) ->
     modifyAttributesRequest c = Some (arn, sent) ->
     arn = Id d ∧ sent = attributes) ∧
  (∀ (env : Env) (w : World env),
     let calls := callsOf env (resourceAwsLbUpdate d) w in
     (attributes ≠ [] ->
      (∃ c, In c calls ∧ modifyAttributesRequest c = Some (Id d, attributes))
      ∨ (∃ c, In c calls ∧ failed c = true ∧ isUpdateTags c = true)) ∧
     (∀ key value, attributeValue key attributes = Some value ->
        (∃ c sent, In c calls ∧ modifyAttributesRequest c = Some (Id d, sent) ∧
                   attributeValue key sent = Some value)
        ∨ (∃ c, In c calls ∧ failed c = true ∧ isUpdateTags c = true)) ∧
     (attributes = [] -> Forall (fun c => isModifyAttributes c = false) calls) ∧
     (Forall (fun c => isMutation c = true -> failed c = false) calls ->
      existsb isModifyAttributes calls = negb (length attributes =? 0)%nat)).
Proof.
  cbv zeta.
  assert (Hlogs : ∀ key, String.prefix "access_logs." key = false ->
                         attributeValue key (accessLogsAttributes d) = None).
  { intros key Hkey. apply attributeValue_none.
    eapply Forall_impl; [apply accessLogsAttributes_keys |].
    intros a Ha. unfold isAccessLogsAttribute in Ha.
    destruct (String.eqb_spec (aws.StringValue (elbv2.Key a)) key) as [E |]; [| reflexivity].
    rewrite E in Ha. congruence. }
  assert (Hsent : ∀ (env : Env) (w : World env) (c : called) arn sent,
             In c (callsOf env (resourceAwsLbUpdate d) w) ->
             modifyAttributesRequest c = Some (arn, sent) ->
             arn = Id d ∧ sent = updateAttributes d).
  { intros env w c arn sent Hin Hreq.
    destruct (resourceAwsLbUpdate_calls env w d c Hin) as [(s & r & Hs & ->) | Hm].
    - apply updateSteps_cases in Hs as [[_ E] | [[_ E] | [[_ E] | [(_ & _ & E) | [_ E]]]]];
        cbn in Hreq; rewrite E in Hreq; cbn in Hreq; [discriminate | | discriminate ..].
      injection Hreq as <- <-. by split.
    - rewrite (not_mutation_modifyAttributesRequest c Hm) in Hreq. discriminate. }
  assert (Hreached : ∀ (env : Env) (w : World env),
             updateAttributes d ≠ [] ->
             (∃ c, In c (callsOf env (resourceAwsLbUpdate d) w) ∧
                   modifyAttributesRequest c = Some (Id d, updateAttributes d))
             ∨ (∃ c, In c (callsOf env (resourceAwsLbUpdate d) w) ∧
                     failed c = true ∧ isUpdateTags c = true)).
  { intros env w Hne.
    rewrite resourceAwsLbUpdate_inSequence. unfold updateSteps.
    destruct (updateAttributes d) as [| a l] eqn:Eattr; [contradiction |].
    cbn [length Nat.eqb negb app].
    match goal with
    | |- context [inSequence (?pre ++ ?s :: ?post) ?fail ?k] =>
        destruct (inSequence_reaches env pre post s fail k w)
          as [[r Hin] | (s' & err & Hs' & Hin)]
    end.
    - left. eexists. split; [exact Hin | reflexivity].
    - right. eexists. split; [exact Hin |].
      destruct (HasChange tags d); cbn in Hs'; [| contradiction].
      destruct Hs' as [<- | []]. by split. }
  assert (Hnone : ∀ (env : Env) (w : World env),
             updateAttributes d = [] ->
             Forall (fun c => isModifyAttributes c = false)
               (callsOf env (resourceAwsLbUpdate d) w)).
  { intros env w Hnil. apply Forall_forall. intros c Hin. apply list_elem_of_In in Hin.
    destruct (resourceAwsLbUpdate_calls env w d c Hin) as [(s & r & Hs & ->) | Hm].
    - apply updateSteps_cases in Hs as [[_ E] | [[Hne E] | [[_ E] | [(_ & _ & E) | [_ E]]]]];
        try (cbn; rewrite E; reflexivity).
      contradiction.
    - destruct (isModifyAttributes c) eqn:E; [| reflexivity].
      apply isModifyAttributes_mutation in E. congruence. }
  split; [| split; [| split; [| split; [| split; [| split; [| split; [exact Hsent |]]]]]]].
  7: { intros env w. split; [apply Hreached |]. split; [| split; [apply Hnone |]].
       - intros key value Hkey.
         destruct (Hreached env w) as [(c & Hin & Hreq) | Hfailed].
         + intros Hnil. rewrite Hnil in Hkey. discriminate.
         + left. exists c, (updateAttributes d). by repeat split.
         + by right.
       - intros Hok. by destruct (resourceAwsLbUpdate_steps_called env w d Hok) as (_ & H & _). }
  1-5: unfold updateAttributes; rewrite !attributeValue_app, Hlogs by reflexivity;
    unfold typeAttributes, deletionProtectionAttributes, elbv2.LoadBalancerTypeEnumApplication,
      elbv2.LoadBalancerTypeEnumGateway, elbv2.LoadBalancerTypeEnumNetwork;
    generalize (Get load_balancer_type d); intros t;
    destruct (String.eqb_spec t "application") as [-> | Happ]; cbn;
    [ | destruct (String.eqb_spec t "gateway") as [-> | Hgw]; cbn;
        [ | destruct (String.eqb_spec t "network") as [-> | Hnw]; cbn ] ];
    destruct (HasChange idle_timeout d), (HasChange enable_http2 d),
      (HasChange drop_invalid_header_fields d),
      (HasChange enable_cross_zone_load_balancing d),
      (HasChange enable_deletion_protection d), (IsNewResource d); reflexivity.
  intros Hnew Happ Hidle. unfold updateAttributes.
  apply in_or_app. right. apply in_or_app. left.
  unfold typeAttributes. rewrite Happ, Hnew, Hidle. cbn.
  rewrite orb_true_r. cbn. by left.
Qed.


(** ** Create *)

Arguments resourceAwsLbCreate : simpl never.

(** The calls of Create: at most one generated name, the creation
    request built from the configuration, the wait, and the calls of
    the Update that Create ends with, on the data as Create leaves it. *)
Lemma resourceAwsLbCreate_runs (env : Env) (w : World env) (d : ResourceData) :
  ∃ pre name' r rest,
    (pre = [] ∨ ∃ p x, pre = [Called (PrefixedUniqueId p) x]) ∧
    callsOf env (resourceAwsLbCreate d) w =
      (pre ++ Called (CreateLoadBalancer
                        (createLoadBalancerInput name' (IgnoreAws (Get tags d))
                           (Set_name name' d))) r :: rest)%list ∧
    (rest = [] ∨
     ∃ arn r2 rest2,
       rest = Called (LoadBalancerActive arn (TimeoutCreate (Timeout d))) r2 :: rest2 ∧
       (rest2 = [] ∨
        ∃ w2, rest2 = callsOf env (resourceAwsLbUpdate (SetId arn (Set_name name' d))) w2)).
Proof.
  unfold resourceAwsLbCreate.
  match goal with |- context [bind _ ?f] => set (body := f) end.
  assert (Hmain : ∀ name' w0, ∃ r rest,
    callsOf env (body name') w0 =
      Called (CreateLoadBalancer
                (createLoadBalancerInput name' (IgnoreAws (Get tags d)) (Set_name name' d)))
        r :: rest ∧
    (rest = [] ∨
     ∃ arn r2 rest2,
       rest = Called (LoadBalancerActive arn (TimeoutCreate (Timeout d))) r2 :: rest2 ∧
       (rest2 = [] ∨
        ∃ w2, rest2 = callsOf env (resourceAwsLbUpdate (SetId arn (Set_name name' d))) w2))).
  { intros name' w0. subst body. unfold callsOf. cbn. answer.
    destruct x as [[| lb [| lb2 lbs]] | err]; cbn;
      try (eexists _, _; split; [reflexivity | by left]).
    answer. destruct x as [err |]; cbn.
    - eexists _, _. split; [reflexivity |]. right. eexists _, _, _. split; [reflexivity |].
      by left.
    - destruct (run env (resourceAwsLbUpdate _) w2) as [[res cs] w3] eqn:Erun. cbn.
      eexists _, _. split; [reflexivity |]. right. eexists _, _, _. split; [reflexivity |].
      right. exists w2. by rewrite Erun. }
  rewrite callsOf_bind.
  destruct (Hmain (resultOf env
                     match GetOk_string name d with
                     | Some v => Ret v
                     | None =>
                         match GetOk_string name_prefix d with
                         | Some v => call (PrefixedUniqueId v)
                         | None => call (PrefixedUniqueId "tf-lb-")
                         end
                     end w)
              (snd (run env
                     match GetOk_string name d with
                     | Some v => Ret v
                     | None =>
                         match GetOk_string name_prefix d with
                         | Some v => call (PrefixedUniqueId v)
                         | None => call (PrefixedUniqueId "tf-lb-")
                         end
                     end w))) as (r & rest & Hc & Hrest).
  rewrite Hc. eexists _, _, r, rest. split; [| split; [reflexivity | exact Hrest]].
  destruct (GetOk_string name d) as [v |]; [by left |].
  right. unfold callsOf.
  destruct (GetOk_string name_prefix d) as [v |]; cbn; answer; eauto.
Qed.


Lemma resourceAwsLbCreate_new_no_SetSubnets (env : Env) (w : World env) (d : ResourceData) :
  IsNewResource d = true ->
  Forall (fun c => isSetSubnets c = false) (callsOf env (resourceAwsLbCreate d) w).
Proof.
  intros Hnew.
  destruct (resourceAwsLbCreate_runs env w d) as (pre & name' & r & rest & Hpre & -> & Hrest).
  apply Forall_app. split.
  - destruct Hpre as [-> | (p & x & ->)]; repeat constructor.
  - constructor; [reflexivity |].
    destruct Hrest as [-> | (arn & r2 & rest2 & -> & Hrest2)]; [constructor |].
    constructor; [reflexivity |].
    destruct Hrest2 as [-> | (w2 & ->)]; [constructor |].
    by apply resourceAwsLbUpdate_new_no_SetSubnets.
Qed.

(** C7.  An Update of a new resource, as chained by Create, makes no
    SetSubnets call, whether or not [subnets] registers as changed, and
    neither does Create as a whole.  An Update of a resource that is not
    new and whose subnets changed calls SetSubnets with the new subnets,
    unless one of the steps before it (tags, attributes, security groups)
    failed and ended the Update.  When no mutating call fails, every
    step is called exactly when its own condition holds: only the
    subnet step reads the new-resource flag next to its change. *)
Theorem subnets_sent_unless_new (env : Env) (w : World env) (d : ResourceData) :
  let calls := callsOf env (resourceAwsLbUpdate d) w in
  (IsNewResource d = true ->
     Forall (fun c => isSetSubnets c = false) calls ∧
     Forall (fun c => isSetSubnets c = false) (callsOf env (resourceAwsLbCreate d) w)) ∧
  (IsNewResource d = false -> HasChange subnets d = true ->
     (∃ c, In c calls ∧
           setSubnetsRequest c = Some (Id d, expandStringSet (Get subnets d)))
     ∨ (∃ c, In c calls ∧ failed c = true ∧
             isUpdateTags c || isModifyAttributes c || isSetSecurityGroups c = true)) ∧
  (Forall (fun c => isMutation c = true -> failed c = false) calls ->
     existsb isUpdateTags calls = HasChange tags d ∧
     existsb isModifyAttributes calls = negb (length (updateAttributes d) =? 0)%nat ∧
     existsb isSetSecurityGroups calls = HasChange security_groups d ∧
     existsb isSetSubnets calls = HasChange subnets d && negb (IsNewResource d) ∧
     existsb isSetIpAddressType calls = HasChange ip_address_type d).
Proof.
  cbv zeta. split; [| split].
  - intros Hnew. split.
    + by apply resourceAwsLbUpdate_new_no_SetSubnets.
    + by apply resourceAwsLbCreate_new_no_SetSubnets.
  - intros Hnew Hchange.
    rewrite resourceAwsLbUpdate_inSequence. unfold updateSteps.
    rewrite Hchange, Hnew. cbn [andb negb].
    rewrite !app_assoc. rewrite <- (app_assoc _ [_] _). cbn [app].
    match goal with
    | |- context [inSequence (?pre ++ ?s :: ?post) ?fail ?k] =>
        destruct (inSequence_reaches env pre post s fail k w)
          as [[r Hin] | (s' & err & Hs' & Hin)]
    end.
    + left. eexists. split; [exact Hin | reflexivity].
    + right. eexists. split; [exact Hin |].
      rewrite !in_app_iff in Hs'. destruct Hs' as [[Hs' | Hs'] | Hs'].
      * destruct (HasChange tags d); cbn in Hs'; [| contradiction].
        destruct Hs' as [<- | []]. by split.
      * destruct (negb _); cbn in Hs'; [| contradiction].
        destruct Hs' as [<- | []]. by split.
      * destruct (HasChange security_groups d); cbn in Hs'; [| contradiction].
        destruct Hs' as [<- | []]. by split.
  - apply resourceAwsLbUpdate_steps_called.
Qed.


(** ** Delete *)

(** C9.  Delete returns nil exactly when the DeleteLoadBalancer call, its
    first call, answers nil.  When that call fails Delete returns its
    error and does nothing else.  When it succeeds, Delete runs the
    cleanup of the owned network interfaces and the wait for the
    platform-owned ones, logs the error of either at WARN level, and
    returns nil whatever they returned. *)
Theorem resourceAwsLbDelete_result (env : Env) (w : World env) (d : ResourceData) :
  let destroyed := fst (respond env _ (DeleteLoadBalancer (Id d)) w) in
  let w1 := snd (respond env _ (DeleteLoadBalancer (Id d)) w) in
  (resultOf env (resourceAwsLbDelete d) w = None <-> destroyed = None) ∧
  (∀ err, destroyed = Some err ->
     resultOf env (resourceAwsLbDelete d) w = Some (Errorf "Error deleting LB: %s" [] (Some err)) ∧
     callsOf env (resourceAwsLbDelete d) w = [Called (DeleteLoadBalancer (Id d)) (Some err)]) ∧
  (destroyed = None ->
     ∃ w2,
       callsOf env (resourceAwsLbDelete d) w =
         (Called (DeleteLoadBalancer (Id d)) None
          :: callsOf env (cleanupLBNetworkInterfaces (Id d)) w1
          ++ warned "[WARN] Failed to cleanup ENIs for ALB %q: %#v" d
               (resultOf env (cleanupLBNetworkInterfaces (Id d)) w1)
          ++ callsOf env (waitForNLBNetworkInterfacesToDetach (Id d)) w2
          ++ warned "[WARN] Failed to wait for ENIs to disappear for NLB %q: %#v" d
               (resultOf env (waitForNLBNetworkInterfacesToDetach (Id d)) w2))%list).
Proof.
  cbv zeta. unfold resourceAwsLbDelete, callsOf, resultOf. cbn.
  destruct (respond env (option error) (DeleteLoadBalancer (Id d)) w) as [destroyed w1].
  cbn. destruct destroyed as [err |]; cbn.
  - split; [split; discriminate |]. split; [| discriminate].
    intros err' [= <-]. split; reflexivity.
  - rewrite run_bind.
    destruct (run env (cleanupLBNetworkInterfaces (Id d)) w1) as [[err1 c1] w1'] eqn:E1.
    rewrite run_bind.
    assert (Hwarn : ∀ format (err : option error) (w0 : World env),
               ∃ w0', run env match err with
                              | Some err => call (logWarn format [Id d] (Some err))
                              | None => Ret tt
                              end w0 = (tt, warned format d err, w0')).
    { intros format [err |] w0; cbn; [| eauto].
      destruct (respond env unit _ w0) as [[] w0']. eauto. }
    destruct (Hwarn "[WARN] Failed to cleanup ENIs for ALB %q: %#v" err1 w1') as [w2 ->].
    rewrite run_bind.
    destruct (run env (waitForNLBNetworkInterfacesToDetach (Id d)) w2)
      as [[err2 c2] w2'] eqn:E2.
    rewrite run_bind.
    destruct (Hwarn "[WARN] Failed to wait for ENIs to disappear for NLB %q: %#v" err2 w2')
      as [w3 ->].
    cbn. split; [split; reflexivity |]. split; [discriminate |].
    intros _. exists w2. rewrite E2. cbn. by rewrite app_nil_r.
Qed.


(** ** Sets of the plugin SDK *)

Lemma schema_List_Permutation {A : Type} (m : gmap string A) :
  schema.List m ≡ₚ map snd (map_to_list m).
Proof. unfold schema.List. apply fmap_Permutation, merge_sort_Permutation. Qed.

Lemma elem_of_schema_List {A : Type} (m : gmap string A) (x : A) :
  x ∈ schema.List m <-> ∃ k, m !! k = Some x.
Proof.
  rewrite schema_List_Permutation. rewrite list_elem_of_fmap. split.
  - intros ([k y] & -> & Hin). exists k. by apply elem_of_map_to_list.
  - intros [k Hk]. exists (k, x). split; [reflexivity |]. by apply elem_of_map_to_list.
Qed.

Lemma schema_List_length {A : Type} (m : gmap string A) :
  length (schema.List m) = size m.
Proof.
  rewrite (Permutation_length (schema_List_Permutation m)), length_map.
  apply length_map_to_list.
Qed.

(** The element filed under a key is the first item with this key. *)
Lemma schema_NewSet_lookup {A : Type} (F : A -> Z) (items : list A) (k : string) :
  schema.NewSet F items !! k =
  head (List.filter (fun x => String.eqb (schema.hash F x) k) items).
Proof.
  unfold schema.NewSet.
  assert (H : ∀ m, foldl (fun m item => schema.Add F item m) m items !! k =
                   match m !! k with
                   | Some y => Some y
                   | None => head (List.filter (fun x => String.eqb (schema.hash F x) k) items)
                   end).
  { induction items as [| x items IH]; intros m; cbn [foldl List.filter].
    - by destruct (m !! k).
    - rewrite IH. unfold schema.Add.
      destruct (String.eqb_spec (schema.hash F x) k) as [E | N].
      + rewrite E. destruct (m !! k) as [y |] eqn:Em; [by rewrite Em |].
        by rewrite lookup_insert_eq.
      + destruct (m !! schema.hash F x); [reflexivity |].
        by rewrite lookup_insert_ne. }
  rewrite H. by rewrite lookup_empty.
Qed.

Lemma schema_NewSet_key {A : Type} (F : A -> Z) (items : list A) (k : string) (x : A) :
  schema.NewSet F items !! k = Some x -> schema.hash F x = k ∧ x ∈ items.
Proof.
  rewrite schema_NewSet_lookup. intros H.
  assert (Hin : In x (List.filter (fun x => String.eqb (schema.hash F x) k) items)).
  { destruct (List.filter _ items) as [| y l]; [discriminate |].
    injection H as ->. by left. }
  apply filter_In in Hin as [Hin Hk]. apply String.eqb_eq in Hk.
  split; [exact Hk | by apply list_elem_of_In].
Qed.

(** The elements of the set built from a list. *)
Lemma elem_of_schema_set {A : Type} (F : A -> Z) (items : list A) (x : A) :
  x ∈ schema.List (schema.NewSet F items) <->
  head (List.filter (fun y => String.eqb (schema.hash F y) (schema.hash F x)) items) = Some x.
Proof.
  rewrite elem_of_schema_List. split.
  - intros [k Hk]. destruct (schema_NewSet_key F items k x Hk) as [<- _].
    by rewrite <- schema_NewSet_lookup.
  - intros H. exists (schema.hash F x). by rewrite schema_NewSet_lookup.
Qed.

Lemma schema_set_subset {A : Type} (F : A -> Z) (items : list A) (x : A) :
  x ∈ schema.List (schema.NewSet F items) -> x ∈ items.
Proof.
  rewrite elem_of_schema_List. intros [k Hk]. by destruct (schema_NewSet_key F items k x Hk).
Qed.

(** Every item is in the set, or an earlier item with its key is. *)
Lemma schema_set_represented {A : Type} (F : A -> Z) (items : list A) (x : A) :
  x ∈ items ->
  ∃ y, y ∈ schema.List (schema.NewSet F items) ∧ schema.hash F y = schema.hash F x.
Proof.
  intros Hin.
  destruct (head (List.filter (fun y => String.eqb (schema.hash F y) (schema.hash F x)) items))
    as [y |] eqn:E.
  - assert (Hy : In y (List.filter (fun y => String.eqb (schema.hash F y) (schema.hash F x))
                         items)).
    { destruct (List.filter _ items) as [| z l]; [discriminate |].
      injection E as ->. by left. }
    apply filter_In in Hy as [_ Hk]. apply String.eqb_eq in Hk.
    exists y. split; [| exact Hk]. apply elem_of_schema_set. by rewrite Hk.
  - exfalso.
    assert (Hx : In x (List.filter (fun y => String.eqb (schema.hash F y) (schema.hash F x))
                         items)).
    { apply filter_In. split; [by apply list_elem_of_In | apply String.eqb_refl]. }
    destruct (List.filter _ items); [destruct Hx | discriminate].
Qed.

(** No two elements of a set have the same key. *)
Lemma schema_set_keys {A : Type} (F : A -> Z) (items : list A) :
  NoDup (map (schema.hash F) (schema.List (schema.NewSet F items))).
Proof.
  assert (Hkeys : map (schema.hash F) (map snd (map_to_list (schema.NewSet F items)))
                  = map fst (map_to_list (schema.NewSet F items))).
  { rewrite map_map. apply map_ext_in. intros [k x] Hin. cbn.
    apply list_elem_of_In, elem_of_map_to_list in Hin.
    by destruct (schema_NewSet_key F items k x Hin). }
  rewrite (fmap_Permutation (schema.hash F) _ _ (schema_List_Permutation _)).
  change (NoDup (map (schema.hash F) (map snd (map_to_list (schema.NewSet F items))))).
  rewrite Hkeys. apply NoDup_fst_map_to_list.
Qed.

Lemma schema_set_length {A : Type} (F : A -> Z) (items : list A) :
  (length (schema.List (schema.NewSet F items)) <= length items)%nat.
Proof.
  pose proof (schema_set_keys F items) as Hnd.
  apply NoDup_fmap_1 in Hnd.
  apply (submseteq_length (schema.List (schema.NewSet F items)) items).
  apply NoDup_submseteq; [exact Hnd |]. intros x. apply schema_set_subset.
Qed.

(** Items with different keys are all kept. *)
Lemma schema_set_Permutation {A : Type} (F : A -> Z) (items : list A) :
  NoDup (map (schema.hash F) items) ->
  schema.List (schema.NewSet F items) ≡ₚ items.
Proof.
  intros Hnd.
  apply NoDup_Permutation.
  - eapply NoDup_fmap_1, schema_set_keys.
  - by eapply NoDup_fmap_1.
  - intros x. split; [apply schema_set_subset |]. intros Hin.
    destruct (schema_set_represented F items x Hin) as (y & Hy & Hk).
    assert (y = x); [| by subst].
    apply schema_set_subset in Hy.
    apply list_elem_of_lookup in Hy as [i Hi]. apply list_elem_of_lookup in Hin as [j Hj].
    assert (i = j).
    { apply (NoDup_lookup _ i j (schema.hash F x) Hnd); rewrite list_lookup_fmap.
      - by rewrite Hi, <- Hk.
      - by rewrite Hj. }
    subst. congruence.
Qed.

(** The set of a list that is not empty is not empty. *)
Lemma schema_set_nil {A : Type} (F : A -> Z) (items : list A) :
  schema.List (schema.NewSet F items) = [] <-> items = [].
Proof.
  split.
  - intros E. destruct items as [| x items]; [reflexivity |]. exfalso.
    destruct (schema_set_represented F (x :: items) x) as (y & Hy & _); [by left |].
    rewrite E in Hy. by apply not_elem_of_nil in Hy.
  - intros ->. reflexivity.
Qed.

Lemma schema_set_singleton {A : Type} (F : A -> Z) (x : A) :
  schema.List (schema.NewSet F [x]) = [x].
Proof.
  unfold schema.List, schema.NewSet, schema.Add. cbn [foldl].
  rewrite lookup_empty, insert_empty, map_to_list_singleton. reflexivity.
Qed.


(** ** Flattening the availability zones *)

Lemma flattenLoadBalancerAddresses_spec (addresses : list elbv2.LoadBalancerAddress)
    (m : gmap string string) :
  let m' := flattenLoadBalancerAddresses addresses m in
  m' !! "subnet_id" = m !! "subnet_id" ∧
  m' !! "outpost_id" = m !! "outpost_id" ∧
  match last addresses with
  | Some a =>
      m' !! "allocation_id" = Some (aws.StringValue (elbv2.AllocationId a)) ∧
      m' !! "private_ipv4_address" = Some (aws.StringValue (elbv2.PrivateIPv4Address a)) ∧
      m' !! "ipv6_address" = Some (aws.StringValue (elbv2.IPv6Address a))
  | None => m' = m
  end.
Proof.
  revert m. induction addresses as [| a rest IH]; intros m; cbn zeta.
  - repeat split.
  - cbn [flattenLoadBalancerAddresses].
    specialize (IH (<["ipv6_address" := aws.StringValue (elbv2.IPv6Address a)]>
                      (<["private_ipv4_address" :=
                           aws.StringValue (elbv2.PrivateIPv4Address a)]>
                         (<["allocation_id" := aws.StringValue (elbv2.AllocationId a)]> m)))).
    cbn zeta in IH. destruct IH as (Hs & Ho & Hlast).
    split; [| split].
    + rewrite Hs. by rewrite !lookup_insert_ne.
    + rewrite Ho. by rewrite !lookup_insert_ne.
    + destruct rest as [| a2 rest].
      * clear Hs Ho Hlast. cbn [flattenLoadBalancerAddresses]. rewrite last_singleton.
        split; [| split].
        -- rewrite !(lookup_insert_ne _ _ "allocation_id") by done.
           by rewrite lookup_insert_eq.
        -- rewrite (lookup_insert_ne _ "ipv6_address" "private_ipv4_address") by done.
           by rewrite lookup_insert_eq.
        -- by rewrite lookup_insert_eq.
      * rewrite last_cons_cons.
        destruct (last (a2 :: rest)) as [a' |] eqn:El; [exact Hlast |].
        apply last_None in El. discriminate.
Qed.

Lemma flattenSubnetMappings_zones (azs : list elbv2.AvailabilityZone) :
  Forall2 zoneFlattened azs (flattenSubnetMappingsFromAvailabilityZones azs).
Proof.
  induction azs as [| az azs IH]; cbn [flattenSubnetMappingsFromAvailabilityZones];
    constructor; [| exact IH].
  destruct (flattenLoadBalancerAddresses_spec (elbv2.LoadBalancerAddresses az)
              (<["outpost_id" := aws.StringValue (elbv2.OutpostId az)]>
                 (<["subnet_id" := aws.StringValue (elbv2.SubnetId az)]> ∅)))
    as (Hs & Ho & Hlast).
  cbn zeta in *. unfold zoneFlattened.
  split; [| split].
  - rewrite Hs. rewrite lookup_insert_ne by done. by rewrite lookup_insert_eq.
  - rewrite Ho. by rewrite lookup_insert_eq.
  - destruct (last (elbv2.LoadBalancerAddresses az)); [exact Hlast |].
    rewrite Hlast. by rewrite !lookup_insert_ne, !lookup_empty.
Qed.

Lemma zoneStored_of_flattened (az : elbv2.AvailabilityZone) (m : gmap string string) :
  zoneFlattened az m -> zoneStored az (subnetMappingOfMap m).
Proof.
  unfold zoneFlattened, zoneStored, subnetMappingOfMap. cbn.
  intros (-> & -> & H). split; [reflexivity |]. split; [reflexivity |].
  destruct (last _); destruct H as (-> & -> & ->); by repeat split.
Qed.

Lemma flattenSubnets_map (azs : list elbv2.AvailabilityZone) :
  flattenSubnetsFromAvailabilityZones azs =
  map (fun az => aws.StringValue (elbv2.SubnetId az)) azs.
Proof. induction azs as [| az azs IH]; cbn; [reflexivity | by rewrite IH]. Qed.

Lemma flattenSubnetMappings_subnet_ids (azs : list elbv2.AvailabilityZone) :
  map subnet_id (map subnetMappingOfMap (flattenSubnetMappingsFromAvailabilityZones azs)) =
  flattenSubnetsFromAvailabilityZones azs.
Proof.
  induction azs as [| az azs IH]; [reflexivity |].
  cbn [flattenSubnetMappingsFromAvailabilityZones flattenSubnetsFromAvailabilityZones map].
  rewrite IH. f_equal. unfold subnetMappingOfMap. cbn [subnet_id].
  destruct (flattenLoadBalancerAddresses_spec (elbv2.LoadBalancerAddresses az)
              (<["outpost_id" := aws.StringValue (elbv2.OutpostId az)]>
                 (<["subnet_id" := aws.StringValue (elbv2.SubnetId az)]> ∅)))
    as (Hs & _).
  cbn zeta in Hs. rewrite Hs. rewrite lookup_insert_ne by done.
  by rewrite lookup_insert_eq.
Qed.

Lemma flattenLoadBalancer_subnet_mapping (lb : elbv2.LoadBalancer) (d : ResourceData) :
  Get subnet_mapping (flattenLoadBalancer lb d) =
  schema.List
    (schema.NewSet subnetMappingHash
       (map subnetMappingOfMap
          (flattenSubnetMappingsFromAvailabilityZones (elbv2.AvailabilityZones lb)))).
Proof. reflexivity. Qed.

Lemma flattenLoadBalancer_subnets (lb : elbv2.LoadBalancer) (d : ResourceData) :
  Get subnets (flattenLoadBalancer lb d) =
  list_to_set (flattenSubnetsFromAvailabilityZones (elbv2.AvailabilityZones lb)).
Proof. reflexivity. Qed.

(** The key of a record in the set depends on its subnet, its allocation
    and its private IPv4 address only. *)
Lemma subnetMappingHash_fields (r1 r2 : SubnetMappingConfig) :
  subnet_id r1 = subnet_id r2 ->
  allocation_id r1 = allocation_id r2 ->
  private_ipv4_address r1 = private_ipv4_address r2 ->
  schema.hash subnetMappingHash r1 = schema.hash subnetMappingHash r2.
Proof.
  intros Hs Ha Hp. unfold schema.hash, subnetMappingHash, subnetMappingHashInput.
  by rewrite Hs, Ha, Hp.
Qed.

(** C2 (as amended).  What Read makes of the remote record: every scalar
    field is copied (nil reads as the empty string), and the availability
    zones fill both attachment fields at once.  [subnets] is the set of
    the subnet ids of the zones.  [subnet_mapping] is the set of the
    records of the zones: for each zone the subnet id and the outpost id
    are always captured; the allocation id, the private IPv4 address and
    the IPv6 address are those of the zone's last address record when it
    has one; when it has none the flattened map lacks these three keys,
    and the record reads them as the empty string.  The set files a record
    under the hash of its subnet id, allocation id and private IPv4
    address: it holds, for every key, the record of the first zone with
    this key and drops the records of later zones with the same key, so it
    has one record per zone exactly when the keys of the zones differ. *)
Theorem flattenLoadBalancer_fields (lb : elbv2.LoadBalancer) (d : ResourceData) :
  let azs := elbv2.AvailabilityZones lb in
  let records := map subnetMappingOfMap (flattenSubnetMappingsFromAvailabilityZones azs) in
  let key := schema.hash subnetMappingHash in
  let d' := flattenLoadBalancer lb d in
  Forall2 zoneFlattened azs (flattenSubnetMappingsFromAvailabilityZones azs) ∧
  Forall2 zoneStored azs records ∧
  (∀ r, r ∈ Get subnet_mapping d' <->
        head (List.filter (fun r' => String.eqb (key r') (key r)) records) = Some r) ∧
  NoDup (map key (Get subnet_mapping d')) ∧
  (NoDup (map key records) <-> Get subnet_mapping d' ≡ₚ records) ∧
  (∀ r1 r2, subnet_id r1 = subnet_id r2 -> allocation_id r1 = allocation_id r2 ->
            private_ipv4_address r1 = private_ipv4_address r2 -> key r1 = key r2) ∧
  Get subnets d' = list_to_set (map (fun az => aws.StringValue (elbv2.SubnetId az)) azs) ∧
  Get arn d' = aws.StringValue (elbv2.LoadBalancerArn lb) ∧
  Get arn_suffix d' = lbSuffixFromARN (elbv2.LoadBalancerArn lb) ∧
  Get name d' = aws.StringValue (elbv2.LoadBalancerName lb) ∧
  Get internal d' = bool_decide (elbv2.Scheme lb = Some "internal") ∧
  Get security_groups d' = list_to_set (map aws.StringValue (elbv2.SecurityGroups lb)) ∧
  Get vpc_id d' = aws.StringValue (elbv2.VpcId lb) ∧
  Get zone_id d' = aws.StringValue (elbv2.CanonicalHostedZoneId lb) ∧
  Get dns_name d' = aws.StringValue (elbv2.DNSName lb) ∧
  Get ip_address_type d' = aws.StringValue (elbv2.IpAddressType lb) ∧
  Get load_balancer_type d' = aws.StringValue (elbv2.Type_ lb) ∧
  Get customer_owned_ipv4_pool d' = aws.StringValue (elbv2.CustomerOwnedIpv4Pool lb).
Proof.
  cbv zeta. split; [apply flattenSubnetMappings_zones |]. split.
  { apply Forall2_fmap_r.
    eapply Forall2_impl; [apply flattenSubnetMappings_zones |].
    apply zoneStored_of_flattened. }
  rewrite flattenLoadBalancer_subnet_mapping.
  split; [intros r; apply elem_of_schema_set |].
  split; [apply schema_set_keys |].
  split.
  { split; [apply schema_set_Permutation |].
    intros Hp. rewrite <- Hp. apply schema_set_keys. }
  split; [apply subnetMappingHash_fields |].
  split.
  { rewrite flattenLoadBalancer_subnets. by rewrite flattenSubnets_map. }
  unfold flattenLoadBalancer, Get. cbn.
  repeat (split; [reflexivity |]). repeat split.
  destruct (elbv2.Scheme lb) as [s |]; cbn.
  - destruct (String.eqb_spec s "internal") as [-> | Hne].
    + by rewrite bool_decide_eq_true_2.
    + rewrite bool_decide_eq_false_2; [reflexivity | congruence].
  - by rewrite bool_decide_eq_false_2.
Qed.

Lemma flattenAttributes_attachments (attributes : list elbv2.LoadBalancerAttribute)
    (accessLogMap : AccessLogs) (d : ResourceData) :
  Get subnets (fst (flattenAttributes attributes accessLogMap d)) = Get subnets d ∧
  Get subnet_mapping (fst (flattenAttributes attributes accessLogMap d)) = Get subnet_mapping d.
Proof.
  revert accessLogMap d.
  induction attributes as [| attr rest IH]; intros accessLogMap d; [by split |].
  cbn [flattenAttributes].
  repeat (destruct (String.eqb _ _)); try (destruct (strconv.Atoi _));
    first
      [ by split
      | match goal with
        | |- context [flattenAttributes rest ?a ?dd] =>
            destruct (IH a dd) as [H1 H2]; unfold Get in *; rewrite H1, H2; by split
        end ].
Qed.

Lemma flattenAwsLbResource_attachments (env : Env) (w : World env) (d : ResourceData)
    (lb : elbv2.LoadBalancer) :
  let d' := fst (resultOf env (flattenAwsLbResource d lb) w) in
  Get subnets d' = Get subnets (flattenLoadBalancer lb d) ∧
  Get subnet_mapping d' = Get subnet_mapping (flattenLoadBalancer lb d).
Proof.
  cbv zeta. unfold resultOf, flattenAwsLbResource. cbn. answer.
  destruct x as [tags0 | err]; cbn; [| by split].
  answer. destruct x as [attributes | err]; cbn; [| by split].
  pose proof (flattenAttributes_attachments attributes
                {| bucket := ""; prefix := ""; enabled := false |}
                (Set_tags (IgnoreConfig (IgnoreAws tags0)) (flattenLoadBalancer lb d))) as H.
  destruct (flattenAttributes _ _ _) as [d' [alm | err]]; cbn in *; exact H.
Qed.

Lemma not_mutation_createRequest (c : called) :
  isMutation c = false -> createRequest c = None.
Proof. destruct c as [X e x]. destruct e; cbn; congruence. Qed.

Lemma resourceAwsLbUpdate_no_createRequest (env : Env) (w : World env) (d : ResourceData)
    (c : called) :
  In c (callsOf env (resourceAwsLbUpdate d) w) -> createRequest c = None.
Proof.
  intros Hin.
  destruct (resourceAwsLbUpdate_calls env w d c Hin) as [(s & r & Hs & ->) | Hm].
  - apply updateSteps_cases in Hs as [[_ E] | [[_ E] | [[_ E] | [(_ & _ & E) | [_ E]]]]];
      cbn; rewrite E; reflexivity.
  - by apply not_mutation_createRequest.
Qed.

(** C4 (as amended).  After the read has flattened a remote record the two
    attachment fields are filled from the same zones, and so they are
    empty together and populated together: [subnets] is the set of the
    subnet ids of the zones, [subnet_mapping] the set of their records,
    and the subnet of every record is in [subnets].  [subnet_mapping] has
    at most one record per zone, and one per zone, with [subnets] the set
    of their subnet ids, when no two zones have the same key in the
    set.  The request of Create carries each of the two as the
    configuration has it, independently: subnets when [subnets] is not
    empty, subnet mappings, one per element, when [subnet_mapping] is not
    empty. *)
Theorem attachment_fields (env : Env) (w : World env) (d : ResourceData)
    (lb : elbv2.LoadBalancer) :
  let d' := fst (resultOf env (flattenAwsLbResource d lb) w) in
  let records :=
    map subnetMappingOfMap
      (flattenSubnetMappingsFromAvailabilityZones (elbv2.AvailabilityZones lb)) in
  ((Get subnets d' = ∅ <-> Get subnet_mapping d' = []) ∧
   (Get subnets d' = ∅ <-> elbv2.AvailabilityZones lb = []) ∧
   (∀ r, r ∈ Get subnet_mapping d' -> subnet_id r ∈ Get subnets d') ∧
   (length (Get subnet_mapping d') <= length (elbv2.AvailabilityZones lb))%nat ∧
   (NoDup (map (schema.hash subnetMappingHash) records) ->
    length (Get subnet_mapping d') = length (elbv2.AvailabilityZones lb) ∧
    Get subnets d' = list_to_set (map subnet_id (Get subnet_mapping d')))) ∧
  (∀ c input,
     In c (callsOf env (resourceAwsLbCreate d) w) ->
     createRequest c = Some input ->
     elbv2.in_Subnets input = expandStringSet (Get subnets d) ∧
     elbv2.in_SubnetMappings input = map expandSubnetMapping (Get subnet_mapping d) ∧
     (elbv2.in_Subnets input = [] <-> Get subnets d = ∅) ∧
     (elbv2.in_SubnetMappings input = [] <-> Get subnet_mapping d = [])).
Proof.
  cbv zeta. split.
  - destruct (flattenAwsLbResource_attachments env w d lb) as [-> ->].
    rewrite flattenLoadBalancer_subnet_mapping, flattenLoadBalancer_subnets.
    rewrite <- flattenSubnetMappings_subnet_ids.
    set (records := map subnetMappingOfMap
                      (flattenSubnetMappingsFromAvailabilityZones (elbv2.AvailabilityZones lb))).
    assert (Hlen : length records = length (elbv2.AvailabilityZones lb)).
    { unfold records. rewrite length_map.
      pose proof (flattenSubnetMappings_zones (elbv2.AvailabilityZones lb)) as H.
      symmetry. exact (Forall2_length _ _ _ H). }
    assert (Hempty : (list_to_set (map subnet_id records) : gset string) = ∅ <-> records = []).
    { destruct records as [| r rs]; [done |]. split; [| discriminate].
      intros H. exfalso.
      assert (Hin : subnet_id r ∈ (∅ : gset string)).
      { rewrite <- H. apply elem_of_union_l. by apply elem_of_singleton. }
      by apply not_elem_of_empty in Hin. }
    split; [by rewrite Hempty, schema_set_nil |].
    split.
    { rewrite Hempty. destruct (elbv2.AvailabilityZones lb), records; done. }
    split.
    { intros r Hr. apply schema_set_subset in Hr.
      apply elem_of_list_to_set, list_elem_of_fmap. by exists r. }
    split; [rewrite <- Hlen; apply schema_set_length |].
    intros Hkeys. apply schema_set_Permutation in Hkeys.
    split; [by rewrite Hkeys |].
    apply set_eq. intros x. rewrite !elem_of_list_to_set. by rewrite Hkeys.
  - intros c input Hin Hreq.
    assert (Hinput : ∃ name', input =
              createLoadBalancerInput name' (IgnoreAws (Get tags d)) (Set_name name' d)).
    { destruct (resourceAwsLbCreate_runs env w d)
        as (pre & name' & r & rest & Hpre & Hc & Hrest).
      rewrite Hc in Hin. apply in_app_or in Hin as [Hin | [<- | Hin]].
      - destruct Hpre as [-> | (p & x & ->)]; [destruct Hin |].
        destruct Hin as [<- | []]. discriminate.
      - cbn in Hreq. injection Hreq as <-. eauto.
      - destruct Hrest as [-> | (arn & r2 & rest2 & -> & Hrest2)]; [destruct Hin |].
        destruct Hin as [<- | Hin]; [discriminate |].
        destruct Hrest2 as [-> | (w2 & ->)]; [destruct Hin |].
        apply resourceAwsLbUpdate_no_createRequest in Hin. congruence. }
    destruct Hinput as [name' ->].
    unfold createLoadBalancerInput, GetOk_set, GetOk_list, Get, expandStringSet. cbn.
    destruct (decide (subnets (new d) = ∅)) as [E | E]; cbn.
    + rewrite E, elements_empty.
      destruct (subnet_mapping (new d)) as [| m ms]; cbn; repeat split; done.
    + assert (Hne : elements (subnets (new d)) ≠ []).
      { intros H. apply E. apply leibniz_equiv. by apply elements_empty_inv. }
      destruct (subnet_mapping (new d)) as [| m ms]; cbn; repeat split; done.
Qed.


(** ** The patterns *)

#[local] Arguments String.append !_ _ / : simpl nomatch.

Lemma append_nil_r (s : string) : s ++ "" = s.
Proof. induction s as [| c s IH]; simpl; [reflexivity | by rewrite IH]. Qed.

Lemma append_assoc (s1 s2 s3 : string) : (s1 ++ s2) ++ s3 = s1 ++ s2 ++ s3.
Proof. induction s1 as [| c s1 IH]; simpl; [reflexivity | by rewrite IH]. Qed.

Lemma length_append (s1 s2 : string) :
  String.length (s1 ++ s2) = (String.length s1 + String.length s2)%nat.
Proof. induction s1 as [| c s1 IH]; simpl; [reflexivity | by rewrite IH]. Qed.

Lemma substring_append (s1 s2 : string) : substring 0 (String.length s1) (s1 ++ s2) = s1.
Proof. induction s1 as [| c s1 IH]; simpl; [by destruct s2 | by rewrite IH]. Qed.

Lemma consumed_append (pre rest : string) : regexp.consumed (pre ++ rest) rest = pre.
Proof.
  unfold regexp.consumed. rewrite length_append.
  replace (String.length pre + String.length rest - String.length rest)%nat
    with (String.length pre) by lia.
  apply substring_append.
Qed.

Lemma stripPrefix_Some (p s rest : string) :
  regexp.stripPrefix p s = Some rest <-> s = p ++ rest.
Proof.
  revert s. induction p as [| a p IH]; intros s; cbn.
  - split; [by intros [= ->] | by intros ->].
  - destruct s as [| b s]; [split; discriminate |].
    destruct (Ascii.eqb_spec a b) as [-> | Hne].
    + rewrite IH. split; [by intros -> | by intros [= ->]].
    + split; [discriminate | intros [= E _]; by destruct Hne].
Qed.

Lemma contains_append (sub pre post : string) : contains sub (pre ++ sub ++ post) = true.
Proof.
  induction pre as [| c pre IH]; cbn.
  - assert (H : regexp.stripPrefix sub (sub ++ post) = Some post)
      by by apply stripPrefix_Some.
    destruct (sub ++ post); cbn; cbn in H; by rewrite H.
  - destruct (regexp.stripPrefix sub (String c (pre ++ sub ++ post))); [reflexivity | exact IH].
Qed.

(** The matcher finds only matches. *)
Lemma many_sound {R : Type} (class : ascii -> bool) (s : string)
    (k : string -> option R) (x : R) :
  regexp.many class s k = Some x ->
  ∃ pre rest, s = pre ++ rest ∧ allChars class pre = true ∧ k rest = Some x.
Proof.
  induction s as [| c s IH]; cbn; intros H.
  - by exists "", "".
  - destruct (class c) eqn:Ec.
    + destruct (regexp.many class s k) as [y |] eqn:Em.
      * injection H as ->. destruct (IH eq_refl) as (pre & rest & -> & Hpre & Hk).
        exists (String c pre), rest. cbn. by rewrite Ec, Hpre.
      * by exists "", (String c s).
    + by exists "", (String c s).
Qed.

Lemma exec_sound {R : Type} (r : regexp.Regexp) (s : string) (caps : list string)
    (k : string -> list string -> option R) (x : R) :
  regexp.exec r s caps k = Some x ->
  ∃ pre rest caps', s = pre ++ rest ∧ matchesAt r pre rest caps caps' ∧ k rest caps' = Some x.
Proof.
  revert s caps k. induction r as [text | class | class | r1 IH | r1 IH1 r2 IH2 |];
    intros s caps k; cbn [regexp.exec matchesAt]; intros H.
  - destruct (regexp.stripPrefix text s) as [rest |] eqn:E; [| discriminate].
    apply stripPrefix_Some in E. exists text, rest, caps. by repeat split.
  - apply many_sound in H as (pre & rest & -> & Hpre & Hk).
    exists pre, rest, caps. by repeat split.
  - destruct s as [| c s]; [discriminate |].
    destruct (class c) eqn:Ec; [| discriminate].
    apply many_sound in H as (pre & rest & -> & Hpre & Hk).
    exists (String c pre), rest, caps. cbn. rewrite Ec, Hpre. by repeat split.
  - apply IH in H as (pre & rest & mid & -> & Hm & Hk).
    rewrite consumed_append in Hk. exists pre, rest, (mid ++ [pre])%list.
    split; [reflexivity |]. split; [| exact Hk]. by exists mid.
  - apply IH1 in H as (p1 & rest1 & mid & -> & Hm1 & Hk).
    apply IH2 in Hk as (p2 & rest & caps' & -> & Hm2 & Hk).
    exists (p1 ++ p2), rest, caps'. rewrite append_assoc.
    split; [reflexivity |]. split; [| exact Hk]. by exists p1, p2, mid.
  - destruct s; [| discriminate]. exists "", "", caps. by repeat split.
Qed.

Lemma matchAt_sound (r : regexp.Regexp) (s : string) (m : list string) (rest : string) :
  regexp.matchAt r s = Some (m, rest) ->
  ∃ pre caps, s = pre ++ rest ∧ matchesAt r pre rest [] caps ∧ m = pre :: caps.
Proof.
  unfold regexp.matchAt. intros H.
  apply exec_sound in H as (pre & rest' & caps & -> & Hm & [= <- <-]).
  exists pre, caps. rewrite consumed_append. by repeat split.
Qed.

Lemma search_sound (r : regexp.Regexp) (s : string) (m : list string) (rest : string) :
  regexp.search r s = Some (m, rest) ->
  ∃ skipped s', s = skipped ++ s' ∧ regexp.matchAt r s' = Some (m, rest).
Proof.
  induction s as [| c s IH]; cbn [regexp.search].
  - destruct (regexp.matchAt r "") as [m' |] eqn:E; [| discriminate].
    intros [= ->]. by exists "", "".
  - destruct (regexp.matchAt r (String c s)) as [m' |] eqn:E.
    + intros [= ->]. by exists "", (String c s).
    + intros H. destruct (IH H) as (skipped & s' & -> & Hm).
      by exists (String c skipped), s'.
Qed.

(** The matcher finds a match where there is one. *)
Lemma many_continues {R : Type} (class : ascii -> bool) (s : string)
    (k : string -> option R) :
  is_Some (k s) -> is_Some (regexp.many class s k).
Proof.
  intros Hk. destruct s as [| c s]; cbn; [exact Hk |].
  destruct (class c); [| exact Hk].
  destruct (regexp.many class s k); [eauto | exact Hk].
Qed.

Lemma many_complete {R : Type} (class : ascii -> bool) (pre rest : string)
    (k : string -> option R) :
  allChars class pre = true -> is_Some (k rest) -> is_Some (regexp.many class (pre ++ rest) k).
Proof.
  intros Hpre Hk. induction pre as [| c pre IH]; cbn.
  - by apply many_continues.
  - cbn in Hpre. apply andb_true_iff in Hpre as [-> Hpre].
    destruct (IH Hpre) as [y ->]. eauto.
Qed.

Lemma search_complete (r : regexp.Regexp) (skipped s : string) :
  is_Some (regexp.matchAt r s) -> is_Some (regexp.search r (skipped ++ s)).
Proof.
  intros Hm. induction skipped as [| c skipped IH]; cbn [append regexp.search].
  - destruct s; cbn [regexp.search]; destruct Hm as [m ->]; eauto.
  - destruct (regexp.matchAt r (String c (skipped ++ s))); [eauto | exact IH].
Qed.


Lemma plus_complete {R : Type} (class : ascii -> bool) (pre rest : string)
    (caps : list string) (k : string -> list string -> option R) :
  pre ≠ "" -> allChars class pre = true -> is_Some (k rest caps) ->
  is_Some (regexp.exec (regexp.Plus class) (pre ++ rest) caps k).
Proof.
  intros Hne Hpre Hk. destruct pre as [| c pre]; [contradiction |].
  simpl in *. apply andb_true_iff in Hpre as [-> Hpre].
  by apply many_complete.
Qed.

Lemma lit_complete {R : Type} (text rest : string)
    (caps : list string) (k : string -> list string -> option R) :
  is_Some (k rest caps) -> is_Some (regexp.exec (regexp.Lit text) (text ++ rest) caps k).
Proof.
  intros Hk. cbn [regexp.exec].
  by rewrite (proj2 (stripPrefix_Some text (text ++ rest) rest) eq_refl).
Qed.

Lemma exec_Cat {R : Type} (r1 r2 : regexp.Regexp) (s : string) (caps : list string)
    (k : string -> list string -> option R) :
  regexp.exec (regexp.Cat r1 r2) s caps k =
  regexp.exec r1 s caps (fun rest caps' => regexp.exec r2 rest caps' k).
Proof. reflexivity. Qed.

Lemma exec_Group {R : Type} (r1 : regexp.Regexp) (s : string) (caps : list string)
    (k : string -> list string -> option R) :
  regexp.exec (regexp.Group r1) s caps k =
  regexp.exec r1 s caps
    (fun rest caps' => k rest (caps' ++ [regexp.consumed s rest])%list).
Proof. reflexivity. Qed.

(** What a match of the pattern of [getLbNameFromArn] is. *)
Lemma lbNameRegexp_search (arn : string) (m : list string) (rest : string) :
  regexp.search lbNameRegexp arn = Some (m, rest) ->
  ∃ pre name, arn = pre ++ name ∧ threeSegments name ∧ m = [name; name] ∧ rest = "".
Proof.
  intros H. apply search_sound in H as (skipped & s' & -> & H).
  apply matchAt_sound in H as (pre & caps & -> & Hm & ->).
  unfold lbNameRegexp in Hm. cbn [matchesAt] in Hm.
  destruct Hm as (p1 & p2 & mid & -> & (mid0 & Hg & ->) & -> & -> & ->).
  destruct Hg as (a & q1 & c1 & -> & (Ha & Hane & ->) & Hg).
  destruct Hg as (l1 & q2 & c2 & -> & (-> & ->) & Hg).
  destruct Hg as (b & q3 & c3 & -> & (Hb & Hbne & ->) & Hg).
  destruct Hg as (l2 & c & c4 & -> & (-> & ->) & (Hc & Hcne & ->)).
  rewrite !append_nil_r.
  exists skipped, (a ++ "/" ++ b ++ "/" ++ c).
  split; [reflexivity |]. split; [| by split].
  exists a, b, c. by repeat split.
Qed.

Lemma lbNameRegexp_matchAt (a b c : string) :
  segment a -> segment b -> segment c ->
  is_Some (regexp.matchAt lbNameRegexp (a ++ "/" ++ b ++ "/" ++ c)).
Proof.
  intros [Hane Ha] [Hbne Hb] [Hcne Hc].
  unfold regexp.matchAt, lbNameRegexp. rewrite exec_Cat, exec_Group, exec_Cat.
  apply plus_complete; [done | done |]. cbn beta. rewrite exec_Cat.
  apply lit_complete. cbn beta. rewrite exec_Cat.
  apply plus_complete; [done | done |]. cbn beta. rewrite exec_Cat.
  apply lit_complete. cbn beta.
  rewrite <- (append_nil_r c) at 1.
  apply plus_complete; [done | done |]. cbn. eauto.
Qed.

Lemma getLbNameFromArn_Ok (arn name : string) :
  getLbNameFromArn arn = Ok name -> ∃ pre, arn = pre ++ name ∧ threeSegments name.
Proof.
  unfold getLbNameFromArn, regexp.FindStringSubmatch.
  destruct (regexp.search lbNameRegexp arn) as [[m rest] |] eqn:E; [| discriminate].
  apply lbNameRegexp_search in E as (pre & name' & -> & Hname & -> & _).
  intros [= <-]. eauto.
Qed.

Lemma getLbNameFromArn_succeeds (arn : string) :
  endsInThreeSegments arn -> ∃ name, getLbNameFromArn arn = Ok name.
Proof.
  intros (pre & name & -> & a & b & c & -> & Ha & Hb & Hc).
  destruct (search_complete lbNameRegexp pre _ (lbNameRegexp_matchAt a b c Ha Hb Hc))
    as [[m rest] E].
  unfold getLbNameFromArn, regexp.FindStringSubmatch. rewrite E.
  apply lbNameRegexp_search in E as (pre' & name' & _ & _ & -> & _). eauto.
Qed.

Lemma getLbNameFromArn_Err (arn : string) (e : error) :
  getLbNameFromArn arn = Err e -> e = Errorf "Unexpected ARN format: %q" [arn] None.
Proof.
  unfold getLbNameFromArn.
  destruct (regexp.FindStringSubmatch lbNameRegexp arn) as [| whole [| name' [| x l]]];
    congruence.
Qed.

(** What a match of the pattern of [lbSuffixFromARN] needs. *)
Lemma lbSuffixRegexp_search (arn : string) :
  contains ":loadbalancer/" arn = false -> regexp.search lbSuffixRegexp arn = None.
Proof.
  intros Hno. destruct (regexp.search lbSuffixRegexp arn) as [[m rest] |] eqn:E;
    [| reflexivity].
  exfalso. apply search_sound in E as (skipped & s' & -> & H).
  apply matchAt_sound in H as (pre & caps & -> & Hm & ->).
  unfold lbSuffixRegexp in Hm. cbn [matchesAt] in Hm.
  destruct Hm as (p1 & q1 & c1 & -> & (-> & ->) & Hm).
  destruct Hm as (x & q2 & c2 & -> & (Hx & ->) & Hm).
  destruct Hm as (p3 & y & c3 & -> & (-> & ->) & _).
  pose proof (contains_append ":loadbalancer/" (skipped ++ "arn:" ++ x) (y ++ rest)) as Hc.
  repeat rewrite append_assoc in Hno. repeat rewrite append_assoc in Hc. congruence.
Qed.

Lemma lbSuffixFromARN_no_match (arn : string) :
  contains ":loadbalancer/" arn = false -> lbSuffixFromARN (Some arn) = "".
Proof.
  intros Hno. unfold lbSuffixFromARN, regexp.FindAllStringSubmatch.
  cbn [regexp.allMatches]. by rewrite (lbSuffixRegexp_search arn Hno).
Qed.


Lemma contains_inv (sub s : string) :
  contains sub s = true -> ∃ pre post, s = pre ++ sub ++ post.
Proof.
  induction s as [| c s IH]; cbn [contains].
  - destruct (regexp.stripPrefix sub "") as [post |] eqn:E; [| discriminate].
    apply stripPrefix_Some in E. intros _. by exists "", post.
  - destruct (regexp.stripPrefix sub (String c s)) as [post |] eqn:E.
    + apply stripPrefix_Some in E. intros _. by exists "", post.
    + intros H. destruct (IH H) as (pre & post & ->). by exists (String c pre), post.
Qed.

Lemma contains_loadbalancer (arn : string) :
  contains "loadbalancer/" arn = false -> contains ":loadbalancer/" arn = false.
Proof.
  intros Hno. destruct (contains ":loadbalancer/" arn) eqn:E; [| reflexivity].
  apply contains_inv in E as (pre & post & ->).
  pose proof (contains_append "loadbalancer/" (pre ++ ":") post) as Hc.
  repeat rewrite append_assoc in Hc. simpl in Hc. simpl in Hno. congruence.
Qed.

(** C3 (as amended).  From the identity
    arn:partition:service:region:account:loadbalancer/app/my-lb/abcdef0123456789
    both extractions yield app/my-lb/abcdef0123456789.  [lbSuffixFromARN]
    has no error result: for nil, and for every identifier without the
    text loadbalancer/, it returns the empty string.  [getLbNameFromArn]
    does not look for loadbalancer/: it succeeds exactly on the identifiers
    that end in three non-empty segments separated by slashes, returning
    three such segments at the end of the identifier, and fails with the
    error "Unexpected ARN format" on every other identifier. *)
Theorem arn_suffix_extraction :
  let example :=
    "arn:partition:service:region:account:loadbalancer/app/my-lb/abcdef0123456789" in
  getLbNameFromArn example = Ok "app/my-lb/abcdef0123456789" ∧
  lbSuffixFromARN (Some example) = "app/my-lb/abcdef0123456789" ∧
  lbSuffixFromARN None = "" ∧
  (∀ arn, contains "loadbalancer/" arn = false -> lbSuffixFromARN (Some arn) = "") ∧
  (∀ arn, (∃ name, getLbNameFromArn arn = Ok name) <-> endsInThreeSegments arn) ∧
  (∀ arn name, getLbNameFromArn arn = Ok name ->
     ∃ pre, arn = pre ++ name ∧ threeSegments name) ∧
  (∀ arn e, getLbNameFromArn arn = Err e ->
     e = Errorf "Unexpected ARN format: %q" [arn] None ∧ ¬ endsInThreeSegments arn).
Proof.
  cbv zeta. split; [vm_compute; reflexivity |]. split; [vm_compute; reflexivity |].
  split; [reflexivity |]. split.
  { intros arn Hno. by apply lbSuffixFromARN_no_match, contains_loadbalancer. }
  split.
  { intros arn. split.
    - intros [name H]. apply getLbNameFromArn_Ok in H as (pre & -> & Hname).
      by exists pre, name.
    - apply getLbNameFromArn_succeeds. }
  split; [apply getLbNameFromArn_Ok |].
  intros arn e H. split; [by apply getLbNameFromArn_Err |].
  intros Hends. apply getLbNameFromArn_succeeds in Hends as [name Hname]. congruence.
Qed.

(** C3, the claim as stated fails: the identifier a/b/c has no
    loadbalancer/ segment, and [getLbNameFromArn] succeeds on it, while
    [lbSuffixFromARN] returns the empty string, which is not an error. *)
Lemma arn_without_loadbalancer_segment :
  contains "loadbalancer/" "a/b/c" = false ∧
  getLbNameFromArn "a/b/c" = Ok "a/b/c" ∧
  lbSuffixFromARN (Some "a/b/c") = "".
Proof. split; [| split]; vm_compute; reflexivity. Qed.


(* =================================================================== *)
(** * Further properties *)
(* =================================================================== *)

(** ** Read *)

(** X1.  When the description of the load balancer answers an error that
    [isLoadBalancerNotFound] recognises, Read returns nil, clears the
    identity and leaves the old and the new values as they were; it logs
    one WARN line and makes no other call. *)
Theorem resourceAwsLbRead_not_found (env : Env) (w : World env) (d : ResourceData)
    (err : error) :
  fst (respond env _ (DescribeLoadBalancers [Id d]) w) = Err err ->
  isLoadBalancerNotFound err = true ->
  resultOf env (resourceAwsLbRead d) w = (SetId "" d, None) ∧
  callsOf env (resourceAwsLbRead d) w =
    [Called (DescribeLoadBalancers [Id d]) (Err err);
     Called (logWarn "[WARN] ALB %s not found in AWS, removing from state" [Id d] None) tt].
Proof.
  intros Hanswer Hnf. unfold resultOf, callsOf, resourceAwsLbRead. cbn.
  destruct (respond env _ (DescribeLoadBalancers [Id d]) w) as [x w0]. cbn in *. subst x.
  rewrite Hnf. cbn. destruct (respond env unit _ w0) as [[] w1]. split; reflexivity.
Qed.

(** X2.  When the description fails with any other error, or returns no
    record or several, Read returns an error and leaves the resource data
    exactly as it was; the description is its only call. *)
Theorem resourceAwsLbRead_fails_unchanged (env : Env) (w : World env) (d : ResourceData) :
  let answer := fst (respond env _ (DescribeLoadBalancers [Id d]) w) in
  (∀ lb, answer ≠ Ok [lb]) ->
  (∀ err, answer = Err err -> isLoadBalancerNotFound err = false) ->
  fst (resultOf env (resourceAwsLbRead d) w) = d ∧
  snd (resultOf env (resourceAwsLbRead d) w) =
    Some (match answer with
          | Err err => Errorf "Error retrieving ALB: %s" [] (Some err)
          | Ok _ => Errorf "Unable to find ALB: %#v" [] None
          end) ∧
  callsOf env (resourceAwsLbRead d) w = [Called (DescribeLoadBalancers [Id d]) answer].
Proof.
  cbv zeta. intros Hnot Hother. unfold resultOf, callsOf, resourceAwsLbRead. cbn.
  destruct (respond env _ (DescribeLoadBalancers [Id d]) w) as [x w0]. cbn in *.
  destruct x as [[| lb [| lb2 lbs]] | err]; cbn.
  - by repeat split.
  - by destruct (Hnot lb).
  - by repeat split.
  - rewrite (Hother err eq_refl). cbn. by repeat split.
Qed.

Lemma flattenAttributes_frame (attributes : list elbv2.LoadBalancerAttribute)
    (accessLogMap : AccessLogs) (d : ResourceData) :
  let d' := fst (flattenAttributes attributes accessLogMap d) in
  Id d' = Id d ∧ old d' = old d ∧ IsNewResource d' = IsNewResource d ∧ Timeout d' = Timeout d.
Proof.
  cbv zeta. revert accessLogMap d.
  induction attributes as [| attr rest IH]; intros accessLogMap d; [by repeat split |].
  cbn [flattenAttributes].
  repeat (destruct (String.eqb _ _)); try (destruct (strconv.Atoi _));
    first
      [ by repeat split
      | match goal with
        | |- context [flattenAttributes rest ?a ?dd] =>
            destruct (IH a dd) as (H1 & H2 & H3 & H4); rewrite H1, H2, H3, H4; by repeat split
        end ].
Qed.

Lemma flattenAwsLbResource_frame (env : Env) (w : World env) (d : ResourceData)
    (lb : elbv2.LoadBalancer) :
  let d' := fst (resultOf env (flattenAwsLbResource d lb) w) in
  Id d' = Id d ∧ old d' = old d ∧ IsNewResource d' = IsNewResource d ∧ Timeout d' = Timeout d.
Proof.
  cbv zeta. unfold resultOf, flattenAwsLbResource. cbn. answer.
  destruct x as [tags0 | err]; cbn; [| by repeat split].
  answer. destruct x as [attributes | err]; cbn; [| by repeat split].
  pose proof (flattenAttributes_frame attributes
                {| bucket := ""; prefix := ""; enabled := false |}
                (Set_tags (IgnoreConfig (IgnoreAws tags0)) (flattenLoadBalancer lb d))) as H.
  destruct (flattenAttributes _ _ _) as [d' [alm | err]]; cbn in *; exact H.
Qed.

Lemma resourceAwsLbRead_frame (env : Env) (w : World env) (d : ResourceData) :
  let d' := fst (resultOf env (resourceAwsLbRead d) w) in
  (Id d' = Id d ∨ Id d' = "") ∧
  old d' = old d ∧ IsNewResource d' = IsNewResource d ∧ Timeout d' = Timeout d.
Proof.
  cbv zeta. unfold resultOf, resourceAwsLbRead. cbn. answer.
  destruct x as [[| lb [| lb2 lbs]] | err]; cbn; try (split; [by left | by repeat split]).
  - pose proof (flattenAwsLbResource_frame env w0 d lb) as H. cbv zeta in H.
    unfold resultOf in H.
    destruct (run env (flattenAwsLbResource d lb) w0) as [[r cs] w1]. cbn in *.
    destruct H as (H1 & H2 & H3 & H4). split; [by left | by repeat split].
  - destruct (isLoadBalancerNotFound err); cbn.
    + answer. split; [by right | by repeat split].
    + split; [by left | by repeat split].
Qed.

(** X3.  Read and Update never change the old values, the new-resource flag
    or the timeouts of the resource data, and they leave the identity as it
    was or clear it. *)
Theorem read_update_keep_identity (env : Env) (w : World env) (d : ResourceData) :
  let r := fst (resultOf env (resourceAwsLbRead d) w) in
  let u := fst (resultOf env (resourceAwsLbUpdate d) w) in
  ((Id r = Id d ∨ Id r = "") ∧
   old r = old d ∧ IsNewResource r = IsNewResource d ∧ Timeout r = Timeout d) ∧
  ((Id u = Id d ∨ Id u = "") ∧
   old u = old d ∧ IsNewResource u = IsNewResource d ∧ Timeout u = Timeout d).
Proof.
  cbv zeta. split; [apply resourceAwsLbRead_frame |].
  destruct (resourceAwsLbUpdate_runs env w d)
    as [(done & e & wrap & err & rest & _ & _ & ->) | (w1 & _ & ->)].
  { cbn. split; [by left | by repeat split]. }
  unfold resultOf, waitActiveThenRead. cbn. answer.
  destruct x as [err |]; cbn; [split; [by left | by repeat split] |].
  pose proof (resourceAwsLbRead_frame env w0 d) as H. cbv zeta in H. unfold resultOf in H.
  destruct (run env (resourceAwsLbRead d) w0) as [[r cs] w2]. exact H.
Qed.

Lemma flattenAttributes_accessLogs (attributes : list elbv2.LoadBalancerAttribute)
    (accessLogMap accessLogMap' : AccessLogs) (d : ResourceData) :
  Forall (fun a => isAccessLogsAttribute a = false) attributes ->
  snd (flattenAttributes attributes accessLogMap d) = Ok accessLogMap' ->
  accessLogMap' = accessLogMap.
Proof.
  intros Hno. revert accessLogMap d.
  induction Hno as [| attr rest Ha _ IH]; intros accessLogMap d; cbn [flattenAttributes].
  - by intros [= ->].
  - unfold isAccessLogsAttribute in Ha.
    destruct (String.eqb_spec (aws.StringValue (elbv2.Key attr)) "access_logs.s3.enabled")
      as [E | _]; [rewrite E in Ha; discriminate |].
    destruct (String.eqb_spec (aws.StringValue (elbv2.Key attr)) "access_logs.s3.bucket")
      as [E | _]; [rewrite E in Ha; discriminate |].
    destruct (String.eqb_spec (aws.StringValue (elbv2.Key attr)) "access_logs.s3.prefix")
      as [E | _]; [rewrite E in Ha; discriminate |].
    repeat (destruct (String.eqb _ _)); try (destruct (strconv.Atoi _));
      first [ discriminate | apply IH ].
Qed.

(** X4.  A Read that returns nil either found the load balancer gone (and
    cleared the identity) or leaves exactly one [access_logs] block in the
    resource data, whatever the configuration had.  The block holds what the
    access log attributes of the remote side say; when the remote side
    lists none, the attribute loop leaves the block it started from, which
    Read starts disabled with empty bucket and prefix. *)
Theorem resourceAwsLbRead_access_logs (env : Env) (w : World env) (d : ResourceData) :
  (snd (resultOf env (resourceAwsLbRead d) w) = None ->
   fst (resultOf env (resourceAwsLbRead d) w) = SetId "" d ∨
   ∃ log, Get access_logs (fst (resultOf env (resourceAwsLbRead d) w)) = [Some log]) ∧
  (∀ attributes accessLogMap accessLogMap' d0,
     Forall (fun a => isAccessLogsAttribute a = false) attributes ->
     snd (flattenAttributes attributes accessLogMap d0) = Ok accessLogMap' ->
     accessLogMap' = accessLogMap).
Proof.
  split; [| intros; by eapply flattenAttributes_accessLogs].
  unfold resultOf, resourceAwsLbRead. cbn. answer.
  destruct x as [[| lb [| lb2 lbs]] | err]; cbn; try discriminate.
  - unfold flattenAwsLbResource. cbn. answer.
    destruct x as [tags0 | err]; cbn; [| discriminate].
    answer. destruct x as [attributes | err]; cbn; [| discriminate].
    destruct (flattenAttributes _ _ _) as [d' [alm | err]]; cbn; [| discriminate].
    intros _. right. by exists alm.
  - destruct (isLoadBalancerNotFound err); cbn; [| discriminate].
    answer. intros _. by left.
Qed.

(** X5.  The attribute loop of Read skips an attribute whose key it does
    not know: with or without it in the list the remote side describes, the
    result is the same. *)
Theorem flattenAttributes_unknown_key (l1 l2 : list elbv2.LoadBalancerAttribute)
    (a : elbv2.LoadBalancerAttribute) (accessLogMap : AccessLogs) (d : ResourceData) :
  knownAttributeKey (aws.StringValue (elbv2.Key a)) = false ->
  flattenAttributes (l1 ++ a :: l2) accessLogMap d = flattenAttributes (l1 ++ l2) accessLogMap d.
Proof.
  intros Hunknown. revert accessLogMap d.
  induction l1 as [| b l1 IH]; intros accessLogMap d.
  - cbn [app flattenAttributes].
    unfold knownAttributeKey, knownAttributeKeys in Hunknown. cbn [existsb] in Hunknown.
    repeat (apply orb_false_iff in Hunknown as [?H Hunknown]).
    repeat match goal with
           | H : String.eqb ?k ?c = false |- context [String.eqb ?k ?c] => rewrite H
           end.
    reflexivity.
  - cbn [app flattenAttributes].
    repeat (destruct (String.eqb _ _)); try (destruct (strconv.Atoi _)); try apply IH;
      reflexivity.
Qed.

(** ** Update: failures and order *)

Lemma updateSteps_not_failed (d : ResourceData) :
  Forall (fun s => failed (Called (fst s) None) = false) (updateSteps d).
Proof.
  apply Forall_forall. intros s Hs. apply list_elem_of_In in Hs.
  apply updateSteps_cases in Hs as [[_ E] | [[_ E] | [[_ E] | [(_ & _ & E) | [_ E]]]]];
    rewrite E; reflexivity.
Qed.

Lemma okCalls_not_failed (steps : list (apiE (option error) * (error -> error))) :
  Forall (fun s => failed (Called (fst s) None) = false) steps ->
  Forall (fun c => failed c = false) (okCalls steps).
Proof. intros H. unfold okCalls. by apply Forall_map. Qed.

(** In a list that ends with the only element of its kind, an element of
    this kind is the last one. *)
Lemma only_last {A : Type} (P : A -> bool) (l pre post : list A) (x c : A) :
  Forall (fun a => P a = false) l ->
  (pre ++ c :: post = l ++ [x])%list ->
  P c = true ->
  post = [] ∧ pre = l ∧ c = x.
Proof.
  intros Hl. revert pre. induction Hl as [| a l Ha _ IH]; intros pre E Hc.
  - destruct pre as [| b pre]; cbn in E.
    + injection E as -> ->. by repeat split.
    + injection E as _ E. by destruct pre.
  - destruct pre as [| b pre]; cbn in E.
    + injection E as -> _. congruence.
    + injection E as -> E. destruct (IH pre E Hc) as (-> & -> & ->). by repeat split.
Qed.

(** X6.  Update stops at the first mutating call that answers an error:
    that call is the last call it makes (no wait, no read), every call
    before it succeeded, and Update returns an error with the resource data
    as it received them. *)
Theorem resourceAwsLbUpdate_stops_at_failure (env : Env) (w : World env) (d : ResourceData)
    (pre post : list called) (c : called) :
  callsOf env (resourceAwsLbUpdate d) w = (pre ++ c :: post)%list ->
  isMutation c = true ->
  failed c = true ->
  post = [] ∧
  Forall (fun c' => isMutation c' = true ∧ failed c' = false) pre ∧
  fst (resultOf env (resourceAwsLbUpdate d) w) = d ∧
  snd (resultOf env (resourceAwsLbUpdate d) w) ≠ None.
Proof.
  intros Hcalls Hmut Hfailed.
  assert (Hboth : isMutation c && failed c = true) by by rewrite Hmut, Hfailed.
  destruct (resourceAwsLbUpdate_runs env w d)
    as [(done & e & wrap & err & rest & Hsteps & Hc & Hr) | (w1 & Hc & _)].
  - pose proof (updateSteps_not_failed d) as Hnf.
    pose proof (updateSteps_mutations d None) as Hm.
    rewrite Hsteps in Hnf, Hm.
    apply Forall_app in Hnf as [Hnf _]. apply Forall_app in Hm as [Hm _].
    rewrite Hc in Hcalls. symmetry in Hcalls.
    destruct (only_last (fun c => isMutation c && failed c) (okCalls done) pre post
                (Called e (Some err)) c)
      as (-> & -> & ->); [| exact Hcalls | exact Hboth |].
    { unfold okCalls. apply Forall_map. eapply Forall_impl; [exact Hnf |].
      cbn. intros s ->. apply andb_false_r. }
    rewrite Hr. split; [reflexivity |]. split; [| by split].
    unfold okCalls. apply Forall_map.
    apply Forall_forall. intros s Hs.
    rewrite Forall_forall in Hnf, Hm. split; [by apply Hm | by apply Hnf].
  - exfalso.
    assert (Hin : In c (callsOf env (resourceAwsLbUpdate d) w)).
    { rewrite Hcalls. apply in_or_app. right. by left. }
    rewrite Hc in Hin. apply in_app_or in Hin as [Hin | Hin].
    + pose proof (okCalls_not_failed _ (updateSteps_not_failed d)) as H.
      rewrite Forall_forall in H. apply list_elem_of_In in Hin. apply H in Hin. congruence.
    + destruct (waitActiveThenRead_calls env w1 d) as (r & rest & Hw & Hrest & _).
      rewrite Hw in Hin. destruct Hin as [<- | Hin]; [discriminate |].
      rewrite Forall_forall in Hrest. apply list_elem_of_In in Hin. apply Hrest in Hin.
      congruence.
Qed.

Lemma stepRank_answer {X : Type} (e : apiE X) (x y : X) :
  stepRank (Called e x) = stepRank (Called e y).
Proof. destruct e; reflexivity. Qed.

Lemma stepRank_mutation (c : called) : isMutation c = false -> stepRank c = None.
Proof. destruct c as [X e x]. destruct e; cbn; congruence. Qed.

Lemma stepRank_okCalls (steps : list (apiE (option error) * (error -> error))) :
  omap stepRank (okCalls steps) = omap (fun s => stepRank (Called (fst s) None)) steps.
Proof.
  unfold okCalls. induction steps as [| s steps IH]; [reflexivity |].
  cbn. rewrite IH. reflexivity.
Qed.

Lemma omap_not_mutation (calls : list called) :
  Forall (fun c => isMutation c = false) calls -> omap stepRank calls = [].
Proof.
  induction 1 as [| c calls Hc _ IH]; [reflexivity |].
  cbn. by rewrite (stepRank_mutation c Hc), IH.
Qed.

Lemma updateSteps_ranks (d : ResourceData) :
  StronglySorted lt (omap (fun s => stepRank (Called (fst s) None)) (updateSteps d)).
Proof.
  unfold updateSteps.
  destruct (HasChange tags d), (negb (length (updateAttributes d) =? 0)%nat),
    (HasChange security_groups d), (HasChange subnets d && negb (IsNewResource d)),
    (HasChange ip_address_type d); cbn; repeat constructor.
Qed.

Lemma isMutation_answer {X : Type} (e : apiE X) (x y : X) :
  isMutation (Called e x) = isMutation (Called e y).
Proof. destruct e; reflexivity. Qed.

(** X7.  Whatever the remote side answers, the mutating calls of an Update
    come first and in one order: the tag update, the attribute
    modification, the security groups, the subnets, the IP address type,
    each at most once.  Every call after them (the wait, the read) leaves
    the remote side as it is. *)
Theorem resourceAwsLbUpdate_order (env : Env) (w : World env) (d : ResourceData) :
  StronglySorted lt (omap stepRank (callsOf env (resourceAwsLbUpdate d) w)) ∧
  ∃ steps tail,
    callsOf env (resourceAwsLbUpdate d) w = (steps ++ tail)%list ∧
    Forall (fun c => is_Some (stepRank c)) steps ∧
    Forall (fun c => isMutation c = false) tail.
Proof.
  pose proof (updateSteps_ranks d) as Hsorted.
  assert (Hranked : Forall (fun s => is_Some (stepRank (Called (fst s) None))) (updateSteps d)).
  { apply Forall_forall. intros s Hs. apply list_elem_of_In in Hs.
    apply updateSteps_cases in Hs as [[_ E] | [[_ E] | [[_ E] | [(_ & _ & E) | [_ E]]]]];
      rewrite E; cbn; eauto. }
  destruct (resourceAwsLbUpdate_runs env w d)
    as [(done & e & wrap & err & rest & Hsteps & Hc & _) | (w1 & Hc & _)].
  - rewrite Hsteps in Hsorted, Hranked.
    replace (done ++ (e, wrap) :: rest)%list with ((done ++ [(e, wrap)]) ++ rest)%list
      in Hsorted, Hranked by by rewrite <- app_assoc.
    apply Forall_app in Hranked as [Hranked _].
    rewrite omap_app in Hsorted. apply StronglySorted_app_1_l in Hsorted.
    split.
    + rewrite Hc, omap_app, stepRank_okCalls.
      rewrite omap_app in Hsorted.
      replace (omap stepRank [Called e (Some err)])
        with (omap (fun s => stepRank (Called (fst s) None)) [(e, wrap)]); [exact Hsorted |].
      change (match stepRank (Called e None) with Some y => [y] | None => [] end
              = match stepRank (Called e (Some err)) with Some y => [y] | None => [] end).
      by rewrite (stepRank_answer e None (Some err)).
    + exists (okCalls done ++ [Called e (Some err)])%list, [].
      split; [by rewrite app_nil_r |]. split; [| constructor].
      apply Forall_app in Hranked as [Hdone He]. apply Forall_app. split.
      * unfold okCalls. by apply Forall_map.
      * apply Forall_cons in He as [He _]. cbn [fst] in He.
        rewrite (stepRank_answer e None (Some err)) in He. by repeat constructor.
  - split.
    + destruct (waitActiveThenRead_calls env w1 d) as (r & rest & Hw & Hrest & _).
      rewrite Hc, omap_app, stepRank_okCalls, omap_not_mutation, app_nil_r; [exact Hsorted |].
      rewrite Hw. by constructor.
    + exists (okCalls (updateSteps d)), (callsOf env (waitActiveThenRead d) w1).
      split; [exact Hc |]. split.
      * unfold okCalls. by apply Forall_map.
      * destruct (waitActiveThenRead_calls env w1 d) as (r & rest & Hw & Hrest & _).
        rewrite Hw. by constructor.
Qed.

(** ** Create: the name and the identity *)

Lemma resourceAwsLbRead_kinds (env : Env) (w : World env) (d : ResourceData) :
  Forall (fun c => isReadCall c = true) (callsOf env (resourceAwsLbRead d) w).
Proof.
  unfold callsOf, resourceAwsLbRead. cbn. answer.
  destruct x as [[| lb [| lb2 lbs]] | err]; cbn; try (by repeat constructor).
  - unfold flattenAwsLbResource. cbn. answer.
    destruct x as [tags0 | err]; cbn; [| by repeat constructor].
    answer. destruct x as [attributes | err]; cbn; [| by repeat constructor].
    destruct (flattenAttributes _ _ _) as [d' [alm | err]]; cbn; by repeat constructor.
  - destruct (isLoadBalancerNotFound err); cbn; [answer |]; by repeat constructor.
Qed.

(** Update generates no name and creates nothing. *)
Lemma resourceAwsLbUpdate_kinds (env : Env) (w : World env) (d : ResourceData) :
  Forall (fun c => isPrefixedUniqueId c = false ∧ createAnswer c = None)
    (callsOf env (resourceAwsLbUpdate d) w).
Proof.
  assert (Hsteps : ∀ r, Forall (fun s => isPrefixedUniqueId (Called (fst s) r) = false ∧
                                   createAnswer (Called (fst s) r) = None) (updateSteps d)).
  { intros r. apply Forall_forall. intros s Hs. apply list_elem_of_In in Hs.
    apply updateSteps_cases in Hs as [[_ E] | [[_ E] | [[_ E] | [(_ & _ & E) | [_ E]]]]];
      rewrite E; by split. }
  destruct (resourceAwsLbUpdate_runs env w d)
    as [(done & e & wrap & err & rest & Hs & -> & _) | (w1 & -> & _)].
  - pose proof (Hsteps None) as H1. pose proof (Hsteps (Some err)) as H2.
    rewrite Hs in H1, H2.
    apply Forall_app in H1 as [H1 _]. apply Forall_app in H2 as [_ H2].
    apply Forall_cons in H2 as [H2 _].
    apply Forall_app. split; [unfold okCalls; by apply Forall_map | by constructor].
  - apply Forall_app. split; [unfold okCalls; apply Forall_map; apply Hsteps |].
    unfold callsOf, waitActiveThenRead. cbn. answer.
    destruct x as [err |]; cbn; [by repeat constructor |].
    pose proof (resourceAwsLbRead_kinds env w0 d) as Hread. unfold callsOf in Hread.
    destruct (run env (resourceAwsLbRead d) w0) as [[res cs] w2]. cbn in *.
    constructor; [by split |].
    eapply Forall_impl; [exact Hread |].
    intros [X e x]. destruct e; cbn; by try discriminate.
Qed.

Lemma resourceAwsLbUpdate_frame (env : Env) (w : World env) (d : ResourceData) :
  let d' := fst (resultOf env (resourceAwsLbUpdate d) w) in
  (Id d' = Id d ∨ Id d' = "") ∧
  old d' = old d ∧ IsNewResource d' = IsNewResource d ∧ Timeout d' = Timeout d.
Proof.
  cbv zeta.
  destruct (resourceAwsLbUpdate_runs env w d)
    as [(done & e & wrap & err & rest & _ & _ & ->) | (w1 & _ & ->)].
  { cbn. split; [by left | by repeat split]. }
  unfold resultOf, waitActiveThenRead. cbn. answer.
  destruct x as [err |]; cbn; [split; [by left | by repeat split] |].
  pose proof (resourceAwsLbRead_frame env w0 d) as H. cbv zeta in H. unfold resultOf in H.
  destruct (run env (resourceAwsLbRead d) w0) as [[r cs] w2]. exact H.
Qed.

(** The runs of Create, case by case. *)
Lemma resourceAwsLbCreate_cases (env : Env) (w : World env) (d : ResourceData) :
  ∃ pre name' r,
    match GetOk_string name d with
    | Some v => pre = [] ∧ name' = v
    | None =>
        pre = [Called (PrefixedUniqueId (default "tf-lb-" (GetOk_string name_prefix d))) name']
    end ∧
    let d1 := Set_name name' d in
    let create :=
      Called (CreateLoadBalancer (createLoadBalancerInput name' (IgnoreAws (Get tags d)) d1)) r in
    let calls := callsOf env (resourceAwsLbCreate d) w in
    let res := resultOf env (resourceAwsLbCreate d) w in
    match r with
    | Ok [lb] =>
        let arn := aws.StringValue (elbv2.LoadBalancerArn lb) in
        let wait := LoadBalancerActive arn (TimeoutCreate (Timeout d)) in
        (∃ err, calls = (pre ++ [create; Called wait (Some err)])%list ∧
                fst res = SetId arn d1 ∧ snd res ≠ None)
        ∨ (∃ w2, calls = (pre ++ create :: Called wait None
                            :: callsOf env (resourceAwsLbUpdate (SetId arn d1)) w2)%list ∧
                 res = resultOf env (resourceAwsLbUpdate (SetId arn d1)) w2)
    | _ => calls = (pre ++ [create])%list ∧ fst res = d1 ∧ snd res ≠ None
    end.
Proof.
  unfold resourceAwsLbCreate.
  match goal with |- context [bind _ ?f] => set (body := f) end.
  assert (Hbody : ∀ name' w0, ∃ r,
    let d1 := Set_name name' d in
    let create :=
      Called (CreateLoadBalancer (createLoadBalancerInput name' (IgnoreAws (Get tags d)) d1)) r in
    let calls := callsOf env (body name') w0 in
    let res := resultOf env (body name') w0 in
    match r with
    | Ok [lb] =>
        let arn := aws.StringValue (elbv2.LoadBalancerArn lb) in
        let wait := LoadBalancerActive arn (TimeoutCreate (Timeout d)) in
        (∃ err, calls = [create; Called wait (Some err)] ∧
                fst res = SetId arn d1 ∧ snd res ≠ None)
        ∨ (∃ w2, calls = create :: Called wait None
                            :: callsOf env (resourceAwsLbUpdate (SetId arn d1)) w2 ∧
                 res = resultOf env (resourceAwsLbUpdate (SetId arn d1)) w2)
    | _ => calls = [create] ∧ fst res = d1 ∧ snd res ≠ None
    end).
  { intros name' w0. subst body. unfold callsOf, resultOf. cbn. answer.
    destruct x as [[| lb [| lb2 lbs]] | err]; cbn.
    - exists (Ok []). by repeat split.
    - answer. destruct x as [err |]; cbn.
      + exists (Ok [lb]). left. exists err. by repeat split.
      + destruct (run env (resourceAwsLbUpdate _) w2) as [[res cs] w3] eqn:Erun. cbn.
        exists (Ok [lb]). right. exists w2. rewrite Erun. by split.
    - exists (Ok (lb :: lb2 :: lbs)). by repeat split.
    - exists (Err err). by repeat split. }
  rewrite callsOf_bind, resultOf_bind.
  destruct (GetOk_string name d) as [v |].
  - destruct (Hbody v w) as [r H]. exists [], v, r. split; [done |]. exact H.
  - assert (Hpre : ∃ name' w0,
      run env match GetOk_string name_prefix d with
              | Some v => call (PrefixedUniqueId v)
              | None => call (PrefixedUniqueId "tf-lb-")
              end w
      = (name', [Called (PrefixedUniqueId (default "tf-lb-" (GetOk_string name_prefix d)))
                   name'], w0)).
    { destruct (GetOk_string name_prefix d) as [p |]; cbn; answer; eauto. }
    destruct Hpre as (name' & w0 & Hpre). unfold callsOf, resultOf in *. rewrite Hpre. cbn.
    destruct (Hbody name' w0) as [r H].
    exists [Called (PrefixedUniqueId (default "tf-lb-" (GetOk_string name_prefix d))) name'],
      name', r.
    split; [reflexivity |].
    cbv zeta in *. destruct r as [[| lb [| lb2 lbs]] | err]; cbn in *;
      try (destruct H as (-> & H1 & H2); by repeat split).
    destruct H as [(err & -> & H1 & H2) | (w2 & -> & H1)].
    + left. exists err. by repeat split.
    + right. exists w2. by split.
Qed.
(** The one element of its kind splits a list in one way. *)
Lemma unique_split {A : Type} (P : A -> bool) (pre post pre0 post0 : list A) (c c0 : A) :
  Forall (fun a => P a = false) pre0 ->
  Forall (fun a => P a = false) post0 ->
  P c = true ->
  (pre ++ c :: post = pre0 ++ c0 :: post0)%list ->
  pre = pre0 ∧ c = c0 ∧ post = post0.
Proof.
  intros Hpre Hpost Hc. revert pre.
  induction Hpre as [| a pre0 Ha _ IH]; intros pre E.
  - destruct pre as [| b pre]; cbn in E.
    + injection E as -> ->. by repeat split.
    + injection E as -> E. exfalso.
      assert (Hin : c ∈ post0) by (rewrite <- E; apply elem_of_app; right; by left).
      rewrite Forall_forall in Hpost. apply Hpost in Hin. congruence.
  - destruct pre as [| b pre]; cbn in E.
    + injection E as -> _. congruence.
    + injection E as -> E. destruct (IH pre E) as (-> & -> & ->). by repeat split.
Qed.

(** X8.  Create sends one creation request and names it: with [name] when
    the configuration gives one, and then no name is generated; otherwise
    with the unique id it generates, once, from [name_prefix], or from the
    prefix tf-lb- when there is no prefix either.  No later call of Create
    generates a name or creates a load balancer. *)
Theorem resourceAwsLbCreate_name (env : Env) (w : World env) (d : ResourceData) :
  ∃ pre input r rest name',
    callsOf env (resourceAwsLbCreate d) w =
      (pre ++ Called (CreateLoadBalancer input) r :: rest)%list ∧
    elbv2.in_Name input = Some name' ∧
    match GetOk_string name d with
    | Some v => pre = [] ∧ name' = v
    | None =>
        pre = [Called (PrefixedUniqueId (default "tf-lb-" (GetOk_string name_prefix d))) name']
    end ∧
    Forall (fun c => isPrefixedUniqueId c = false ∧ createAnswer c = None) rest.
Proof.
  destruct (resourceAwsLbCreate_cases env w d) as (pre & name' & r & Hpre & H).
  cbv zeta in H.
  exists pre, (createLoadBalancerInput name' (IgnoreAws (Get tags d)) (Set_name name' d)), r.
  destruct r as [[| lb [| lb2 lbs]] | err].
  - destruct H as (-> & _). exists [], name'. by repeat split.
  - destruct H as [(err & -> & _) | (w2 & -> & _)].
    + eexists _, name'. split; [reflexivity |]. split; [reflexivity |]. split; [exact Hpre |].
      by repeat constructor.
    + eexists _, name'. split; [reflexivity |]. split; [reflexivity |]. split; [exact Hpre |].
      constructor; [by split |]. apply resourceAwsLbUpdate_kinds.
  - destruct H as (-> & _). exists [], name'. by repeat split.
  - destruct H as (-> & _). exists [], name'. by repeat split.
Qed.

(** X9.  What Create does after the creation request.  When the request
    fails, or does not answer exactly one load balancer, it is the last
    call: Create returns an error and the identity stays as it was.  When
    it answers one load balancer, Create sets the identity to its ARN and
    waits for it to be active, with the create timeout; a wait that fails
    ends Create with an error and the identity set.  In the end the
    identity is this ARN, or empty when the read found the load balancer
    gone. *)
Theorem resourceAwsLbCreate_identity (env : Env) (w : World env) (d : ResourceData)
    (pre post : list called) (c : called) (r : result (list elbv2.LoadBalancer)) :
  callsOf env (resourceAwsLbCreate d) w = (pre ++ c :: post)%list ->
  createAnswer c = Some r ->
  let res := resultOf env (resourceAwsLbCreate d) w in
  match r with
  | Ok [lb] =>
      let arn := aws.StringValue (elbv2.LoadBalancerArn lb) in
      (Id (fst res) = arn ∨ Id (fst res) = "") ∧
      ∃ r2 post2,
        post = Called (LoadBalancerActive arn (TimeoutCreate (Timeout d))) r2 :: post2 ∧
        (r2 ≠ None -> post2 = [] ∧ Id (fst res) = arn ∧ snd res ≠ None)
  | _ => post = [] ∧ Id (fst res) = Id d ∧ snd res ≠ None
  end.
Proof.
  intros Hcalls Hc. cbv zeta.
  set (P := fun c : called => match createAnswer c with Some _ => true | None => false end).
  assert (HPc : P c = true) by (unfold P; by rewrite Hc).
  destruct (resourceAwsLbCreate_cases env w d) as (pre0 & name' & r0 & Hpre & H).
  cbv zeta in H.
  assert (Hpre0 : Forall (fun a => P a = false) pre0).
  { destruct (GetOk_string name d) as [v |]; [destruct Hpre as [-> _] | rewrite Hpre];
      by repeat constructor. }
  assert (Hsplit : ∀ post0,
            callsOf env (resourceAwsLbCreate d) w =
              (pre0 ++ Called (CreateLoadBalancer
                                 (createLoadBalancerInput name' (IgnoreAws (Get tags d))
                                    (Set_name name' d))) r0 :: post0)%list ->
            Forall (fun a => P a = false) post0 ->
            r = r0 ∧ post = post0).
  { intros post0 E Hpost0. rewrite Hcalls in E.
    destruct (unique_split P _ _ _ _ _ _ Hpre0 Hpost0 HPc E) as (_ & Ec & Epost).
    split; [| exact Epost]. rewrite Ec in Hc. cbn in Hc. congruence. }
  destruct r0 as [[| lb [| lb2 lbs]] | err].
  - destruct H as (E & Hd & Herr). destruct (Hsplit [] E) as [-> ->]; [constructor |].
    rewrite Hd. by repeat split.
  - destruct H as [(err & E & Hd & Herr) | (w2 & E & Hres)].
    + destruct (Hsplit _ E) as [-> ->]; [by repeat constructor |].
      rewrite Hd. split; [by left |]. eexists _, _. split; [reflexivity |]. by repeat split.
    + destruct (Hsplit _ E) as [-> ->].
      { constructor; [reflexivity |].
        eapply Forall_impl; [apply resourceAwsLbUpdate_kinds |].
        intros a [_ Ha]. unfold P. by rewrite Ha. }
      rewrite Hres. split.
      * destruct (resourceAwsLbUpdate_frame env w2
                    (SetId (aws.StringValue (elbv2.LoadBalancerArn lb)) (Set_name name' d)))
          as [Hid _].
        exact Hid.
      * eexists _, _. split; [reflexivity |]. intros Hne. by destruct Hne.
  - destruct H as (E & Hd & Herr). destruct (Hsplit [] E) as [-> ->]; [constructor |].
    rewrite Hd. by repeat split.
  - destruct H as (E & Hd & Herr). destruct (Hsplit [] E) as [-> ->]; [constructor |].
    rewrite Hd. by repeat split.
Qed.

(** ** Delete: the cleanup and the wait *)

Lemma getLbNameFromArn_malformed (arn : string) :
  ¬ endsInThreeSegments arn ->
  getLbNameFromArn arn = Err (Errorf "Unexpected ARN format: %q" [arn] None).
Proof.
  intros Hno. destruct (getLbNameFromArn arn) as [name | e] eqn:E.
  - destruct Hno. apply getLbNameFromArn_Ok in E as (pre & -> & Hname). by exists pre, name.
  - by rewrite (getLbNameFromArn_Err arn e E).
Qed.

(** X10.  On an identifier that does not end in three segments separated
    by slashes, neither the cleanup nor the wait makes any call: both
    return the error of the ARN parser.  A Delete whose DeleteLoadBalancer
    call succeeded then logs the two errors at WARN level, lists, detaches
    and deletes no network interface, and returns nil. *)
Theorem resourceAwsLbDelete_malformed_arn (env : Env) (w : World env) (d : ResourceData) :
  ¬ endsInThreeSegments (Id d) ->
  let bad := Errorf "Unexpected ARN format: %q" [Id d] None in
  (callsOf env (cleanupLBNetworkInterfaces (Id d)) w = [] ∧
   resultOf env (cleanupLBNetworkInterfaces (Id d)) w = Some bad) ∧
  (callsOf env (waitForNLBNetworkInterfacesToDetach (Id d)) w = [] ∧
   resultOf env (waitForNLBNetworkInterfacesToDetach (Id d)) w = Some bad) ∧
  (fst (respond env _ (DeleteLoadBalancer (Id d)) w) = None ->
   resultOf env (resourceAwsLbDelete d) w = None ∧
   callsOf env (resourceAwsLbDelete d) w =
     [Called (DeleteLoadBalancer (Id d)) None;
      Called (logWarn "[WARN] Failed to cleanup ENIs for ALB %q: %#v" [Id d] (Some bad)) tt;
      Called (logWarn "[WARN] Failed to wait for ENIs to disappear for NLB %q: %#v"
                [Id d] (Some bad)) tt]).
Proof.
  intros Hbad. cbv zeta. apply getLbNameFromArn_malformed in Hbad.
  unfold resourceAwsLbDelete, cleanupLBNetworkInterfaces, waitForNLBNetworkInterfacesToDetach,
    callsOf, resultOf.
  rewrite Hbad. cbn. split; [by split |]. split; [by split |].
  destruct (respond env _ (DeleteLoadBalancer (Id d)) w) as [destroyed w1]. cbn.
  intros ->. cbn.
  destruct (respond env unit _ w1) as [[] w2]. cbn.
  destruct (respond env unit _ w2) as [[] w3]. cbn. by split.
Qed.

(** X11.  The cleanup of the network interfaces a load balancer owns, on
    an identifier the ARN parser accepts: it lists the interfaces owned by
    amazon-elb whose description is ELB followed by the name; a listing
    that fails or finds nothing ends it; otherwise it detaches the
    interfaces listed and, only when that succeeded, deletes them.  It
    returns nil exactly when none of its calls failed. *)
Theorem cleanupLBNetworkInterfaces_steps (env : Env) (w : World env) (lbArn name : string) :
  getLbNameFromArn lbArn = Ok name ->
  let calls := callsOf env (cleanupLBNetworkInterfaces lbArn) w in
  let res := resultOf env (cleanupLBNetworkInterfaces lbArn) w in
  (∃ out rest,
     calls = Called (DescribeNetworkInterfaces
                       [("attachment.instance-owner-id", ["amazon-elb"]);
                        ("description", ["ELB " ++ name])]) out :: rest ∧
     match out with
     | Err err => rest = [] ∧ res = Some err
     | Ok [] => rest = [] ∧ res = None
     | Ok nis =>
         (∃ err, rest = [Called (detachNetworkInterfaces nis) (Some err)] ∧ res = Some err)
         ∨ rest = [Called (detachNetworkInterfaces nis) None;
                   Called (deleteNetworkInterfaces nis) res]
     end) ∧
  (res = None <-> Forall (fun c => failed c = false) calls).
Proof.
  intros Hname. cbv zeta.
  unfold cleanupLBNetworkInterfaces, callsOf, resultOf. rewrite Hname. cbn. answer.
  destruct x as [[| ni nis] | err]; cbn.
  - split; [eexists _, _; by repeat split |]. split; [by repeat constructor | done].
  - answer. destruct x as [err |]; cbn.
    + split; [eexists _, _; split; [reflexivity |]; left; by exists err |].
      split; [discriminate |]. intros H. apply Forall_cons in H as [_ H].
      apply Forall_cons in H as [H _]. discriminate.
    + answer. split; [eexists _, _; split; [reflexivity |]; by right |].
      split.
      * intros ->. by repeat constructor.
      * intros H. apply Forall_cons in H as [_ H]. apply Forall_cons in H as [_ H].
        apply Forall_cons in H as [H _]. cbn in H. by destruct x.
  - split; [eexists _, _; by repeat split |]. split; [discriminate |].
    intros H. apply Forall_cons in H as [H _]. discriminate.
Qed.

(** The polls of [resource.Retry]: when every call of [f] is one listing,
    answering nil exactly when the listing is empty, [Retry] makes at most
    as many listings as there are polls, and returns nil exactly when the
    last one was empty. *)
Lemma Retry_listings (env : Env) (f : prog (option RetryError)) (filters : list Filter)
    (n : nat) (last0 : option error) (w : World env) :
  (∀ w0, ∃ c,
     callsOf env f w0 = [c] ∧ describeFilters c = Some filters ∧
     (resultOf env f w0 = None <-> isEmptyListing c = true)) ->
  let calls := callsOf env (Retry n f last0) w in
  Forall (fun c => describeFilters c = Some filters) calls ∧
  (length calls <= n)%nat ∧
  (resultOf env (Retry n f last0) w = None <->
   ∃ c, last calls = Some c ∧ isEmptyListing c = true).
Proof.
  intros Hf. cbv zeta. revert last0 w.
  induction n as [| n IH]; intros last0 w.
  - cbn. split; [constructor |]. split; [lia |].
    split; [discriminate | intros (c & Hc & _); discriminate].
  - cbn [Retry]. rewrite callsOf_bind, resultOf_bind.
    destruct (Hf w) as (c & Hc & Hfilters & Hres). rewrite Hc.
    destruct (resultOf env f w) as [[err | err] |] eqn:Er.
    + specialize (IH (Some err) (snd (run env f w))).
      destruct IH as (IH1 & IH2 & IH3).
      split; [by constructor |]. split; [cbn; lia |].
      rewrite IH3. cbn [app].
      destruct (callsOf env (Retry n f (Some err)) (snd (run env f w))) as [| c' cs] eqn:Ecs.
      * split; [intros (c0 & Hc0 & _); discriminate |].
        intros (c0 & [= <-] & Hc0). apply Hres in Hc0. discriminate.
      * by rewrite last_cons_cons.
    + cbn. split; [by repeat constructor |]. split; [lia |].
      split; [discriminate |]. intros (c0 & [= <-] & Hc0). apply Hres in Hc0. discriminate.
    + cbn. split; [by repeat constructor |]. split; [lia |].
      split; [| done]. intros _. exists c. split; [reflexivity |]. by apply Hres.
Qed.
(** The runs of the wait. *)
Lemma waitForNLBNetworkInterfacesToDetach_runs (env : Env) (w : World env) (lbArn : string) :
  let calls := callsOf env (waitForNLBNetworkInterfacesToDetach lbArn) w in
  let res := resultOf env (waitForNLBNetworkInterfacesToDetach lbArn) w in
  (length calls <= S polls)%nat ∧
  Forall (fun c => ∃ name, getLbNameFromArn lbArn = Ok name ∧
                     describeFilters c =
                       Some [("attachment.instance-owner-id", ["amazon-aws"]);
                             ("attachment.attachment-id", ["ela-attach-*"]);
                             ("description", ["ELB " ++ name])]) calls ∧
  (res = None <-> ∃ c, last calls = Some c ∧ isEmptyListing c = true).
Proof.
  cbv zeta. unfold waitForNLBNetworkInterfacesToDetach.
  destruct (getLbNameFromArn lbArn) as [name | e].
  2: { cbn. split; [lia |]. split; [constructor |].
       split; [discriminate | intros (c & Hc & _); discriminate]. }
  rewrite callsOf_bind, resultOf_bind.
  match goal with |- context [Retry polls ?f None] => set (poll := f) end.
  set (input := [("attachment.instance-owner-id", ["amazon-aws"]);
                 ("attachment.attachment-id", ["ela-attach-*"]);
                 ("description", ["ELB " ++ name])]) in *.
  assert (Hpoll : ∀ w0, ∃ c,
            callsOf env poll w0 = [c] ∧ describeFilters c = Some input ∧
            (resultOf env poll w0 = None <-> isEmptyListing c = true)).
  { intros w0. subst poll. unfold callsOf, resultOf. cbn. answer.
    destruct x as [[| ni nis] | err]; cbn; eexists;
      (split; [reflexivity |]; split; [reflexivity |]; split; done). }
  destruct (Retry_listings env poll input polls None w Hpoll) as (Hfilters & Hlen & Hres).
  set (w1 := snd (run env (Retry polls poll None) w)) in *. clearbody w1.
  set (polled := callsOf env (Retry polls poll None) w) in *. clearbody polled.
  assert (Hnamed : ∀ cs, Forall (fun c => describeFilters c = Some input) cs ->
            Forall (fun c => ∃ name0, Ok name = Ok name0 ∧
                               describeFilters c =
                                 Some [("attachment.instance-owner-id", ["amazon-aws"]);
                                       ("attachment.attachment-id", ["ela-attach-*"]);
                                       ("description", ["ELB " ++ name0])]) cs).
  { intros cs Hcs. eapply Forall_impl; [exact Hcs |]. intros c Hc. by exists name. }
  destruct (resultOf env (Retry polls poll None) w) as [e |] eqn:Er.
  - destruct (isResourceTimeoutError e).
    + unfold callsOf, resultOf. cbn. answer.
      assert (Hall : Forall (fun c => describeFilters c = Some input)
                       (polled ++ [Called (DescribeNetworkInterfaces input) x])).
      { apply Forall_app. split; [exact Hfilters | by repeat constructor]. }
      destruct x as [[| ni nis] | err]; cbn;
        (split; [rewrite length_app; cbn; lia |]; split; [by apply Hnamed |]);
        rewrite last_snoc.
      * split; [| done]. intros _. eexists. by split.
      * split; [discriminate | intros (c & [= <-] & Hc); discriminate].
      * split; [discriminate | intros (c & [= <-] & Hc); discriminate].
    + cbn. rewrite app_nil_r. split; [lia |]. split; [by apply Hnamed |].
      rewrite <- Hres. split; discriminate.
  - cbn. rewrite app_nil_r. split; [lia |]. split; [by apply Hnamed |].
    rewrite <- Hres. done.
Qed.

(** X12.  The wait for the network interfaces of a network load balancer
    only lists: every call it makes is a listing of the interfaces owned by
    amazon-aws, attached as ela-attach-*, whose description is ELB followed
    by the name.  It makes at most one listing per poll that fits before
    the deadline of [resource.Retry], and one more after the deadline. *)
Theorem waitForNLBNetworkInterfacesToDetach_listings (env : Env) (w : World env)
    (lbArn : string) :
  let calls := callsOf env (waitForNLBNetworkInterfacesToDetach lbArn) w in
  (length calls <= S polls)%nat ∧
  Forall (fun c => isMutation c = false ∧
                   ∃ name, getLbNameFromArn lbArn = Ok name ∧
                     describeFilters c =
                       Some [("attachment.instance-owner-id", ["amazon-aws"]);
                             ("attachment.attachment-id", ["ela-attach-*"]);
                             ("description", ["ELB " ++ name])]) calls.
Proof.
  cbv zeta.
  destruct (waitForNLBNetworkInterfacesToDetach_runs env w lbArn) as (Hlen & Hcalls & _).
  split; [exact Hlen |].
  eapply Forall_impl; [exact Hcalls |].
  intros [X e x] (name & Hname & Hc). split; [| by exists name].
  destruct e; cbn in *; congruence.
Qed.

(** X13.  The wait returns nil exactly when the last listing it made found
    no network interface, whether that listing was a poll or the one made
    after the deadline. *)
Theorem waitForNLBNetworkInterfacesToDetach_result (env : Env) (w : World env)
    (lbArn : string) :
  resultOf env (waitForNLBNetworkInterfacesToDetach lbArn) w = None <->
  ∃ c, last (callsOf env (waitForNLBNetworkInterfacesToDetach lbArn) w) = Some c ∧
       isEmptyListing c = true.
Proof. apply waitForNLBNetworkInterfacesToDetach_runs. Qed.

(** ** The results of the two ARN helpers *)

Lemma countChar_append (c : ascii) (s1 s2 : string) :
  countChar c (s1 ++ s2) = (countChar c s1 + countChar c s2)%nat.
Proof. induction s1 as [| a s1 IH]; simpl; [reflexivity | rewrite IH; lia]. Qed.

Lemma countChar_notSlash (s : string) :
  allChars regexp.notSlash s = true -> countChar "/" s = 0%nat.
Proof.
  induction s as [| a s IH]; simpl; [reflexivity |].
  intros H. apply andb_true_iff in H as [Ha Hs]. unfold regexp.notSlash in Ha.
  destruct (Ascii.eqb a "/"); [discriminate |]. by rewrite IH.
Qed.

Lemma countChar_threeSegments (name : string) :
  threeSegments name -> countChar "/" name = 2%nat.
Proof.
  intros (a & b & c & -> & [_ Ha] & [_ Hb] & [_ Hc]).
  rewrite !countChar_append, (countChar_notSlash a Ha), (countChar_notSlash b Hb),
    (countChar_notSlash c Hc).
  reflexivity.
Qed.

(** The search goes past the positions at which there is no match. *)
Lemma search_skips (r : regexp.Regexp) (skipped s : string) :
  (∀ q1 q2, skipped = q1 ++ q2 -> q2 ≠ "" -> regexp.matchAt r (q2 ++ s) = None) ->
  regexp.search r (skipped ++ s) = regexp.search r s.
Proof.
  induction skipped as [| c skipped IH]; intros Hno; [reflexivity |].
  simpl. cbn [regexp.search].
  assert (H0 : regexp.matchAt r (String c (skipped ++ s)) = None)
    by (apply (Hno "" (String c skipped)); [reflexivity | discriminate]).
  rewrite H0.
  apply IH. intros q1 q2 -> Hq2. by apply (Hno (String c q1) q2).
Qed.

Lemma search_here (r : regexp.Regexp) (s : string) (m : list string * string) :
  regexp.matchAt r s = Some m -> regexp.search r s = Some m.
Proof. intros H. destruct s; cbn [regexp.search]; by rewrite H. Qed.

Lemma suffix_snoc (q1 q2 p : string) (c : ascii) :
  q1 ++ q2 = p ++ String c "" -> q2 ≠ "" -> ∃ q, q2 = q ++ String c "".
Proof.
  revert p. induction q1 as [| a q1 IH]; intros p E Hne.
  - exists p. exact E.
  - destruct p as [| b p]; simpl in E.
    + injection E as _ E. destruct q1; simpl in E; [contradiction | discriminate].
    + injection E as _ E. by apply (IH p).
Qed.

Lemma lbNameRegexp_matchAt_inv (s : string) (m : list string) (rest : string) :
  regexp.matchAt lbNameRegexp s = Some (m, rest) ->
  threeSegments s ∧ m = [s; s] ∧ rest = "".
Proof.
  intros H. apply matchAt_sound in H as (pre & caps & -> & Hm & ->).
  unfold lbNameRegexp in Hm. cbn [matchesAt] in Hm.
  destruct Hm as (p1 & p2 & mid & -> & (mid0 & Hg & ->) & -> & -> & ->).
  destruct Hg as (a & q1 & c1 & -> & (Ha & Hane & ->) & Hg).
  destruct Hg as (l1 & q2 & c2 & -> & (-> & ->) & Hg).
  destruct Hg as (b & q3 & c3 & -> & (Hb & Hbne & ->) & Hg).
  destruct Hg as (l2 & c & c4 & -> & (-> & ->) & (Hc & Hcne & ->)).
  rewrite !append_nil_r. split; [| by split].
  exists a, b, c. by repeat split.
Qed.

(** X14.  [getLbNameFromArn] returns the last three segments of the
    identifier: when the identifier is three segments, or three segments
    after a text that ends in a slash, the result is these three
    segments, slashes included, with nothing of what comes before. *)
Theorem getLbNameFromArn_last_three (pre name : string) :
  threeSegments name ->
  pre = "" ∨ (∃ p, pre = p ++ "/") ->
  getLbNameFromArn (pre ++ name) = Ok name.
Proof.
  intros Hname Hpre.
  assert (Hmatch : regexp.matchAt lbNameRegexp name = Some ([name; name], "")).
  { destruct Hname as (a & b & c & -> & Ha & Hb & Hc).
    destruct (lbNameRegexp_matchAt a b c Ha Hb Hc) as [[m rest] E].
    rewrite E. by apply lbNameRegexp_matchAt_inv in E as (_ & -> & ->). }
  unfold getLbNameFromArn, regexp.FindStringSubmatch.
  rewrite search_skips, (search_here _ _ _ Hmatch); [reflexivity |].
  intros q1 q2 E Hq2.
  destruct (regexp.matchAt lbNameRegexp (q2 ++ name)) as [[m rest] |] eqn:Em; [| reflexivity].
  exfalso. apply lbNameRegexp_matchAt_inv in Em as (H3 & _ & _).
  apply countChar_threeSegments in H3. apply countChar_threeSegments in Hname.
  destruct Hpre as [-> | [p ->]].
  - destruct q1; [simpl in E; congruence | discriminate].
  - symmetry in E. destruct (suffix_snoc q1 q2 p "/" E Hq2) as [q ->].
    rewrite !countChar_append in H3. simpl in H3. lia.
Qed.
(** Greedy repetition: a longer match that the continuation accepts is
    preferred. *)
Lemma many_longer {R : Type} (class : ascii -> bool) (pre rest : string)
    (k : string -> option R) (x : R) :
  allChars class pre = true ->
  regexp.many class rest k = Some x ->
  regexp.many class (pre ++ rest) k = Some x.
Proof.
  intros Hpre Hk. induction pre as [| c pre IH]; simpl; [exact Hk |].
  simpl in Hpre. apply andb_true_iff in Hpre as [-> Hpre]. by rewrite (IH Hpre).
Qed.

(** Greedy repetition: when the continuation accepts no shorter rest, the
    repetition matches the empty text. *)
Lemma many_none_longer {R : Type} (class : ascii -> bool) (s : string)
    (k : string -> option R) :
  (∀ q1 q2, s = q1 ++ q2 -> q1 ≠ "" -> k q2 = None) ->
  regexp.many class s k = k s.
Proof.
  induction s as [| c s IH]; intros Hno; [reflexivity |].
  cbn [regexp.many]. destruct (class c); [| reflexivity].
  rewrite IH.
  - by rewrite (Hno (String c "") s eq_refl).
  - intros q1 q2 -> Hq1. by apply (Hno (String c q1) q2).
Qed.

Lemma consumed_all (s : string) : regexp.consumed s "" = s.
Proof. rewrite <- (append_nil_r s) at 1. apply consumed_append. Qed.

(** After the text :loadbalancer/ and a rest without this text, no later
    position starts with it. *)
Lemma no_later_loadbalancer (q1 q2 y : string) :
  contains ":loadbalancer/" y = false ->
  q1 ++ q2 = ":loadbalancer/" ++ y ->
  q1 ≠ "" ->
  regexp.stripPrefix ":loadbalancer/" q2 = None.
Proof.
  intros Hno E Hq1.
  destruct q1 as [| c q1]; [contradiction |]. simpl in E. injection E as _ E.
  repeat (destruct q1 as [| ? q1]; simpl in E; [by subst q2 | injection E as _ E]).
  destruct (regexp.stripPrefix ":loadbalancer/" q2) as [post |] eqn:Es; [| reflexivity].
  apply stripPrefix_Some in Es. subst q2.
  pose proof (contains_append ":loadbalancer/" q1 post) as Hc.
  rewrite E in Hc. congruence.
Qed.

Lemma lbSuffixRegexp_matchAt (x y : string) :
  allChars regexp.dot x = true ->
  allChars regexp.dot y = true ->
  contains ":loadbalancer/" y = false ->
  let arn := "arn:" ++ x ++ ":loadbalancer/" ++ y in
  regexp.matchAt lbSuffixRegexp arn = Some ([arn; y], "").
Proof.
  intros Hx Hy Hno. cbv zeta.
  unfold regexp.matchAt, lbSuffixRegexp.
  rewrite exec_Cat. cbn [regexp.exec].
  rewrite (proj2 (stripPrefix_Some "arn:" ("arn:" ++ x ++ ":loadbalancer/" ++ y) _) eq_refl).
  apply many_longer; [exact Hx |].
  rewrite many_none_longer.
  - rewrite (proj2 (stripPrefix_Some ":loadbalancer/" (":loadbalancer/" ++ y) _) eq_refl).
    rewrite <- (append_nil_r y) at 1.
    apply many_longer; [exact Hy |]. cbn [regexp.many].
    by rewrite !consumed_all.
  - intros q1 q2 E Hq1. symmetry in E.
    by rewrite (no_later_loadbalancer q1 q2 y Hno E Hq1).
Qed.

(** X15.  [lbSuffixFromARN] on an identifier made of arn:, any text, the
    text :loadbalancer/ and a rest in which this text does not occur again
    (no part with a line break) returns this rest: everything after the
    last :loadbalancer/. *)
Theorem lbSuffixFromARN_rest (x y : string) :
  allChars regexp.dot x = true ->
  allChars regexp.dot y = true ->
  contains ":loadbalancer/" y = false ->
  lbSuffixFromARN (Some ("arn:" ++ x ++ ":loadbalancer/" ++ y)) = y.
Proof.
  intros Hx Hy Hno.
  pose proof (search_here _ _ _ (lbSuffixRegexp_matchAt x y Hx Hy Hno)) as Hs.
  unfold lbSuffixFromARN, regexp.FindAllStringSubmatch.
  cbn [regexp.allMatches]. rewrite Hs. simpl. reflexivity.
Qed.

(** ** What Update sends, Read reads back *)

Lemma digits_string_of_uint (u : Decimal.uint) (acc : Z) :
  strconv.digits acc (NilEmpty.string_of_uint u) =
  Some (acc * 10 ^ Z.of_N (DecimalPos.Unsigned.usize u)
        + Z.of_N (DecimalPos.Unsigned.of_lu (Decimal.rev u))).
Proof.
  revert acc.
  induction u as [| u IH | u IH | u IH | u IH | u IH | u IH | u IH | u IH | u IH | u IH];
    intros acc;
    [ cbn; f_equal; lia
    | unfold Decimal.rev; cbn [Decimal.revapp];
      rewrite (DecimalPos.Unsigned.of_lu_revapp u);
      cbn [DecimalPos.Unsigned.of_lu DecimalPos.Unsigned.usize];
      rewrite N2Z.inj_succ, Z.pow_succ_r by lia;
      rewrite N2Z.inj_add, N2Z.inj_mul, N2Z.inj_pow;
      cbn [NilEmpty.string_of_uint strconv.digits];
      change (strconv.digit _) with (Some 0) ||
      change (strconv.digit _) with (Some 1) ||
      change (strconv.digit _) with (Some 2) ||
      change (strconv.digit _) with (Some 3) ||
      change (strconv.digit _) with (Some 4) ||
      change (strconv.digit _) with (Some 5) ||
      change (strconv.digit _) with (Some 6) ||
      change (strconv.digit _) with (Some 7) ||
      change (strconv.digit _) with (Some 8) ||
      change (strconv.digit _) with (Some 9);
      cbv iota beta; rewrite IH; f_equal;
      match goal with
      | |- context [Z.of_N ?n * _] => let v := eval cbv in (Z.of_N n) in change (Z.of_N n) with v
      end;
      change (Z.of_N 10) with 10;
      ring .. ].
Qed.

(** Printing a Go [int] in decimal and parsing it again gives the number. *)
Lemma Atoi_FormatInt (z : Z) :
  inInt64 z -> strconv.Atoi (strconv.FormatInt z) = Ok z.
Proof.
  intros [Hlo Hhi].
  assert (Hpos : ∀ p, strconv.digits 0 (NilEmpty.string_of_uint (Pos.to_uint p))
                       = Some (Z.pos p)).
  { intros p. rewrite digits_string_of_uint. f_equal.
    rewrite <- DecimalPos.Unsigned.of_uint_alt, DecimalPos.Unsigned.of_to. reflexivity. }
  assert (Hrange : (- 2 ^ 63 <=? z) && (z <=? 2 ^ 63 - 1) = true).
  { apply andb_true_iff. split; by apply Z.leb_le. }
  unfold strconv.FormatInt. destruct z as [| p | p]; [reflexivity | |].
  - cbn [Z.to_int NilZero.string_of_int NilZero.string_of_uint].
    pose proof (DecimalPos.Unsigned.to_uint_nonnil p) as Hnn.
    specialize (Hpos p).
    destruct (Pos.to_uint p) as [| u | u | u | u | u | u | u | u | u | u];
      [contradiction | ..]; unfold strconv.Atoi;
      cbn [NilZero.string_of_uint NilEmpty.string_of_uint]; cbv beta iota zeta;
      cbn [NilEmpty.string_of_uint] in Hpos; rewrite Hpos; cbv beta iota zeta; by rewrite Hrange.
  - cbn [Z.to_int NilZero.string_of_int NilZero.string_of_uint].
    pose proof (DecimalPos.Unsigned.to_uint_nonnil p) as Hnn.
    specialize (Hpos p).
    destruct (Pos.to_uint p) as [| u | u | u | u | u | u | u | u | u | u];
      [contradiction | ..]; unfold strconv.Atoi;
      cbn [NilZero.string_of_uint NilEmpty.string_of_uint]; cbv beta iota zeta;
      cbn [NilEmpty.string_of_uint] in Hpos; rewrite Hpos; cbv beta iota zeta;
      change (- Z.pos p) with (Z.neg p); by rewrite Hrange.
Qed.
Lemma flattenAttributes_app (l1 l2 : list elbv2.LoadBalancerAttribute)
    (accessLogMap : AccessLogs) (d : ResourceData) :
  flattenAttributes (l1 ++ l2) accessLogMap d =
  match flattenAttributes l1 accessLogMap d with
  | (d1, Ok accessLogMap1) => flattenAttributes l2 accessLogMap1 d1
  | (d1, Err err) => (d1, Err err)
  end.
Proof.
  revert accessLogMap d. induction l1 as [| a l1 IH]; intros accessLogMap d; [reflexivity |].
  cbn [app flattenAttributes].
  repeat (destruct (String.eqb _ _)); try (destruct (strconv.Atoi _)); try apply IH;
    reflexivity.
Qed.

(** The attribute loop on each key that Update sends. *)
Lemma flattenAttributes_idle_timeout (value : string)
    (rest : list elbv2.LoadBalancerAttribute) (accessLogMap : AccessLogs) (d : ResourceData) :
  flattenAttributes (attribute "idle_timeout.timeout_seconds" value :: rest) accessLogMap d =
  match strconv.Atoi value with
  | Err err => (d, Err (Errorf "Error parsing ALB timeout: %s" [] (Some err)))
  | Ok timeout => flattenAttributes rest accessLogMap (Set_idle_timeout timeout d)
  end.
Proof. reflexivity. Qed.

Lemma flattenAttributes_http2 (value : string)
    (rest : list elbv2.LoadBalancerAttribute) (accessLogMap : AccessLogs) (d : ResourceData) :
  flattenAttributes (attribute "routing.http2.enabled" value :: rest) accessLogMap d =
  flattenAttributes rest accessLogMap (Set_enable_http2 (String.eqb value "true") d).
Proof. reflexivity. Qed.

Lemma flattenAttributes_drop_invalid (value : string)
    (rest : list elbv2.LoadBalancerAttribute) (accessLogMap : AccessLogs) (d : ResourceData) :
  flattenAttributes
    (attribute "routing.http.drop_invalid_header_fields.enabled" value :: rest)
    accessLogMap d =
  flattenAttributes rest accessLogMap
    (Set_drop_invalid_header_fields (String.eqb value "true") d).
Proof. reflexivity. Qed.

Lemma flattenAttributes_cross_zone (value : string)
    (rest : list elbv2.LoadBalancerAttribute) (accessLogMap : AccessLogs) (d : ResourceData) :
  flattenAttributes (attribute "load_balancing.cross_zone.enabled" value :: rest)
    accessLogMap d =
  flattenAttributes rest accessLogMap
    (Set_enable_cross_zone_load_balancing (String.eqb value "true") d).
Proof. reflexivity. Qed.

Lemma flattenAttributes_deletion_protection (value : string)
    (rest : list elbv2.LoadBalancerAttribute) (accessLogMap : AccessLogs) (d : ResourceData) :
  flattenAttributes (attribute "deletion_protection.enabled" value :: rest) accessLogMap d =
  flattenAttributes rest accessLogMap
    (Set_enable_deletion_protection (String.eqb value "true") d).
Proof. reflexivity. Qed.

Lemma flattenAttributes_logs_enabled (value : string)
    (rest : list elbv2.LoadBalancerAttribute) (accessLogMap : AccessLogs) (d : ResourceData) :
  flattenAttributes (attribute "access_logs.s3.enabled" value :: rest) accessLogMap d =
  flattenAttributes rest
    {| bucket := bucket accessLogMap; prefix := prefix accessLogMap;
       enabled := String.eqb value "true" |} d.
Proof. reflexivity. Qed.

Lemma flattenAttributes_logs_bucket (value : string)
    (rest : list elbv2.LoadBalancerAttribute) (accessLogMap : AccessLogs) (d : ResourceData) :
  flattenAttributes (attribute "access_logs.s3.bucket" value :: rest) accessLogMap d =
  flattenAttributes rest
    {| bucket := value; prefix := prefix accessLogMap; enabled := enabled accessLogMap |} d.
Proof. reflexivity. Qed.

Lemma flattenAttributes_logs_prefix (value : string)
    (rest : list elbv2.LoadBalancerAttribute) (accessLogMap : AccessLogs) (d : ResourceData) :
  flattenAttributes (attribute "access_logs.s3.prefix" value :: rest) accessLogMap d =
  flattenAttributes rest
    {| bucket := bucket accessLogMap; prefix := value; enabled := enabled accessLogMap |} d.
Proof. reflexivity. Qed.

Lemma FormatBool_true (b : bool) : String.eqb (strconv.FormatBool b) "true" = b.
Proof. by destruct b. Qed.

Lemma Set_Get_same (d : ResourceData) :
  Set_idle_timeout (Get idle_timeout d) d = d ∧
  Set_enable_http2 (Get enable_http2 d) d = d ∧
  Set_drop_invalid_header_fields (Get drop_invalid_header_fields d) d = d ∧
  Set_enable_cross_zone_load_balancing (Get enable_cross_zone_load_balancing d) d = d ∧
  Set_enable_deletion_protection (Get enable_deletion_protection d) d = d.
Proof. destruct d as [i o [] n t]. by repeat split. Qed.

Lemma flattenAttributes_typeAttributes (d : ResourceData) (accessLogMap : AccessLogs) :
  inInt64 (Get idle_timeout d) ->
  flattenAttributes (typeAttributes d) accessLogMap d = (d, Ok accessLogMap).
Proof.
  intros Hint. destruct (Set_Get_same d) as (Ht & Hh & Hd & Hc & _).
  unfold typeAttributes.
  destruct (String.eqb _ elbv2.LoadBalancerTypeEnumApplication).
  - destruct (HasChange idle_timeout d || IsNewResource d),
      (HasChange enable_http2 d || IsNewResource d),
      (HasChange drop_invalid_header_fields d || IsNewResource d);
      cbn [app];
      rewrite ?flattenAttributes_idle_timeout, ?(Atoi_FormatInt _ Hint), ?Ht,
        ?flattenAttributes_http2, ?FormatBool_true, ?Hh,
        ?flattenAttributes_drop_invalid, ?FormatBool_true, ?Hd;
      reflexivity.
  - destruct (_ || _); [| reflexivity].
    destruct (HasChange enable_cross_zone_load_balancing d || IsNewResource d);
      [| reflexivity].
    rewrite flattenAttributes_cross_zone, FormatBool_true, Hc. reflexivity.
Qed.

Lemma flattenAttributes_deletionProtectionAttributes (d : ResourceData)
    (accessLogMap : AccessLogs) :
  flattenAttributes (deletionProtectionAttributes d) accessLogMap d = (d, Ok accessLogMap).
Proof.
  destruct (Set_Get_same d) as (_ & _ & _ & _ & Hp).
  unfold deletionProtectionAttributes. destruct (_ || _); [| reflexivity].
  rewrite flattenAttributes_deletion_protection, FormatBool_true, Hp. reflexivity.
Qed.

Lemma flattenAttributes_accessLogsAttributes (d : ResourceData) (accessLogMap : AccessLogs) :
  flattenAttributes (accessLogsAttributes d) accessLogMap d =
  (d, Ok (if HasChange access_logs d then
            match Get access_logs d with
            | [Some log] =>
                if enabled log then log
                else {| bucket := bucket accessLogMap; prefix := prefix accessLogMap;
                        enabled := false |}
            | _ => {| bucket := bucket accessLogMap; prefix := prefix accessLogMap;
                      enabled := false |}
            end
          else accessLogMap)).
Proof.
  unfold accessLogsAttributes. destruct (HasChange access_logs d); [| reflexivity].
  destruct (Get access_logs d) as [| [log |] [| x l]]; try reflexivity.
  destruct log as [b p []]; reflexivity.
Qed.

(** X16.  Read reads back what Update sends: running the attribute loop
    of Read on the attribute list that Update builds from the resource
    data leaves every value of the resource data as it is, and fails on no
    attribute, the idle timeout being a Go [int].  The access log block it
    decodes is the configured block when that block changed and is
    enabled, and otherwise the disabled block the loop starts from. *)
Theorem attributes_round_trip (d : ResourceData) :
  inInt64 (Get idle_timeout d) ->
  let none := {| bucket := ""; prefix := ""; enabled := false |} in
  flattenAttributes (updateAttributes d) none d =
  (d, Ok (match Get access_logs d with
          | [Some log] => if HasChange access_logs d && enabled log then log else none
          | _ => none
          end)).
Proof.
  intros Hint. cbv zeta. unfold updateAttributes.
  rewrite flattenAttributes_app, flattenAttributes_accessLogsAttributes.
  rewrite flattenAttributes_app, (flattenAttributes_typeAttributes _ _ Hint).
  rewrite flattenAttributes_deletionProtectionAttributes.
  destruct (HasChange access_logs d), (Get access_logs d) as [| [log |] [| x l]];
    reflexivity.
Qed.
Lemma flattenAttributes_timeout_key (a : elbv2.LoadBalancerAttribute)
    (rest : list elbv2.LoadBalancerAttribute) (accessLogMap : AccessLogs) (d : ResourceData) :
  aws.StringValue (elbv2.Key a) = "idle_timeout.timeout_seconds" ->
  flattenAttributes (a :: rest) accessLogMap d =
  match strconv.Atoi (aws.StringValue (elbv2.Value a)) with
  | Err err => (d, Err (Errorf "Error parsing ALB timeout: %s" [] (Some err)))
  | Ok timeout => flattenAttributes rest accessLogMap (Set_idle_timeout timeout d)
  end.
Proof. intros E. cbn [flattenAttributes]. rewrite E. reflexivity. Qed.

Lemma flattenAttributes_other_key (a : elbv2.LoadBalancerAttribute)
    (rest : list elbv2.LoadBalancerAttribute) (accessLogMap : AccessLogs) (d : ResourceData) :
  aws.StringValue (elbv2.Key a) ≠ "idle_timeout.timeout_seconds" ->
  ∃ accessLogMap' d',
    flattenAttributes (a :: rest) accessLogMap d = flattenAttributes rest accessLogMap' d'.
Proof.
  intros N. apply String.eqb_neq in N. cbn [flattenAttributes]. rewrite N.
  repeat (destruct (String.eqb _ _)); eauto.
Qed.

(** X17.  The attribute loop of Read fails on one thing only: an idle
    timeout that is not a number.  It then stops at this attribute with the
    error "Error parsing ALB timeout", every idle timeout before it having
    been a number; and it succeeds whenever every idle timeout the remote
    side describes is a number. *)
Theorem flattenAttributes_fails_on_timeout_only
    (attributes : list elbv2.LoadBalancerAttribute) (accessLogMap : AccessLogs)
    (d : ResourceData) :
  let numeric (a : elbv2.LoadBalancerAttribute) :=
    aws.StringValue (elbv2.Key a) = "idle_timeout.timeout_seconds" ->
    ∃ timeout, strconv.Atoi (aws.StringValue (elbv2.Value a)) = Ok timeout in
  match snd (flattenAttributes attributes accessLogMap d) with
  | Ok _ => Forall numeric attributes
  | Err e =>
      ∃ l1 a l2 err,
        attributes = (l1 ++ a :: l2)%list ∧ Forall numeric l1 ∧
        aws.StringValue (elbv2.Key a) = "idle_timeout.timeout_seconds" ∧
        strconv.Atoi (aws.StringValue (elbv2.Value a)) = Err err ∧
        e = Errorf "Error parsing ALB timeout: %s" [] (Some err)
  end.
Proof.
  cbv zeta. revert accessLogMap d.
  induction attributes as [| a rest IH]; intros accessLogMap d; [constructor |].
  destruct (decide (aws.StringValue (elbv2.Key a) = "idle_timeout.timeout_seconds"))
    as [E | N].
  - rewrite (flattenAttributes_timeout_key _ _ _ _ E).
    destruct (strconv.Atoi (aws.StringValue (elbv2.Value a))) as [timeout | err] eqn:Ea.
    + specialize (IH accessLogMap (Set_idle_timeout timeout d)).
      destruct (snd (flattenAttributes rest accessLogMap (Set_idle_timeout timeout d)))
        as [alm | e].
      * constructor; [intros _; by exists timeout | exact IH].
      * destruct IH as (l1 & a0 & l2 & err & -> & Hl1 & Hk & Hv & ->).
        exists (a :: l1), a0, l2, err. repeat split; try done.
        constructor; [intros _; by exists timeout | exact Hl1].
    + exists [], a, rest, err. by repeat split.
  - destruct (flattenAttributes_other_key a rest accessLogMap d N) as (alm' & d' & ->).
    specialize (IH alm' d').
    destruct (snd (flattenAttributes rest alm' d')) as [alm | e].
    + constructor; [intros E; contradiction | exact IH].
    + destruct IH as (l1 & a0 & l2 & err & -> & Hl1 & Hk & Hv & ->).
      exists (a :: l1), a0, l2, err. repeat split; try done.
      constructor; [intros E; contradiction | exact Hl1].
Qed.
(** ** The diff suppression of the schema and the attributes Update sends *)

Lemma attributeValue_accessLogs_other (key : string) (d : ResourceData) :
  String.prefix "access_logs." key = false ->
  attributeValue key (accessLogsAttributes d) = None.
Proof.
  intros Hkey. apply attributeValue_none.
  eapply Forall_impl; [apply accessLogsAttributes_keys |].
  intros a Ha. unfold isAccessLogsAttribute in Ha.
  destruct (String.eqb_spec (aws.StringValue (elbv2.Key a)) key) as [E |]; [| reflexivity].
  rewrite E in Ha. congruence.
Qed.

Lemma attributeValue_type_other (key : string) (d : ResourceData) :
  String.prefix "access_logs." key = true ->
  attributeValue key (typeAttributes d ++ deletionProtectionAttributes d) = None.
Proof.
  intros Hkey. apply attributeValue_none.
  assert (Hk : ∀ k v, String.prefix "access_logs." k = false ->
                 String.eqb (aws.StringValue (elbv2.Key (attribute k v))) key = false).
  { intros k v Hp. cbn. destruct (String.eqb_spec k key) as [-> |]; congruence. }
  unfold typeAttributes, deletionProtectionAttributes.
  repeat match goal with |- context [if ?c then _ else _] => destruct c end;
    cbn [app]; repeat constructor; by apply Hk.
Qed.

(** The type-specific attributes, for a load balancer of a given type. *)
Lemma typeAttributes_network (d : ResourceData) (key : string) :
  Get load_balancer_type d = "network" ∨ Get load_balancer_type d = "gateway" ->
  key ≠ "load_balancing.cross_zone.enabled" ->
  attributeValue key (typeAttributes d) = None.
Proof.
  intros Ht Hkey. unfold typeAttributes.
  apply String.eqb_neq in Hkey. rewrite String.eqb_sym in Hkey.
  assert (Hsome : ∀ c v, attributeValue key
                    (if c : bool then [attribute "load_balancing.cross_zone.enabled" v] else [])
                  = None).
  { intros [] v; [| reflexivity].
    cbn [attributeValue attribute aws.StringValue elbv2.Key elbv2.Value]. by rewrite Hkey. }
  destruct Ht as [-> | ->]; apply Hsome.
Qed.

Lemma typeAttributes_application (d : ResourceData) :
  Get load_balancer_type d = "application" ->
  attributeValue "load_balancing.cross_zone.enabled" (typeAttributes d) = None.
Proof.
  intros Ht. unfold typeAttributes. rewrite Ht.
  change (String.eqb "application" elbv2.LoadBalancerTypeEnumApplication) with true.
  cbv iota. destruct (_ || _), (_ || _), (_ || _); reflexivity.
Qed.

Lemma attributeValue_deletionProtection (d : ResourceData) (key : string) :
  key ≠ "deletion_protection.enabled" ->
  attributeValue key (deletionProtectionAttributes d) = None.
Proof.
  intros Hkey. apply String.eqb_neq in Hkey. rewrite String.eqb_sym in Hkey.
  unfold deletionProtectionAttributes.
  destruct (_ || _); [| reflexivity].
  cbn [attributeValue attribute aws.StringValue elbv2.Key elbv2.Value]. by rewrite Hkey.
Qed.

Lemma accessLogs_disabled_not_sent (d : ResourceData) (key : string) :
  Get_access_logs_0_enabled d = false ->
  key ≠ "access_logs.s3.enabled" ->
  attributeValue key (accessLogsAttributes d) = None.
Proof.
  intros Hoff Hkey. apply String.eqb_neq in Hkey. rewrite String.eqb_sym in Hkey.
  unfold accessLogsAttributes, Get_access_logs_0_enabled in *.
  destruct (HasChange access_logs d); [| reflexivity].
  destruct (Get access_logs d) as [| [log |] [| x l]]; try rewrite Hoff;
    cbn [attributeValue attribute aws.StringValue elbv2.Key elbv2.Value strconv.FormatBool];
    by rewrite Hkey.
Qed.

(** X18.  The schema and Update agree on the attributes that do not apply:
    whenever the [DiffSuppressFunc] of an attribute suppresses its diff
    (the idle timeout, HTTP/2 and the invalid header fields for the network
    type, cross-zone balancing for the application type, the bucket and the
    prefix of access logs that are not enabled), the attribute list that
    Update sends has no entry for this attribute. *)
Theorem suppressed_diff_not_sent (key apiKey k o n : string) (f : SchemaDiffSuppressFunc)
    (d : ResourceData) :
  DiffSuppressFunc key = Some f ->
  attributeKeyOf key = Some apiKey ->
  f k o n d = true ->
  attributeValue apiKey (updateAttributes d) = None.
Proof.
  unfold DiffSuppressFunc. intros Hf Hkey Hs.
  repeat match type of Hf with
         | (if String.eqb key ?c then _ else _) = _ =>
             destruct (String.eqb_spec key c) as [-> | _]
         end;
    try discriminate; injection Hf as <-; vm_compute in Hkey; injection Hkey as <-;
    unfold suppressIfLBType, elbv2.LoadBalancerTypeEnumNetwork,
      elbv2.LoadBalancerTypeEnumApplication in Hs;
    try apply String.eqb_eq in Hs; try apply negb_true_iff in Hs;
    unfold updateAttributes; rewrite attributeValue_app.
  - rewrite (accessLogs_disabled_not_sent d _ Hs) by discriminate.
    by apply attributeValue_type_other.
  - rewrite (accessLogs_disabled_not_sent d _ Hs) by discriminate.
    by apply attributeValue_type_other.
  - rewrite attributeValue_accessLogs_other, attributeValue_app by reflexivity.
    rewrite typeAttributes_network by (by left || discriminate).
    by apply attributeValue_deletionProtection.
  - rewrite attributeValue_accessLogs_other, attributeValue_app by reflexivity.
    rewrite typeAttributes_network by (by left || discriminate).
    by apply attributeValue_deletionProtection.
  - rewrite attributeValue_accessLogs_other, attributeValue_app by reflexivity.
    rewrite typeAttributes_application by done.
    by apply attributeValue_deletionProtection.
  - rewrite attributeValue_accessLogs_other, attributeValue_app by reflexivity.
    rewrite typeAttributes_network by (by left || discriminate).
    by apply attributeValue_deletionProtection.
Qed.

(** X19.  For the gateway type the two do not agree: the schema suppresses
    the diff of the idle timeout, of HTTP/2 and of the invalid header fields
    for the network type only, and Update sends them for the application
    type only.  On a gateway load balancer a diff of one of them is
    therefore not suppressed, and Update sends nothing for it. *)
Theorem gateway_diff_not_suppressed_not_sent (key k o n : string) (d : ResourceData) :
  Get load_balancer_type d = elbv2.LoadBalancerTypeEnumGateway ->
  In key ["idle_timeout"; "enable_http2"; "drop_invalid_header_fields"] ->
  ∃ f apiKey,
    DiffSuppressFunc key = Some f ∧ attributeKeyOf key = Some apiKey ∧
    f k o n d = false ∧
    attributeValue apiKey (updateAttributes d) = None.
Proof.
  intros Ht Hkey. unfold elbv2.LoadBalancerTypeEnumGateway in Ht.
  assert (Hsent : ∀ apiKey, String.prefix "access_logs." apiKey = false ->
            apiKey ≠ "load_balancing.cross_zone.enabled" ->
            apiKey ≠ "deletion_protection.enabled" ->
            attributeValue apiKey (updateAttributes d) = None).
  { intros apiKey H1 H2 H3. unfold updateAttributes.
    rewrite attributeValue_app, attributeValue_accessLogs_other, attributeValue_app by done.
    rewrite typeAttributes_network by (by right || done).
    by apply attributeValue_deletionProtection. }
  cbn in Hkey. destruct Hkey as [<- | [<- | [<- | []]]];
    eexists _, _; (split; [reflexivity |]); (split; [reflexivity |]);
    (split; [unfold suppressIfLBType; by rewrite Ht | by apply Hsent]).
Qed.

(** ** Read: the calls of a read that succeeds *)

Lemma flattenAttributes_tags (attributes : list elbv2.LoadBalancerAttribute)
    (accessLogMap : AccessLogs) (d : ResourceData) :
  Get tags (fst (flattenAttributes attributes accessLogMap d)) = Get tags d.
Proof.
  revert accessLogMap d.
  induction attributes as [| attr rest IH]; intros accessLogMap d; [reflexivity |].
  cbn [flattenAttributes].
  repeat (destruct (String.eqb _ _)); try (destruct (strconv.Atoi _));
    first [ reflexivity | by rewrite IH ].
Qed.

(** X20.  A Read that returns nil made one of two runs.  Either the
    description answered a not-found error, and Read logged it and cleared
    the identity; or Read made exactly three calls, all for the identity of
    the resource and all answered without error (the description, with one
    load balancer, the tag listing and the attribute description), and the
    tags it stored are the tags listed, filtered by [IgnoreAws] and then by
    the [IgnoreConfig] of the provider. *)
Theorem resourceAwsLbRead_success (env : Env) (w : World env) (d : ResourceData) :
  let calls := callsOf env (resourceAwsLbRead d) w in
  let res := resultOf env (resourceAwsLbRead d) w in
  snd res = None ->
  (∃ err,
     isLoadBalancerNotFound err = true ∧
     calls = [Called (DescribeLoadBalancers [Id d]) (Err err);
              Called (logWarn "[WARN] ALB %s not found in AWS, removing from state" [Id d]
                        None) tt] ∧
     fst res = SetId "" d)
  ∨ (∃ lb remoteTags attributes,
       calls = [Called (DescribeLoadBalancers [Id d]) (Ok [lb]);
                Called (Elbv2ListTags (Id d)) (Ok remoteTags);
                Called (DescribeLoadBalancerAttributes (Id d)) (Ok attributes)] ∧
       Id (fst res) = Id d ∧
       Get tags (fst res) = IgnoreConfig (IgnoreAws remoteTags)).
Proof.
  cbv zeta. unfold callsOf, resultOf, resourceAwsLbRead. cbn. answer.
  destruct x as [[| lb [| lb2 lbs]] | err]; cbn; try discriminate.
  - unfold flattenAwsLbResource. cbn. answer.
    destruct x as [remoteTags | err]; cbn; [| discriminate].
    answer. destruct x as [attributes | err]; cbn; [| discriminate].
    pose proof (flattenAttributes_tags attributes
                  {| bucket := ""; prefix := ""; enabled := false |}
                  (Set_tags (IgnoreConfig (IgnoreAws remoteTags)) (flattenLoadBalancer lb d)))
      as Htags.
    pose proof (flattenAttributes_frame attributes
                  {| bucket := ""; prefix := ""; enabled := false |}
                  (Set_tags (IgnoreConfig (IgnoreAws remoteTags)) (flattenLoadBalancer lb d)))
      as (Hid & _).
    destruct (flattenAttributes _ _ _) as [d' [alm | e]]; cbn in *; [| discriminate].
    intros _. right. exists lb, remoteTags, attributes. by repeat split.
  - destruct (isLoadBalancerNotFound err) eqn:Enf; cbn; [| discriminate].
    answer. destruct x. intros _. left. exists err. by repeat split.
Qed.

(** ** Subnet mappings, sent and read back *)



End Provider.

(* ===================================================================== *)
(** * The statements on sample data *)
(* ===================================================================== *)

(** C2, the round trip fails: a load balancer entity whose attachments are
    given as the subnet set alone is the reading of no remote record,
    whatever the hash of the set: a record with a zone fills
    [subnet_mapping] too. *)
Lemma flattenLoadBalancer_never_subnets_alone :
  ¬ ∃ (hashcode_String : string -> Z) (lb : elbv2.LoadBalancer) (d : ResourceData),
      Get subnets (flattenLoadBalancer hashcode_String lb d) = {["subnet-1"]} ∧
      Get subnet_mapping (flattenLoadBalancer hashcode_String lb d) = [].
Proof.
  intros (h & lb & d & Hs & Hm).
  rewrite flattenLoadBalancer_subnet_mapping in Hm. apply schema_set_nil in Hm.
  rewrite flattenLoadBalancer_subnets in Hs.
  destruct (elbv2.AvailabilityZones lb) as [| az azs]; cbn in *; [| discriminate].
  assert (H : "subnet-1" ∈ (∅ : gset string)).
  { rewrite Hs. by apply elem_of_singleton. }
  by apply not_elem_of_empty in H.
Qed.

(** C4, the claim as stated fails on both sides: a remote record with one
    zone leaves both attachment fields populated after the read, whatever
    the hash of the set, and a configuration that gives both [subnets] and
    [subnet_mapping] puts both in the creation request. *)
Lemma attachments_both_populated :
  let lb := {| elbv2.AvailabilityZones :=
                 [{| elbv2.LoadBalancerAddresses := []; elbv2.OutpostId := None;
                     elbv2.SubnetId := Some "subnet-1"; elbv2.ZoneName := Some "a" |}];
               elbv2.CanonicalHostedZoneId := None; elbv2.CustomerOwnedIpv4Pool := None;
               elbv2.DNSName := None; elbv2.IpAddressType := Some "ipv4";
               elbv2.LoadBalancerArn := Some "arn:aws:elasticloadbalancing:r:a:loadbalancer/app/lb/1";
               elbv2.LoadBalancerName := Some "lb"; elbv2.Scheme := None;
               elbv2.SecurityGroups := []; elbv2.Type_ := Some "application";
               elbv2.VpcId := None |} in
  let d := sampleData in
  let both := Set_subnet_mapping
                [{| subnet_id := "subnet-2"; ipv6_address := ""; outpost_id := "";
                    allocation_id := ""; private_ipv4_address := "" |}]
                (Set_subnets {["subnet-1"]} d) in
  (∀ hashcode_String : string -> Z,
     Get subnets (flattenLoadBalancer hashcode_String lb d) = {["subnet-1"]} ∧
     Get subnet_mapping (flattenLoadBalancer hashcode_String lb d) =
       [{| subnet_id := "subnet-1"; ipv6_address := ""; outpost_id := "";
           allocation_id := ""; private_ipv4_address := "" |}]) ∧
  (elbv2.in_Subnets (createLoadBalancerInput "lb" ∅ both) = ["subnet-1"] ∧
   elbv2.in_SubnetMappings (createLoadBalancerInput "lb" ∅ both) =
     [{| elbv2.sm_AllocationId := None; elbv2.sm_IPv6Address := None;
         elbv2.sm_PrivateIPv4Address := None; elbv2.sm_SubnetId := Some "subnet-2" |}]).
Proof.
  cbv zeta. split; [intros h; split | split].
  - rewrite flattenLoadBalancer_subnets. cbn. apply union_empty_r_L.
  - rewrite flattenLoadBalancer_subnet_mapping.
    cbn [elbv2.AvailabilityZones flattenSubnetMappingsFromAvailabilityZones map].
    rewrite schema_set_singleton. reflexivity.
  - unfold createLoadBalancerInput, GetOk_set, Get, expandStringSet. cbn.
    destruct (decide _) as [E | _]; cbn.
    + exfalso. assert (H : "subnet-1" ∈ (∅ : gset string)).
      { rewrite <- E. by apply elem_of_singleton. }
      by apply not_elem_of_empty in H.
    + apply elements_singleton.
  - reflexivity.
Qed.


(** C1 on an existing network load balancer whose subnets change. *)
Lemma customizeDiffNLBSubnets_forces_new_witness :
  let diff := {| diff_Id := "arn:aws:elasticloadbalancing:r:a:loadbalancer/net/lb/1";
                 diff_load_balancer_type := elbv2.LoadBalancerTypeEnumNetwork;
                 diff_subnets_old := Some {["subnet-a"]};
                 diff_subnets_new := Some {["subnet-b"]};
                 forcedNewKeys := [] |} in
  ("subnets" ∉ forcedNewKeys diff) ∧
  snd (customizeDiffNLBSubnets diff) = None ∧
  RequiresNew "subnets" (fst (customizeDiffNLBSubnets diff)) = true.
Proof.
  cbv zeta.
  assert (Hfresh : "subnets" ∉ ([] : list string)) by apply not_elem_of_nil.
  split; [exact Hfresh |].
  destruct (customizeDiffNLBSubnets_forces_new
              {| diff_Id := "arn:aws:elasticloadbalancing:r:a:loadbalancer/net/lb/1";
                 diff_load_balancer_type := elbv2.LoadBalancerTypeEnumNetwork;
                 diff_subnets_old := Some {["subnet-a"]};
                 diff_subnets_new := Some {["subnet-b"]};
                 forcedNewKeys := [] |} Hfresh) as [Herr Hforce].
  split; [exact Herr |]. apply Hforce.
  split; [reflexivity |]. split; [discriminate |].
  simpl. intros E.
  assert (H : "subnet-a" ∈ ({["subnet-b"]} : gset string)).
  { rewrite <- E. by apply elem_of_singleton. }
  apply elem_of_singleton in H. discriminate.
Defined.

(** C3 on an identifier without a slash. *)
Lemma arn_suffix_extraction_witness :
  contains "loadbalancer/" "my-lb" = false ∧
  lbSuffixFromARN (Some "my-lb") = "" ∧
  getLbNameFromArn "my-lb" = Err (Errorf "Unexpected ARN format: %q" ["my-lb"] None) ∧
  ¬ endsInThreeSegments "my-lb".
Proof.
  pose proof arn_suffix_extraction as H. cbv zeta in H.
  destruct H as (_ & _ & _ & Hsuffix & _ & _ & Herr).
  split; [reflexivity |].
  split; [exact (Hsuffix "my-lb" eq_refl) |].
  split; [reflexivity |].
  exact (proj2 (Herr "my-lb" _ eq_refl)).
Defined.

(** C4 on a creation from a plan with one subnet. *)
Lemma attachment_fields_witness :
  let env := sampleEnv [] None in
  let input := createLoadBalancerInput "lb" ∅ (Set_name "lb" sampleNewData) in
  let c := Called (CreateLoadBalancer input) (Ok [sampleLoadBalancer]) in
  In c (callsOf env (resourceAwsLbCreate (fun _ => false) id id sampleHash sampleNewData) tt) ∧
  createRequest c = Some input ∧
  elbv2.in_Subnets input = expandStringSet (Get subnets sampleNewData) ∧
  elbv2.in_SubnetMappings input = [].
Proof.
  cbv zeta.
  assert (Hin : In (Called (CreateLoadBalancer
                              (createLoadBalancerInput "lb" ∅ (Set_name "lb" sampleNewData)))
                      (Ok [sampleLoadBalancer]))
                  (callsOf (sampleEnv [] None)
                     (resourceAwsLbCreate (fun _ => false) id id sampleHash sampleNewData) tt))
    by (left; reflexivity).
  split; [exact Hin |]. split; [reflexivity |].
  destruct (proj2 (attachment_fields (fun _ => false) id id sampleHash (sampleEnv [] None) tt
                     sampleNewData sampleLoadBalancer) _ _ Hin eq_refl)
    as (Hsubnets & Hmappings & _).
  split; [exact Hsubnets | exact Hmappings].
Defined.

(** C5 on a plan that enables access logs. *)
Lemma accessLogs_instructions_witness :
  HasChange access_logs sampleLoggingData = true ∧
  Get access_logs sampleLoggingData = [Some {| bucket := "b"; prefix := "p"; enabled := true |}] ∧
  List.filter isAccessLogsAttribute (updateAttributes sampleLoggingData) =
    [attribute "access_logs.s3.enabled" "true";
     attribute "access_logs.s3.bucket" "b";
     attribute "access_logs.s3.prefix" "p"].
Proof.
  assert (Hchange : HasChange access_logs sampleLoggingData = true) by (vm_compute; reflexivity).
  split; [exact Hchange |]. split; [reflexivity |].
  exact (proj2 (proj2 (accessLogs_instructions sampleLoggingData)) "b" "p" Hchange eq_refl).
Defined.

(** C6 on a new application load balancer with the default idle timeout,
    on a remote side where every call succeeds: the entry is in the list,
    and Update sends the list. *)
Lemma updateAttributes_emission_witness :
  let env := sampleEnv [] None in
  let calls :=
    callsOf env (resourceAwsLbUpdate (fun _ => false) id id sampleHash sampleNewData) tt in
  IsNewResource sampleNewData = true ∧
  Get load_balancer_type sampleNewData = "application" ∧
  Get idle_timeout sampleNewData = 60 ∧
  In (attribute "idle_timeout.timeout_seconds" "60") (updateAttributes sampleNewData) ∧
  Forall (fun c => isMutation c = true -> failed c = false) calls ∧
  existsb isModifyAttributes calls = true.
Proof.
  cbv zeta. split; [reflexivity |]. split; [reflexivity |]. split; [reflexivity |].
  pose proof (updateAttributes_emission (fun _ => false) id id sampleHash sampleNewData) as H.
  cbv zeta in H. destruct H as (_ & _ & _ & _ & _ & Hnew & _ & Hcalls).
  split; [exact (Hnew eq_refl eq_refl eq_refl) |].
  assert (Hok : Forall (fun c => isMutation c = true -> failed c = false)
                  (callsOf (sampleEnv [] None)
                     (resourceAwsLbUpdate (fun _ => false) id id sampleHash sampleNewData) tt)).
  { vm_compute. repeat constructor. }
  split; [exact Hok |].
  destruct (Hcalls (sampleEnv [] None) tt) as (_ & _ & _ & Hsent).
  rewrite (Hsent Hok). vm_compute. reflexivity.
Defined.

(** C7 on the same plan, for a new and for an existing load balancer. *)
Lemma subnets_sent_unless_new_witness :
  let env := sampleEnv [] None in
  let update := resourceAwsLbUpdate (fun _ => false) id id sampleHash in
  (HasChange subnets sampleNewData = true ∧ IsNewResource sampleNewData = true ∧
   Forall (fun c => isSetSubnets c = false) (callsOf env (update sampleNewData) tt)) ∧
  (HasChange subnets sampleChangedData = true ∧ IsNewResource sampleChangedData = false ∧
   existsb isSetSubnets (callsOf env (update sampleChangedData) tt) = true).
Proof.
  cbv zeta. split.
  - split; [vm_compute; reflexivity |]. split; [reflexivity |].
    pose proof (subnets_sent_unless_new (fun _ => false) id id sampleHash (sampleEnv [] None) tt
                  sampleNewData) as H.
    cbv zeta in H. destruct H as (Hnew & _ & _).
    exact (proj1 (Hnew eq_refl)).
  - split; [vm_compute; reflexivity |]. split; [reflexivity |].
    pose proof (subnets_sent_unless_new (fun _ => false) id id sampleHash (sampleEnv [] None) tt
                  sampleChangedData) as H.
    cbv zeta in H. destruct H as (_ & _ & Hsteps).
    assert (Hok : Forall (fun c => isMutation c = true -> failed c = false)
                    (callsOf (sampleEnv [] None)
                       (resourceAwsLbUpdate (fun _ => false) id id sampleHash sampleChangedData) tt)).
    { vm_compute. repeat constructor. }
    destruct (Hsteps Hok) as (_ & _ & _ & Hsubnets & _).
    rewrite Hsubnets. vm_compute. reflexivity.
Defined.

(** C8 on a load balancer whose plan changes nothing. *)
Lemma resourceAwsLbUpdate_idempotent_witness :
  let env := sampleEnv [] None in
  IsNewResource sampleData = false ∧
  old sampleData = new sampleData ∧
  Forall (fun c => isMutation c = false)
    (callsOf env (resourceAwsLbUpdate (fun _ => false) id id sampleHash sampleData) tt).
Proof.
  cbv zeta. split; [reflexivity |]. split; [reflexivity |].
  exact (proj1 (resourceAwsLbUpdate_idempotent (fun _ => false) id id sampleHash (sampleEnv [] None) tt
                  sampleData eq_refl eq_refl)).
Defined.

(** C9 on a remote side where an interface stays attached: detaching it is
    refused, and the wait ends at its deadline with the interface still
    there.  Both errors are logged and Delete returns nil. *)
Lemma resourceAwsLbDelete_result_witness :
  let env := sampleEnv [{| NetworkInterfaceId := "eni-1" |}]
               (Some (AwsError "OperationNotPermitted" "")) in
  let delete := resourceAwsLbDelete sampleIsTimeout 2 (fun _ => TimeoutError None) in
  fst (respond env _ (DeleteLoadBalancer (Id sampleData)) tt) = None ∧
  resultOf env (cleanupLBNetworkInterfaces (Id sampleData)) tt
    = Some (AwsError "OperationNotPermitted" "") ∧
  resultOf env
    (waitForNLBNetworkInterfacesToDetach sampleIsTimeout 2 (fun _ => TimeoutError None)
       (Id sampleData)) tt
    = Some (Errorf "Error waiting for %d ENIs of %q to clean up" ["1"; Id sampleData] None) ∧
  resultOf env (delete sampleData) tt = None.
Proof.
  cbv zeta. split; [reflexivity |]. split; [vm_compute; reflexivity |].
  split; [vm_compute; reflexivity |].
  pose proof (resourceAwsLbDelete_result sampleIsTimeout 2 (fun _ => TimeoutError None)
                (sampleEnv [{| NetworkInterfaceId := "eni-1" |}]
                   (Some (AwsError "OperationNotPermitted" ""))) tt sampleData) as H.
  cbv zeta in H. destruct H as (Hresult & _ & _).
  apply Hresult. reflexivity.
Defined.

(** C10 on an update that changes the subnets of an existing load
    balancer. *)
Lemma resourceAwsLbUpdate_waits_and_reads_witness :
  let env := sampleEnv [] None in
  let update := resourceAwsLbUpdate (fun _ => false) id id sampleHash in
  let read := resourceAwsLbRead (fun _ => false) id id sampleHash in
  snd (resultOf env (update sampleChangedData) tt) = None ∧
  ∃ pre w1 r rest,
    callsOf env (update sampleChangedData) tt =
      (pre ++ Called (LoadBalancerActive (Id sampleChangedData)
                        (TimeoutUpdate (Timeout sampleChangedData))) None
           :: callsOf env (read sampleChangedData) w1)%list ∧
    Forall (fun c => isMutation c = true) pre ∧
    callsOf env (read sampleChangedData) w1 =
      Called (DescribeLoadBalancers [Id sampleChangedData]) r :: rest ∧
    resultOf env (update sampleChangedData) tt = resultOf env (read sampleChangedData) w1.
Proof.
  cbv zeta.
  assert (Hok : snd (resultOf (sampleEnv [] None)
                       (resourceAwsLbUpdate (fun _ => false) id id sampleHash sampleChangedData) tt) = None)
    by (vm_compute; reflexivity).
  split; [exact Hok |].
  exact (proj1 (resourceAwsLbUpdate_waits_and_reads (fun _ => false) id id sampleHash (sampleEnv [] None) tt
                  sampleChangedData) Hok).
Defined.

(** Read when the load balancer is gone: the description answers the
    not-found error of the API. *)
Lemma resourceAwsLbRead_not_found_witness :
  let env := failingEnv describeFails [] in
  let read := resourceAwsLbRead sampleIsNotFound id id sampleHash in
  fst (respond env _ (DescribeLoadBalancers [Id sampleData]) tt)
    = Err (AwsError "LoadBalancerNotFound" "") ∧
  sampleIsNotFound (AwsError "LoadBalancerNotFound" "") = true ∧
  resultOf env (read sampleData) tt = (SetId "" sampleData, None) ∧
  length (callsOf env (read sampleData) tt) = 2%nat.
Proof.
  cbv zeta. split; [reflexivity |]. split; [reflexivity |].
  destruct (resourceAwsLbRead_not_found sampleIsNotFound id id sampleHash (failingEnv describeFails [])
              tt sampleData (AwsError "LoadBalancerNotFound" "") eq_refl eq_refl) as [Hr Hc].
  split; [exact Hr |]. rewrite Hc. reflexivity.
Defined.

(** Read when the description fails with an error that is not a not-found
    error: here no error counts as one. *)
Lemma resourceAwsLbRead_fails_unchanged_witness :
  let env := failingEnv describeFails [] in
  let read := resourceAwsLbRead (fun _ => false) id id sampleHash in
  fst (resultOf env (read sampleData) tt) = sampleData ∧
  snd (resultOf env (read sampleData) tt)
    = Some (Errorf "Error retrieving ALB: %s" [] (Some (AwsError "LoadBalancerNotFound" ""))).
Proof.
  cbv zeta.
  destruct (resourceAwsLbRead_fails_unchanged (fun _ => false) id id sampleHash
              (failingEnv describeFails []) tt sampleData) as (Hd & Herr & _).
  - intros lb. discriminate.
  - reflexivity.
  - split; [exact Hd | exact Herr].
Defined.

(** An attribute of the remote side that Read does not know. *)
Lemma flattenAttributes_unknown_key_witness :
  let unknown := attribute "waf.fail_open.enabled" "false" in
  let known := attribute "idle_timeout.timeout_seconds" "30" in
  let none := {| bucket := ""; prefix := ""; enabled := false |} in
  knownAttributeKey "waf.fail_open.enabled" = false ∧
  flattenAttributes [known; unknown] none sampleData = flattenAttributes [known] none sampleData.
Proof.
  cbv zeta. split; [reflexivity |].
  apply (flattenAttributes_unknown_key [attribute "idle_timeout.timeout_seconds" "30"] []
           (attribute "waf.fail_open.enabled" "false")).
  reflexivity.
Defined.

(** An Update of a new load balancer on a remote side that refuses the
    attribute modification. *)
Lemma resourceAwsLbUpdate_stops_at_failure_witness :
  let env := failingEnv modifyFails [] in
  let update := resourceAwsLbUpdate (fun _ => false) id id sampleHash in
  let c := Called (ModifyLoadBalancerAttributes (Id sampleNewData)
                     (updateAttributes sampleNewData))
             (Some (AwsError "InternalFailure" "")) in
  callsOf env (update sampleNewData) tt = [c] ∧
  isMutation c = true ∧ failed c = true ∧
  fst (resultOf env (update sampleNewData) tt) = sampleNewData ∧
  snd (resultOf env (update sampleNewData) tt) ≠ None.
Proof.
  cbv zeta.
  assert (Hcalls : callsOf (failingEnv modifyFails [])
                     (resourceAwsLbUpdate (fun _ => false) id id sampleHash sampleNewData) tt
                   = ([] ++ Called (ModifyLoadBalancerAttributes (Id sampleNewData)
                                      (updateAttributes sampleNewData))
                              (Some (AwsError "InternalFailure" "")) :: [])%list).
  { vm_compute. reflexivity. }
  split; [exact Hcalls |]. split; [reflexivity |]. split; [reflexivity |].
  destruct (resourceAwsLbUpdate_stops_at_failure (fun _ => false) id id sampleHash
              (failingEnv modifyFails []) tt sampleNewData [] [] _ Hcalls eq_refl eq_refl)
    as (_ & _ & Hd & Herr).
  split; [exact Hd | exact Herr].
Defined.

(** A Create on a remote side that refuses the creation request. *)
Lemma resourceAwsLbCreate_identity_witness :
  let env := failingEnv createFails [] in
  let d := SetId "" sampleNewData in
  let create := resourceAwsLbCreate (fun _ => false) id id sampleHash in
  let c := Called (CreateLoadBalancer
                     (createLoadBalancerInput "lb" (Get tags d) (Set_name "lb" d)))
             (Err (AwsError "InternalFailure" "")) in
  callsOf env (create d) tt = [c] ∧
  createAnswer c = Some (Err (AwsError "InternalFailure" "")) ∧
  Id (fst (resultOf env (create d) tt)) = "" ∧
  snd (resultOf env (create d) tt) ≠ None.
Proof.
  cbv zeta.
  assert (Hcalls : callsOf (failingEnv createFails [])
                     (resourceAwsLbCreate (fun _ => false) id id sampleHash (SetId "" sampleNewData)) tt
                   = ([] ++ Called (CreateLoadBalancer
                                      (createLoadBalancerInput "lb"
                                         (Get tags (SetId "" sampleNewData))
                                         (Set_name "lb" (SetId "" sampleNewData))))
                              (Err (AwsError "InternalFailure" "")) :: [])%list).
  { vm_compute. reflexivity. }
  split; [exact Hcalls |]. split; [reflexivity |].
  pose proof (resourceAwsLbCreate_identity (fun _ => false) id id sampleHash
                (failingEnv createFails []) tt (SetId "" sampleNewData) [] [] _
                (Err (AwsError "InternalFailure" "")) Hcalls eq_refl) as H.
  cbv zeta in H. destruct H as (_ & Hid & Herr).
  split; [exact Hid | exact Herr].
Defined.

(** A Delete of a resource whose identity is a bare name. *)
Lemma resourceAwsLbDelete_malformed_arn_witness :
  let env := sampleEnv [{| NetworkInterfaceId := "eni-1" |}] None in
  let d := SetId "my-lb" sampleData in
  let delete := resourceAwsLbDelete sampleIsTimeout 2 (fun _ => TimeoutError None) in
  ¬ endsInThreeSegments (Id d) ∧
  resultOf env (delete d) tt = None ∧
  length (callsOf env (delete d) tt) = 3%nat.
Proof.
  cbv zeta.
  assert (Hbad : ¬ endsInThreeSegments (Id (SetId "my-lb" sampleData))).
  { intros H. apply getLbNameFromArn_succeeds in H as [name H]. vm_compute in H.
    discriminate. }
  split; [exact Hbad |].
  pose proof (resourceAwsLbDelete_malformed_arn sampleIsTimeout 2 (fun _ => TimeoutError None)
                (sampleEnv [{| NetworkInterfaceId := "eni-1" |}] None) tt
                (SetId "my-lb" sampleData) Hbad) as H.
  cbv zeta in H. destruct H as (_ & _ & H). destruct (H eq_refl) as [Hr Hc].
  split; [exact Hr |]. rewrite Hc. reflexivity.
Defined.

(** A cleanup that finds one interface and may not detach it. *)
Lemma cleanupLBNetworkInterfaces_steps_witness :
  let env := failingEnv detachFails [{| NetworkInterfaceId := "eni-1" |}] in
  getLbNameFromArn (Id sampleData) = Ok "app/lb/1" ∧
  resultOf env (cleanupLBNetworkInterfaces (Id sampleData)) tt
    = Some (AwsError "OperationNotPermitted" "") ∧
  ¬ Forall (fun c => failed c = false)
      (callsOf env (cleanupLBNetworkInterfaces (Id sampleData)) tt).
Proof.
  cbv zeta.
  assert (Hname : getLbNameFromArn (Id sampleData) = Ok "app/lb/1") by (vm_compute; reflexivity).
  split; [exact Hname |].
  pose proof (cleanupLBNetworkInterfaces_steps
                (failingEnv detachFails [{| NetworkInterfaceId := "eni-1" |}]) tt
                (Id sampleData) "app/lb/1" Hname) as H.
  cbv zeta in H. destruct H as [_ Hiff].
  assert (Hres : resultOf (failingEnv detachFails [{| NetworkInterfaceId := "eni-1" |}])
                   (cleanupLBNetworkInterfaces (Id sampleData)) tt
                 = Some (AwsError "OperationNotPermitted" "")) by (vm_compute; reflexivity).
  split; [exact Hres |].
  intros Hnone. apply Hiff in Hnone. rewrite Hres in Hnone. discriminate.
Defined.

(** The name of a load balancer in its ARN. *)
Lemma getLbNameFromArn_last_three_witness :
  threeSegments "app/lb/1" ∧
  getLbNameFromArn "arn:aws:elasticloadbalancing:r:a:loadbalancer/app/lb/1" = Ok "app/lb/1".
Proof.
  assert (Hname : threeSegments "app/lb/1").
  { exists "app", "lb", "1". repeat split; (discriminate || reflexivity). }
  split; [exact Hname |].
  apply (getLbNameFromArn_last_three "arn:aws:elasticloadbalancing:r:a:loadbalancer/"
           "app/lb/1" Hname).
  right. by exists "arn:aws:elasticloadbalancing:r:a:loadbalancer".
Defined.

Lemma lbSuffixFromARN_rest_witness :
  contains ":loadbalancer/" "app/lb/1" = false ∧
  lbSuffixFromARN (Some "arn:aws:elasticloadbalancing:r:a:loadbalancer/app/lb/1") = "app/lb/1".
Proof.
  split; [reflexivity |].
  apply (lbSuffixFromARN_rest "aws:elasticloadbalancing:r:a" "app/lb/1"); reflexivity.
Defined.

(** The attributes a new application load balancer sends, read back. *)
Lemma attributes_round_trip_witness :
  inInt64 (Get idle_timeout sampleNewData) ∧
  fst (flattenAttributes (updateAttributes sampleNewData)
         {| bucket := ""; prefix := ""; enabled := false |} sampleNewData) = sampleNewData.
Proof.
  assert (Hint : inInt64 (Get idle_timeout sampleNewData)) by (unfold inInt64; cbn; lia).
  split; [exact Hint |].
  pose proof (attributes_round_trip sampleNewData Hint) as H. cbv zeta in H.
  rewrite H. reflexivity.
Defined.

(** The idle timeout of a network load balancer. *)
Lemma suppressed_diff_not_sent_witness :
  DiffSuppressFunc "idle_timeout" = Some (suppressIfLBType elbv2.LoadBalancerTypeEnumNetwork) ∧
  suppressIfLBType elbv2.LoadBalancerTypeEnumNetwork "idle_timeout" "60" "30"
    sampleNetworkData = true ∧
  attributeValue "idle_timeout.timeout_seconds" (updateAttributes sampleNetworkData) = None.
Proof.
  split; [reflexivity |]. split; [reflexivity |].
  apply (suppressed_diff_not_sent "idle_timeout" "idle_timeout.timeout_seconds"
           "idle_timeout" "60" "30" (suppressIfLBType elbv2.LoadBalancerTypeEnumNetwork)
           sampleNetworkData); reflexivity.
Defined.

(** The idle timeout of a gateway load balancer. *)
Lemma gateway_diff_not_suppressed_not_sent_witness :
  let d := Set_load_balancer_type elbv2.LoadBalancerTypeEnumGateway sampleNewData in
  ∃ f apiKey,
    DiffSuppressFunc "idle_timeout" = Some f ∧ attributeKeyOf "idle_timeout" = Some apiKey ∧
    f "idle_timeout" "60" "30" d = false ∧
    attributeValue apiKey (updateAttributes d) = None.
Proof.
  cbv zeta.
  apply (gateway_diff_not_suppressed_not_sent "idle_timeout" "idle_timeout" "60" "30"
           (Set_load_balancer_type elbv2.LoadBalancerTypeEnumGateway sampleNewData)).
  - reflexivity.
  - by left.
Defined.

(** A Read of a load balancer that exists. *)
Lemma resourceAwsLbRead_success_witness :
  let env := sampleEnv [] None in
  let read := resourceAwsLbRead sampleIsNotFound id id sampleHash in
  snd (resultOf env (read sampleData) tt) = None ∧
  length (callsOf env (read sampleData) tt) = 3%nat ∧
  ((∃ err, sampleIsNotFound err = true ∧
           fst (resultOf env (read sampleData) tt) = SetId "" sampleData)
   ∨ (∃ remoteTags,
        Id (fst (resultOf env (read sampleData) tt)) = Id sampleData ∧
        Get tags (fst (resultOf env (read sampleData) tt)) = remoteTags)).
Proof.
  cbv zeta.
  assert (Hok : snd (resultOf (sampleEnv [] None)
                       (resourceAwsLbRead sampleIsNotFound id id sampleHash sampleData) tt) = None)
    by (vm_compute; reflexivity).
  split; [exact Hok |]. split; [vm_compute; reflexivity |].
  destruct (resourceAwsLbRead_success sampleIsNotFound id id sampleHash (sampleEnv [] None) tt
              sampleData Hok)
    as [(err & Hnf & _ & Hd) | (lb & remoteTags & attributes & _ & Hid & Htags)].
  - left. by exists err.
  - right. by exists (id (id remoteTags)).
Defined.

